(** * The Chrome profile importer of muon (brave/utility/importer/chrome_importer.cc)

    A shallow embedding of [ChromeImporter] and the properties of its
    import session: the time conversion, the bookmark tree walk, the
    row-consuming history and cookie imports, favicon resolution, password
    forwarding and the signalling protocol of [StartImport].

    Conventions of the embedding.
    - 64-bit and 32-bit signed integers are [Z] with the two's-complement
      wrap-around written out ([wrap64], [wrap32]).
    - [std::string] and [base::string16] are [string]; the conversions
      between them are the identity on the text.
    - Code that may throw returns a [Result]; nothing in the importer
      catches, so a [Throw] ends the run.
    - The bridge (sink) is the chronological list of calls made on it.
    - [cancelled()] reads a flag owned by the host; the embedding reads it
      from an oracle indexed by the number of polls made so far. *)

From Stdlib Require Import ZArith Lia List.
From Stdlib.Strings Require Import String Ascii Byte.
From stdpp Require Import base option list gmap strings.

#[local] Set Warnings "-register-all,-clear-no-such-hyp".
#[local] Open Scope string_scope.
#[local] Open Scope list_scope.
#[local] Open Scope Z_scope.

(** ** Exceptions *)

Inductive Exception := invalid_argument | out_of_range.

Inductive Result (A : Type) :=
| Ok (a : A)
| Throw (e : Exception).
Arguments Ok {A} a.
Arguments Throw {A} e.

Definition rbind {A B} (r : Result A) (f : A -> Result B) : Result B :=
  match r with
  | Ok a => f a
  | Throw e => Throw e
  end.

(** ** Machine integers *)

Definition wrap (bits : Z) (z : Z) : Z :=
  (z + 2 ^ (bits - 1)) mod 2 ^ bits - 2 ^ (bits - 1).

Definition wrap64 : Z -> Z := wrap 64.
Definition wrap32 : Z -> Z := wrap 32.

Definition LLONG_MIN : Z := - 2 ^ 63.
Definition LLONG_MAX : Z := 2 ^ 63 - 1.

Definition in_int64 (z : Z) : Prop := LLONG_MIN <= z <= LLONG_MAX.

(** ** TimeCodec: [ChromeImporter::chromeTimeToDouble]

    [return ((time * 10 - 0x19DB1DED53E8000) / 10000) / 1000;] on
    [int64_t]: the products and differences wrap, [/] truncates towards
    zero ([Z.quot]).  The result is converted to [double]; its magnitude is
    below 2^53 (lemma [chromeTimeToDouble_exact_double]), so the conversion
    is exact and the embedding returns the integer itself. *)

Definition chromeTimeToDouble (time : Z) : Z :=
  Z.quot (Z.quot (wrap64 (wrap64 (time * 10) - 0x19DB1DED53E8000)) 10000) 1000.

(** The inverse direction named by the specification ("encode"): Unix
    seconds to the source convention, microseconds since 1601-01-01.  It is
    not part of the importer; it is stated here to express the round trip. *)
Definition spec_encode (unix_seconds : Z) : Z :=
  (unix_seconds + 11644473600) * 1000000.

(** Timestamps for which neither [time * 10] nor the subtraction leaves
    [int64_t]. *)
Definition no_overflow (time : Z) : Prop :=
  LLONG_MIN + 0x19DB1DED53E8000 <= time * 10 <= LLONG_MAX.

(** Civil date of a day count since 1970-01-01 (proleptic Gregorian), used
    only to read the fixture value as a calendar date. *)
Definition civil_from_days (days : Z) : Z * Z * Z :=
  let z := days + 719468 in
  let era := z / 146097 in
  let doe := z - era * 146097 in
  let yoe := (doe - doe / 1460 + doe / 36524 - doe / 146096) / 365 in
  let y := yoe + era * 400 in
  let doy := doe - (365 * yoe + yoe / 4 - yoe / 100) in
  let mp := (5 * doy + 2) / 153 in
  let d := doy - (153 * mp + 2) / 5 + 1 in
  let m := if mp <? 10 then mp + 3 else mp - 9 in
  (if m <=? 2 then y + 1 else y, m, d).

(** ** [std::stoll]

    Base 10: leading white space is skipped, an optional sign is read, then
    the longest run of digits; the rest of the string is ignored.  No digit
    throws [std::invalid_argument], a value outside [long long] throws
    [std::out_of_range]. *)

Definition isspace (c : ascii) : bool :=
  let n := nat_of_ascii c in
  (n =? 32)%nat || ((9 <=? n)%nat && (n <=? 13)%nat).

Definition digit_of (c : ascii) : option Z :=
  let n := nat_of_ascii c in
  if ((48 <=? n)%nat && (n <=? 57)%nat)%bool then Some (Z.of_nat n - 48) else None.

Fixpoint skip_space (s : string) : string :=
  match s with
  | String c rest => if isspace c then skip_space rest else s
  | EmptyString => s
  end.

Fixpoint leading_digits (s : string) : list Z :=
  match s with
  | String c rest =>
      match digit_of c with
      | Some d => d :: leading_digits rest
      | None => []
      end
  | EmptyString => []
  end.

Definition decimal_value (ds : list Z) : Z :=
  fold_left (fun acc d => acc * 10 + d) ds 0.

Definition stoll (str : string) : Result Z :=
  let s := skip_space str in
  let '(negative, s) :=
    match s with
    | String "-" rest => (true, rest)
    | String "+" rest => (false, rest)
    | _ => (false, s)
    end in
  match leading_digits s with
  | [] => Throw invalid_argument
  | ds =>
      let v := if negative then - decimal_value ds else decimal_value ds in
      if ((LLONG_MIN <=? v) && (v <=? LLONG_MAX))%bool then Ok v
      else Throw out_of_range
  end.

(** ** [base::Value]

    A dictionary is the list of its members; a key occurs once in a parsed
    value, and the lookup takes the first member of that name.  A double is
    carried as its bit pattern; the importer reads none. *)

Inductive Value :=
| NONE
| BOOLEAN (b : bool)
| INTEGER (i : Z)
| DOUBLE (ieee754 : Z)
| STRING (s : string)
| BINARY (bytes : list byte)
| DICTIONARY (members : list (string * Value))
| LIST (items : list Value).

Fixpoint FindKey (key : string) (members : list (string * Value)) : option Value :=
  match members with
  | [] => None
  | (k, v) :: rest => if String.eqb k key then Some v else FindKey key rest
  end.

(** [value.GetAsDictionary(&dict)] *)
Definition GetAsDictionary (v : Value) : option (list (string * Value)) :=
  match v with
  | DICTIONARY members => Some members
  | _ => None
  end.

(** [value->GetAsInteger(&i)] *)
Definition GetAsInteger (v : Value) : option Z :=
  match v with
  | INTEGER i => Some i
  | _ => None
  end.

(** [dict->GetDictionary(key, &out)] *)
Definition GetDictionary (key : string) (dict : Value) : option Value :=
  match dict with
  | DICTIONARY members =>
      match FindKey key members with
      | Some (DICTIONARY m) => Some (DICTIONARY m)
      | _ => None
      end
  | _ => None
  end.

(** [dict->GetList(key, &out)] *)
Definition GetList (key : string) (dict : Value) : option (list Value) :=
  match dict with
  | DICTIONARY members =>
      match FindKey key members with
      | Some (LIST items) => Some items
      | _ => None
      end
  | _ => None
  end.

(** [dict->GetString(key, &out)] with [out] default-constructed before the
    call, as at every use in the importer: the text, or the empty string
    when the key is absent or not a string. *)
Definition GetString (key : string) (dict : Value) : string :=
  match dict with
  | DICTIONARY members =>
      match FindKey key members with
      | Some (STRING s) => s
      | _ => ""
      end
  | _ => ""
  end.

(** A helper for the one place where the walk must recurse through a
    lookup: [WithKey key k d members] is [k v] for the first member [v]
    named [key], and [d] when there is none.  Lemma [WithKey_FindKey]
    relates it to [FindKey]. *)
Definition WithKey {R} (key : string) (k : Value -> R) (d : R)
  : list (string * Value) -> R :=
  fix go members :=
    match members with
    | [] => d
    | (k', v) :: rest => if String.eqb k' key then k v else go rest
    end.

(** ** The Chromium library surface the importer calls

    [GURL], the favicon codec, the JSON reader and the password form type
    are not part of this repository; the importer is parameterised by
    them.  [GURL] values are compared by [std::set], hence the decidable
    equality; the empty text is not a JSON document. *)

Inductive ImportItem := HISTORY | FAVORITES | COOKIES | PASSWORDS.

Inductive VisitSource := VISIT_SOURCE_CHROME_IMPORTED.

Inductive DesktopEnvironment :=
| DESKTOP_ENVIRONMENT_KDE4
| DESKTOP_ENVIRONMENT_KDE5.

Inductive SelectedLinuxBackend :=
| DEFER | BASIC_TEXT | GNOME_ANY | GNOME_KEYRING | GNOME_LIBSECRET
| KWALLET | KWALLET5.

Class Chromium := {
  GURL : Type;
  GURL_eq_dec :: EqDecision GURL;
  GURL_countable :: Countable GURL;
  (** [GURL(const std::string&)] *)
  GURL_of : string -> GURL;
  (** [GURL()] *)
  GURL_empty : GURL;
  is_valid : GURL -> bool;
  (** [url.SchemeIs(url::kDataScheme)] *)
  SchemeIs_data : GURL -> bool;
  (** [importer::ReencodeFavicon]: the PNG bytes, or failure *)
  ReencodeFavicon : list byte -> option (list byte);
  (** [base::JSONReader::Read]: the parsed value, or null *)
  JSONReader_Read : string -> option Value;
  JSONReader_Read_empty : JSONReader_Read "" = None;
  (** [autofill::PasswordForm] *)
  PasswordForm : Type;
  (** the bit of each [importer::ImportItem] in the item mask *)
  ImportItem_bit : ImportItem -> Z;
}.

(** [base::Time::FromDoubleT] is kept as a constructor. *)
Inductive Time := FromDoubleT (dt : Z).

(** A database file of the profile: missing ([base::PathExists] fails),
    present but [db.Open] fails, or opened with some content. *)
Inductive DbFile (A : Type) :=
| Absent
| Unopenable
| Opened (content : A).
Arguments Absent {A}.
Arguments Unopenable {A}.
Arguments Opened {A} content.

(** Rows of the source tables, with the columns the queries read.
    SQLite integers are 64-bit. *)
Record urls_row := {
  urls_url : string;
  urls_title : string;
  urls_last_visit_time : Z;
  urls_typed_count : Z;
  urls_visit_count : Z;
  urls_hidden : Z;
}.

Record cookies_row := {
  host_key : string;
  name : string;
  value : string;
  path : string;
  expires_utc : Z;
  secure : Z;
  httponly : Z;
  encrypted_value : list byte;
}.

(** The Favicons database: table [icon_mapping (icon_id, page_url)] and
    table [favicons (id, url)]. *)
Record favicons_db := {
  icon_mapping : list (Z * string);
  favicons : list (Z * string);
}.

(** [s.ColumnInt64], [s.ColumnInt] and [s.ColumnBool] of an integer cell. *)
Definition ColumnInt64 (cell : Z) : Z := wrap64 cell.
Definition ColumnInt (cell : Z) : Z := wrap32 cell.
Definition ColumnBool (cell : Z) : bool := negb (ColumnInt cell =? 0).

Section Bridge.
Context `{Chromium}.

(** *** Records handed to the bridge *)

Record ImporterURLRow := {
  row_url : GURL;
  row_title : string;
  row_last_visit : Time;
  row_hidden : bool;
  row_typed_count : Z;
  row_visit_count : Z;
}.

Record ImportedBookmarkEntry := {
  in_toolbar : bool;
  is_folder : bool;
  entry_url : GURL;
  entry_path : list string;
  entry_title : string;
  creation_time : Time;
}.

(** Modelled from the spec: [ImportedCookieEntry] is declared in
    brave/common/importer/imported_cookie_entry.h, which is not among the
    sources; its fields are the eight that [ImportCookies] assigns, the
    CookieEntry of the data model. *)
Record ImportedCookieEntry := {
  cookie_domain : string;
  cookie_name : string;
  cookie_value : string;
  cookie_host : string;
  cookie_path : string;
  cookie_expiry_date : Time;
  cookie_secure : bool;
  cookie_httponly : bool;
}.

Record FaviconUsageData := {
  favicon_url : GURL;
  png_data : list byte;
  usage_urls : gset GURL;
}.

(** A credential store: [LoginDatabase] or a [NativeBackend].  A
    retrieval either succeeds with its forms or fails. *)
Record LoginStore := {
  Init : bool;
  GetAutofillableLogins : option (list PasswordForm);
  GetBlacklistLogins : option (list PasswordForm);
}.

(** What the importer finds under [source_path_]. *)
Record SourceProfile := {
  History : DbFile (list urls_row);
  Bookmarks : option string;
  Favicons : DbFile favicons_db;
  Cookies : DbFile (list cookies_row);
  Login_Data : LoginStore;
  (** [prefs->ReadPrefs() == PREF_READ_ERROR_NONE] *)
  Preferences_read : bool;
  (** [prefs->GetValue(kLocalProfileId, &value)] *)
  Preferences_kLocalProfileId : option Value;
}.

(** The build configuration and the desktop services of the host. *)
Record Host := {
  USE_X11 : bool;
  USE_LIBSECRET : bool;
  SelectBackend : SelectedLinuxBackend;
  NativeBackendKWallet : Z -> DesktopEnvironment -> LoginStore;
  NativeBackendLibsecret : Z -> LoginStore;
}.

(** *** The bridge: the calls the importer makes on it *)

Inductive Event :=
| NotifyStarted
| NotifyItemStarted (item : ImportItem)
| NotifyItemEnded (item : ImportItem)
| NotifyEnded
| SetHistoryItems (rows : list ImporterURLRow) (visit_source : VisitSource)
| AddBookmarks (bookmarks : list ImportedBookmarkEntry) (first_folder_name : string)
| SetFavicons (favicons : list FaviconUsageData)
| SetCookies (cookies : list ImportedCookieEntry)
| SetPasswordForm (form : PasswordForm).

(** *** The importer monad

    A computation starts at a poll count and ends with a result, the new
    poll count and the bridge calls it made, in order. *)

Record Outcome (A : Type) := {
  res : Result A;
  clock : nat;
  out : list Event;
}.
Arguments res {A} _.
Arguments clock {A} _.
Arguments out {A} _.

Definition M (A : Type) : Type := nat -> Outcome A.

Definition ret {A} (a : A) : M A :=
  fun n => {| res := Ok a; clock := n; out := [] |}.

Definition bind {A B} (m : M A) (f : A -> M B) : M B :=
  fun n =>
    let o := m n in
    match res o with
    | Ok a =>
        let o' := f a (clock o) in
        {| res := res o'; clock := clock o'; out := out o ++ out o' |}
    | Throw e => {| res := Throw e; clock := clock o; out := out o |}
    end.

Definition emit (e : Event) : M unit :=
  fun n => {| res := Ok tt; clock := n; out := [e] |}.

Definition lift {A} (r : Result A) : M A :=
  fun n => {| res := r; clock := n; out := [] |}.

End Bridge.

Arguments res {_ A} _.
Arguments clock {_ A} _.
Arguments out {_ A} _.

Declare Scope importer_scope.
Delimit Scope importer_scope with imp.
Notation "'do' x <- m ; k" := (bind m (fun x => k))
  (at level 10, x name, m at level 100, k at level 200) : importer_scope.
Notation "'run' m ; k" := (bind m (fun _ => k))
  (at level 10, m at level 100, k at level 200) : importer_scope.
Notation "'try' x <- r ; k" := (rbind r (fun x => k))
  (at level 10, x name, r at level 100, k at level 200) : importer_scope.
#[local] Open Scope importer_scope.

(** ** The importer *)

Section Importer.
Context `{Chromium}.

(** The cancellation flag as the n-th poll sees it. *)
Variable cancelled_at : nat -> bool.

(** [cancelled()] *)
Definition cancelled : M bool :=
  fun n => {| res := Ok (cancelled_at n); clock := S n; out := [] |}.

(** [while (s.Step() && !cancelled()) { body }], the loop of the three
    row-consuming queries: [s] is what the statement has still to return,
    [acc] what the body has built so far.  [cancelled()] is polled once for
    every row stepped to, and not when the statement is exhausted. *)
Fixpoint while_Step {R A} (body : A -> R -> A) (s : list R) (acc : A) : M A :=
  match s with
  | [] => ret acc
  | r :: s' =>
      do c <- cancelled;
      if c then ret acc else while_Step body s' (body acc r)
  end.

(** *** [ImportHistory] *)

(** The row built from one result row of the query (lines 110-118). *)
Definition history_row (r : urls_row) : ImporterURLRow :=
  {| row_url := GURL_of (urls_url r);
     row_title := urls_title r;
     row_last_visit :=
       FromDoubleT (chromeTimeToDouble (ColumnInt64 (urls_last_visit_time r)));
     row_hidden := false;
     row_typed_count := ColumnInt (urls_typed_count r);
     row_visit_count := ColumnInt (urls_visit_count r) |}.

Definition history_loop (s : list urls_row) (rows : list ImporterURLRow)
  : M (list ImporterURLRow) :=
  while_Step (fun rows r => rows ++ [history_row r]) s rows.

(** [... FROM urls WHERE hidden = 0] *)
Definition history_query (urls : list urls_row) : list urls_row :=
  filter (fun r => urls_hidden r = 0) urls.

Definition ImportHistory (p : SourceProfile) : M unit :=
  match History p with
  | Absent => ret tt
  | Unopenable => ret tt
  | Opened urls =>
      do rows <- history_loop (history_query urls) [];
      match rows with
      | [] => ret tt
      | _ :: _ =>
          do c <- cancelled;
          if c then ret tt
          else emit (SetHistoryItems rows VISIT_SOURCE_CHROME_IMPORTED)
      end
  end.

(** *** [ImportCookies] *)

Definition cookie_entry (r : cookies_row) : ImportedCookieEntry :=
  {| cookie_domain := host_key r;
     cookie_name := name r;
     cookie_value := value r;
     cookie_host := "*" +:+ host_key r;
     cookie_path := path r;
     cookie_expiry_date :=
       FromDoubleT (chromeTimeToDouble (ColumnInt64 (expires_utc r)));
     cookie_secure := ColumnBool (secure r);
     cookie_httponly := ColumnBool (httponly r) |}.

Definition cookies_loop (s : list cookies_row) (cookies : list ImportedCookieEntry)
  : M (list ImportedCookieEntry) :=
  while_Step (fun cookies r => cookies ++ [cookie_entry r]) s cookies.

(** [... FROM cookies WHERE length(encrypted_value) = 0] *)
Definition cookies_query (cookies : list cookies_row) : list cookies_row :=
  filter (fun r => length (encrypted_value r) = 0%nat) cookies.

Definition ImportCookies (p : SourceProfile) : M unit :=
  match Cookies p with
  | Absent => ret tt
  | Unopenable => ret tt
  | Opened table =>
      do cookies <- cookies_loop (cookies_query table) [];
      match cookies with
      | [] => ret tt
      | _ :: _ =>
          do c <- cancelled;
          if c then ret tt else emit (SetCookies cookies)
      end
  end.

(** *** [RecursiveReadBookmarksFolder] *)

(** The body of [for (const auto& value : *children)] (lines 382-416),
    with the recursive call as a parameter.  [bookmarks] is the vector
    the entries are pushed to; [std::stoll] is evaluated before the
    entry is pushed. *)
Definition visit_children
    (rec : Value -> list string -> bool -> list ImportedBookmarkEntry ->
           Result (list ImportedBookmarkEntry))
    (parent_path : list string) (is_in_toolbar : bool)
  : list Value -> list ImportedBookmarkEntry -> Result (list ImportedBookmarkEntry) :=
  fix go children bookmarks :=
    match children with
    | [] => Ok bookmarks
    | value :: rest =>
        match GetAsDictionary value with
        | None => go rest bookmarks
        | Some _ =>
            let date_added := GetString "date_added" value in
            let name := GetString "name" value in
            let type := GetString "type" value in
            let url := GetString "url" value in
            if String.eqb type "folder" then
              try t <- stoll date_added;
              let entry :=
                {| in_toolbar := is_in_toolbar;
                   is_folder := true;
                   entry_url := GURL_empty;
                   entry_path := parent_path;
                   entry_title := name;
                   creation_time := FromDoubleT (chromeTimeToDouble t) |} in
              try bookmarks' <-
                rec value (parent_path ++ [name]) false (bookmarks ++ [entry]);
              go rest bookmarks'
            else if String.eqb type "url" then
              try t <- stoll date_added;
              let entry :=
                {| in_toolbar := is_in_toolbar;
                   is_folder := false;
                   entry_url := GURL_of url;
                   entry_path := parent_path;
                   entry_title := name;
                   creation_time := FromDoubleT (chromeTimeToDouble t) |} in
              go rest (bookmarks ++ [entry])
            else go rest bookmarks
        end
    end.

(** [if (folder->GetList("children", &children)) for ...].  The lookup is
    written with [WithKey] so that the recursion is structural; lemma
    [RecursiveReadBookmarksFolder_eq] gives the equation in terms of
    [GetList]. *)
Fixpoint RecursiveReadBookmarksFolder
    (folder : Value) (parent_path : list string) (is_in_toolbar : bool)
    (bookmarks : list ImportedBookmarkEntry) {struct folder}
  : Result (list ImportedBookmarkEntry) :=
  match folder with
  | DICTIONARY members =>
      WithKey "children"
        (fun v =>
           match v with
           | LIST children =>
               visit_children RecursiveReadBookmarksFolder
                 parent_path is_in_toolbar children bookmarks
           | _ => Ok bookmarks
           end)
        (Ok bookmarks) members
  | _ => Ok bookmarks
  end.

(** *** Favicons: [ImportFaviconURLs] and [LoadFaviconData] *)

(** Modelled from the spec: [FaviconMap] is declared in chrome_importer.h,
    which is not among the sources.  The spec (4.4) has pass 1 produce "a
    mapping from icon-id to the set of page URLs referencing it", in which
    "duplicate URLs for the same icon are deduplicated by set semantics",
    and has pass 2 visit "each icon-id in that mapping (iteration order =
    insertion order of pass 1)".  The source uses the type through
    [operator[]], [insert], [empty] and a [const_iterator]: it is the list
    of the entries (icon id, set of pages), one per icon id, in the order
    in which the ids were first inserted. *)
Definition FaviconMap : Type := list (Z * gset GURL).

(** Modelled from the spec: [operator[]] followed by [insert] on that
    type, as the loop of pass 1 calls them.  The set stored at [icon_id]
    receives [url]; when the key is new [operator[]] creates it with the
    empty set, and the new entry comes last in the iteration. *)
Fixpoint favicon_map_insert (icon_id : Z) (url : GURL) (favicon_map : FaviconMap)
  : FaviconMap :=
  match favicon_map with
  | [] => [(icon_id, ∅ ∪ {[url]})]
  | i :: rest =>
      if i.1 =? icon_id then (i.1, i.2 ∪ {[url]}) :: rest
      else i :: favicon_map_insert icon_id url rest
  end.

(** The body of the loop of [ImportFaviconURLs] (lines 197-199). *)
Definition icon_mapping_row (favicon_map : FaviconMap) (r : Z * string)
  : FaviconMap :=
  favicon_map_insert (ColumnInt64 r.1) (GURL_of r.2) favicon_map.

Definition ImportFaviconURLs (db : favicons_db)
    (favicon_map : FaviconMap) : M FaviconMap :=
  while_Step icon_mapping_row (icon_mapping db) favicon_map.

(** [SELECT url FROM favicons WHERE id = ?] followed by [s.Step()]: the
    url cell of the first row with that id, if there is one. *)
Definition favicon_row (db : favicons_db) (id : Z) : option string :=
  snd <$> List.find (fun r => fst r =? id) (favicons db).

(** One iteration of the loop of [LoadFaviconData] (lines 214-239): the
    usage pushed for this icon, or nothing.  [s.ColumnBlobAsVector(0)]
    reads the bytes of the same url cell. *)
Definition load_favicon (db : favicons_db) (icon_id : Z) (urls : gset GURL)
  : option FaviconUsageData :=
  match favicon_row db icon_id with
  | Some cell =>
      let url := GURL_of cell in
      if is_valid url then
        if SchemeIs_data url then
          match list_byte_of_string cell with
          | [] => None
          | data =>
              match ReencodeFavicon data with
              | Some png =>
                  Some {| favicon_url := GURL_empty; png_data := png;
                          usage_urls := urls |}
              | None => None
              end
          end
        else Some {| favicon_url := url; png_data := []; usage_urls := urls |}
      else None
  | None => None
  end.

Definition LoadFaviconData (db : favicons_db) (favicon_map : FaviconMap)
    (favicons : list FaviconUsageData) : list FaviconUsageData :=
  fold_left
    (fun favicons i =>
       match load_favicon db i.1 i.2 with
       | Some usage => favicons ++ [usage]
       | None => favicons
       end)
    favicon_map favicons.

(** *** [ImportBookmarks] *)

(** Lines 138-161: the entries read from the two roots. *)
Definition ReadBookmarkRoots (bookmark_dict : Value)
  : Result (list ImportedBookmarkEntry) :=
  match GetDictionary "roots" bookmark_dict with
  | Some roots =>
      try bookmarks <-
        match GetDictionary "bookmark_bar" roots with
        | Some bookmark_bar =>
            RecursiveReadBookmarksFolder bookmark_bar
              [GetString "name" bookmark_bar] true []
        | None => Ok []
        end;
      match GetDictionary "other" roots with
      | Some other =>
          RecursiveReadBookmarksFolder other [GetString "name" other] false bookmarks
      | None => Ok bookmarks
      end
  | None => Ok []
  end.

(** Lines 169-187: the favicon phase. *)
Definition ImportFavicons (p : SourceProfile) : M unit :=
  match Favicons p with
  | Absent => ret tt
  | Unopenable => ret tt
  | Opened db =>
      do favicon_map <- ImportFaviconURLs db [];
      if decide (favicon_map = []) then ret tt
      else
        do c <- cancelled;
        if c then ret tt
        else emit (SetFavicons (LoadFaviconData db favicon_map []))
  end.

Definition ImportBookmarks (p : SourceProfile) : M unit :=
  let bookmarks_content := default "" (Bookmarks p) in
  match JSONReader_Read bookmarks_content with
  | Some (DICTIONARY members) =>
      do bookmarks <- lift (ReadBookmarkRoots (DICTIONARY members));
      run match bookmarks with
          | [] => ret tt
          | _ :: _ =>
              do c <- cancelled;
              if c then ret tt
              else emit (AddBookmarks bookmarks "Imported from Chrome")
          end;
      ImportFavicons p
  | _ => ret tt
  end.

(** *** [ImportPasswords] *)

(** [for (int i = 0; i < forms.size(); ++i) bridge_->SetPasswordForm(...)] *)
Fixpoint forward_forms (forms : list PasswordForm) : M unit :=
  match forms with
  | [] => ret tt
  | form :: rest => run emit (SetPasswordForm form); forward_forms rest
  end.

(** The two retrievals and their loops; the source has this block once for
    [LoginDatabase] (lines 295-308) and once for the native backend (lines
    357-370). *)
Definition forward_logins (backend : LoginStore) : M unit :=
  run match GetAutofillableLogins backend with
      | Some forms => forward_forms forms
      | None => ret tt
      end;
  match GetBlacklistLogins backend with
  | Some blacklist => forward_forms blacklist
  | None => ret tt
  end.

(** Lines 329-355: the backend chosen on X11 for a profile id. *)
Definition select_native_backend (host : Host) (local_profile_id : Z)
  : option LoginStore :=
  match SelectBackend host with
  | KWALLET =>
      Some (NativeBackendKWallet host local_profile_id DESKTOP_ENVIRONMENT_KDE4)
  | KWALLET5 =>
      Some (NativeBackendKWallet host local_profile_id DESKTOP_ENVIRONMENT_KDE5)
  | GNOME_ANY | GNOME_LIBSECRET =>
      if USE_LIBSECRET host then Some (NativeBackendLibsecret host local_profile_id)
      else None
  | GNOME_KEYRING | DEFER | BASIC_TEXT => None
  end.

Definition ImportPasswords (host : Host) (p : SourceProfile) : M unit :=
  if negb (USE_X11 host) then
    let database := Login_Data p in
    if Init database then forward_logins database else ret tt
  else
    if negb (Preferences_read p) then ret tt
    else
      match Preferences_kLocalProfileId p with
      | None => ret tt
      | Some value =>
          match GetAsInteger value with
          | None => ret tt
          | Some local_profile_id =>
              match select_native_backend host local_profile_id with
              | Some backend =>
                  if Init backend then forward_logins backend else ret tt
              | None => ret tt
              end
          end
      end.

(** *** [StartImport] *)

(** [items & importer::X] as a condition; [items] is a [uint16_t]. *)
Definition requested (items : Z) (item : ImportItem) : bool :=
  negb (Z.land items (ImportItem_bit item) =? 0).

(** One of the four blocks of [StartImport]:
    [if ((items & X) && !cancelled()) { NotifyItemStarted(X); body;
    NotifyItemEnded(X); }].  The flag is polled only when the item is
    requested. *)
Definition import_item (items : Z) (item : ImportItem) (body : M unit) : M unit :=
  if requested items item then
    do c <- cancelled;
    if c then ret tt
    else
      run emit (NotifyItemStarted item);
      run body;
      emit (NotifyItemEnded item)
  else ret tt.

Definition StartImport (host : Host) (source_profile : SourceProfile) (items : Z)
  : M unit :=
  run emit NotifyStarted;
  run import_item items HISTORY (ImportHistory source_profile);
  run import_item items FAVORITES (ImportBookmarks source_profile);
  run import_item items COOKIES (ImportCookies source_profile);
  run import_item items PASSWORDS (ImportPasswords host source_profile);
  emit NotifyEnded.

End Importer.

(** ** Notions used in the statements *)

(** The host sets the flag and never clears it. *)
Definition flag_stays_set (cancelled_at : nat -> bool) : Prop :=
  forall m n : nat, (m <= n)%nat -> cancelled_at m = true -> cancelled_at n = true.

Definition never_cancelled (cancelled_at : nat -> bool) : Prop :=
  forall n : nat, cancelled_at n = false.

(** The number of rows [while_Step] consumes when it starts at poll [n] on
    a statement with [len] rows: the polls [n], [n+1], ... that see the
    flag clear, up to the first that sees it set. *)
Fixpoint rows_consumed (cancelled_at : nat -> bool) (n len : nat) : nat :=
  match len with
  | O => O
  | S len' =>
      if cancelled_at n then O else S (rows_consumed cancelled_at (S n) len')
  end.

(** The index of the poll that follows such a loop: one poll per consumed
    row, and the stopping poll when there was one. *)
Definition after_loop (cancelled_at : nat -> bool) (n len : nat) : nat :=
  let k := rows_consumed cancelled_at n len in
  if (k <? len)%nat then S (n + k) else (n + k)%nat.

(** The four notifications, as opposed to the calls that deliver data. *)
Definition is_signal `{Chromium} (e : Event) : bool :=
  match e with
  | NotifyStarted | NotifyItemStarted _ | NotifyItemEnded _ | NotifyEnded => true
  | _ => false
  end.

(** The notifications around one item, when it ran. *)
Definition item_signals `{Chromium} (ran : bool) (item : ImportItem) : list Event :=
  if ran then [NotifyItemStarted item; NotifyItemEnded item] else [].

(** The bookmark roots of the profile can be read without an exception. *)
Definition bookmarks_readable `{Chromium} (p : SourceProfile) : Prop :=
  forall members e,
    JSONReader_Read (default "" (Bookmarks p)) = Some (DICTIONARY members) ->
    ReadBookmarkRoots (DICTIONARY members) <> Throw e.

(** A child the walk visits: a dictionary whose type is "folder" or "url". *)
Definition is_bookmark_node (v : Value) : bool :=
  match GetAsDictionary v with
  | Some _ =>
      String.eqb (GetString "type" v) "folder" || String.eqb (GetString "type" v) "url"
  | None => false
  end.

(** The pages that the rows of [icon_mapping] give to an icon. *)
Definition pages_of `{Chromium} (rows : list (Z * string)) (icon_id : Z) : gset GURL :=
  list_to_set ((fun r => GURL_of r.2) <$> filter (fun r => ColumnInt64 r.1 = icon_id) rows).

(** The set that a favicon map holds for an icon id, if it has the id. *)
Fixpoint FaviconMap_find `{Chromium} (icon_id : Z) (favicon_map : FaviconMap)
  : option (gset GURL) :=
  match favicon_map with
  | [] => None
  | i :: rest => if i.1 =? icon_id then Some i.2 else FaviconMap_find icon_id rest
  end.

(** The icon has a row in the mapping table. *)
Definition mapped (db : favicons_db) (icon_id : Z) : Prop :=
  exists r, r ∈ icon_mapping db /\ ColumnInt64 r.1 = icon_id.

(** The favicons table stores [cell] for the icon: its first row with that
    id has [cell] in the url column. *)
Definition stored_at (db : favicons_db) (icon_id : Z) (cell : string) : Prop :=
  exists before after,
    favicons db = before ++ (icon_id, cell) :: after /\
    forall r, r ∈ before -> r.1 <> icon_id.

(** The size of a value, the measure of the induction on bookmark trees. *)
Fixpoint Value_size (v : Value) : nat :=
  match v with
  | DICTIONARY members =>
      S (list_sum (map (fun kv => Value_size (snd kv)) members))
  | LIST items => S (list_sum (map Value_size items))
  | _ => 1%nat
  end.

(** An entry pushed by a walk started on a folder with [parent_path] and
    [is_in_toolbar]: either for a child of that folder, carrying the
    folder's path and the flag, or for a deeper node, with a longer path
    and the flag false. *)
Definition pushed_below `{Chromium} (parent_path : list string) (is_in_toolbar : bool)
    (e : ImportedBookmarkEntry) : Prop :=
  (entry_path e = parent_path /\ in_toolbar e = is_in_toolbar) \/
  (exists more, more <> [] /\ entry_path e = parent_path ++ more /\ in_toolbar e = false).

(** The category a bridge call belongs to; the two notifications of the
    session belong to none. *)
Definition event_item `{Chromium} (e : Event) : option ImportItem :=
  match e with
  | NotifyStarted | NotifyEnded => None
  | NotifyItemStarted item | NotifyItemEnded item => Some item
  | SetHistoryItems _ _ => Some HISTORY
  | AddBookmarks _ _ | SetFavicons _ => Some FAVORITES
  | SetCookies _ => Some COOKIES
  | SetPasswordForm _ => Some PASSWORDS
  end.

(** The Unix epoch in the source convention: microseconds since
    1601-01-01. *)
Definition unix_epoch : Z := 11644473600 * 1000000.

(** A result with a function applied to its value. *)
Definition rmap {A B} (f : A -> B) (r : Result A) : Result B :=
  match r with
  | Ok a => Ok (f a)
  | Throw e => Throw e
  end.

(** ** Example inputs *)

Module Example.

(** bookmark_bar > "Work" > "Rocq" *)
Definition leaf : Value :=
  DICTIONARY [("date_added", STRING "13000000000000001");
              ("name", STRING "Rocq");
              ("type", STRING "url");
              ("url", STRING "https://rocq-prover.org/")].

Definition sub_folder : Value :=
  DICTIONARY [("children", LIST [leaf]);
              ("date_added", STRING "13000000000000000");
              ("name", STRING "Work");
              ("type", STRING "folder")].

Definition bookmark_bar : Value :=
  DICTIONARY [("children", LIST [sub_folder]);
              ("date_added", STRING "12879119098092474");
              ("name", STRING "Bookmarks bar");
              ("type", STRING "folder")].

Definition nested_document : Value :=
  DICTIONARY [("roots", DICTIONARY [("bookmark_bar", bookmark_bar)]);
              ("version", INTEGER 1)].

(** A url node whose date is not a number, followed by a well-formed one. *)
Definition misdated : Value :=
  DICTIONARY [("date_added", STRING "yesterday");
              ("name", STRING "Misdated");
              ("type", STRING "url");
              ("url", STRING "https://example.org/")].

Definition misdated_bar : Value :=
  DICTIONARY [("children", LIST [misdated; leaf]);
              ("name", STRING "Bookmarks bar");
              ("type", STRING "folder")].

Definition misdated_document : Value :=
  DICTIONARY [("roots", DICTIONARY [("bookmark_bar", misdated_bar)])].

(** The JSON reader of the examples knows these files by name. *)
Definition documents : list (string * Value) :=
  [("nested.json", nested_document);
   ("misdated.json", misdated_document);
   ("empty-object.json", DICTIONARY []);
   ("array.json", LIST [])].

Definition chromium : Chromium :=
  {| GURL := string;
     GURL_of := fun s => s;
     GURL_empty := "";
     is_valid := fun s => String.prefix "http" s || String.prefix "data:" s;
     SchemeIs_data := fun s => String.prefix "data:" s;
     ReencodeFavicon := fun data => if (16 <=? length data)%nat then Some data else None;
     JSONReader_Read := fun text => FindKey text documents;
     JSONReader_Read_empty := eq_refl;
     PasswordForm := string;
     ImportItem_bit := fun item =>
       match item with
       | HISTORY => 1 | FAVORITES => 2 | COOKIES => 4 | PASSWORDS => 8
       end |}.

#[local] Existing Instance chromium.

Definition no_logins : @LoginStore chromium :=
  {| Init := false; GetAutofillableLogins := None; GetBlacklistLogins := None |}.

Definition host : @Host chromium :=
  {| USE_X11 := false; USE_LIBSECRET := false; SelectBackend := DEFER;
     NativeBackendKWallet := fun _ _ => no_logins;
     NativeBackendLibsecret := fun _ => no_logins |}.

Definition visited (u : string) (hidden : Z) : urls_row :=
  {| urls_url := u; urls_title := u; urls_last_visit_time := 12879119098092474;
     urls_typed_count := 1; urls_visit_count := 2; urls_hidden := hidden |}.

Definition plain_cookie : cookies_row :=
  {| host_key := ".example.org"; name := "lang"; value := "en"; path := "/";
     expires_utc := 13000000000000000; secure := 0; httponly := 1;
     encrypted_value := [] |}.

Definition theme_cookie : cookies_row :=
  {| host_key := "www.example.org"; name := "theme"; value := "dark"; path := "/";
     expires_utc := 13000000000000000; secure := 0; httponly := 0;
     encrypted_value := [] |}.

Definition encrypted_cookie : cookies_row :=
  {| host_key := ".example.org"; name := "sid"; value := ""; path := "/";
     expires_utc := 13000000000000000; secure := 1; httponly := 1;
     encrypted_value := [x76; x31; x30; xa7] |}.

(** Two pages share icon 7, whose stored url is remote; icon 9 holds a
    data url the codec rejects; icon 11 has no valid url. *)
Definition icons : favicons_db :=
  {| icon_mapping := [(7, "https://example.org/a"); (9, "https://example.org/c");
                      (7, "https://example.org/b"); (11, "https://example.org/d");
                      (7, "https://example.org/a")];
     favicons := [(7, "https://example.org/favicon.ico"); (9, "data:,"); (11, "")] |}.

(** Icon 1 has no valid url; two pages share icon 2, one of them listed
    twice; icon 3 serves one page.  Icons 2 and 3 are stored after icon 1
    and their urls are remote. *)
Definition mixed_icons : favicons_db :=
  {| icon_mapping := [(1, "https://example.org/p"); (2, "https://example.org/a");
                      (3, "https://example.org/c"); (2, "https://example.org/b");
                      (2, "https://example.org/a")];
     favicons := [(1, ""); (2, "https://example.org/two.ico");
                  (3, "https://example.org/three.ico")] |}.

(** The same tables with the rows of the mapping in another order. *)
Definition mixed_icons_reordered : favicons_db :=
  {| icon_mapping := [(3, "https://example.org/c"); (2, "https://example.org/b");
                      (2, "https://example.org/a"); (1, "https://example.org/p")];
     favicons := favicons mixed_icons |}.

(** Two pages share icon 7; one of them is listed twice. *)
Definition shared_icon : favicons_db :=
  {| icon_mapping := [(7, "https://example.org/a"); (7, "https://example.org/b");
                      (7, "https://example.org/a")];
     favicons := [(7, "https://example.org/favicon.ico")] |}.

Definition profile : @SourceProfile chromium :=
  {| History := Opened [visited "https://a.example/" 0; visited "https://secret.example/" 1;
                        visited "https://b.example/" 0; visited "https://c.example/" 0];
     Bookmarks := Some "nested.json";
     Favicons := Opened icons;
     Cookies := Opened [plain_cookie; encrypted_cookie; theme_cookie];
     Login_Data := {| Init := true;
                      GetAutofillableLogins := Some ["alice"; "bob"] : option (list PasswordForm);
                      GetBlacklistLogins := None |};
     Preferences_read := false;
     Preferences_kLocalProfileId := None |}.

Definition with_bookmarks (file : option string) (p : @SourceProfile chromium)
  : @SourceProfile chromium :=
  {| History := History p; Bookmarks := file; Favicons := Favicons p;
     Cookies := Cookies p; Login_Data := Login_Data p;
     Preferences_read := Preferences_read p;
     Preferences_kLocalProfileId := Preferences_kLocalProfileId p |}.

(** The flag is set between the first and the second poll. *)
Definition set_after_first_poll (n : nat) : bool := (1 <=? n)%nat.

Definition never (n : nat) : bool := false.

(** The flag is set between poll [k - 1] and poll [k]. *)
Definition set_from (k n : nat) : bool := (k <=? n)%nat.

(** A profile directory without any of the files, and a login database
    that does not initialise. *)
Definition empty_profile : @SourceProfile chromium :=
  {| History := Absent; Bookmarks := None; Favicons := Absent; Cookies := Absent;
     Login_Data := no_logins;
     Preferences_read := false;
     Preferences_kLocalProfileId := None |}.

(** A page mapped to an icon whose data url the codec rejects, and a page
    mapped to an icon that has no row. *)
Definition unresolved_icons : favicons_db :=
  {| icon_mapping := [(9, "https://example.org/c"); (12, "https://example.org/e")];
     favicons := [(9, "data:,")] |}.

Definition with_favicons (db : DbFile favicons_db) (p : @SourceProfile chromium)
  : @SourceProfile chromium :=
  {| History := History p; Bookmarks := Bookmarks p; Favicons := db;
     Cookies := Cookies p; Login_Data := Login_Data p;
     Preferences_read := Preferences_read p;
     Preferences_kLocalProfileId := Preferences_kLocalProfileId p |}.

(** A profile whose preferences give the local profile id 1. *)
Definition x11_profile : @SourceProfile chromium :=
  {| History := Absent; Bookmarks := None; Favicons := Absent; Cookies := Absent;
     Login_Data := Login_Data profile;
     Preferences_read := true;
     Preferences_kLocalProfileId := Some (INTEGER 1) |}.

(** An X11 host whose selected backend is the GNOME keyring. *)
Definition keyring_host : @Host chromium :=
  {| USE_X11 := true; USE_LIBSECRET := true; SelectBackend := GNOME_KEYRING;
     NativeBackendKWallet := fun _ _ => Login_Data profile;
     NativeBackendLibsecret := fun _ => Login_Data profile |}.

End Example.

(** * Properties *)

(** ** TimeCodec *)

Lemma wrap64_in_range (z : Z) : in_int64 z -> wrap64 z = z.
Proof.
  unfold in_int64, LLONG_MIN, LLONG_MAX, wrap64, wrap. intros Hz.
  change (2 ^ (64 - 1)) with 9223372036854775808.
  change (2 ^ 64) with 18446744073709551616.
  change (2 ^ 63) with 9223372036854775808 in Hz.
  rewrite Z.mod_small by lia. lia.
Qed.

Lemma wrap64_bounds (z : Z) : in_int64 (wrap64 z).
Proof.
  unfold in_int64, LLONG_MIN, LLONG_MAX, wrap64, wrap.
  change (2 ^ (64 - 1)) with 9223372036854775808.
  change (2 ^ 64) with 18446744073709551616.
  change (2 ^ 63) with 9223372036854775808.
  pose proof (Z.mod_pos_bound (z + 9223372036854775808) 18446744073709551616).
  lia.
Qed.

(** The hexadecimal constant of the source is the epoch difference
    11644473600 s in units of 100 ns. *)
Lemma epoch_constant : 0x19DB1DED53E8000 = 11644473600 * 10 ^ 7.
Proof. reflexivity. Qed.

(** Dividing by 10000 and then by 1000 truncates as one division by 10^7. *)
Lemma chromeTimeToDouble_single_quot (time : Z) :
  chromeTimeToDouble time =
  Z.quot (wrap64 (wrap64 (time * 10) - 0x19DB1DED53E8000)) (10 ^ 7).
Proof.
  unfold chromeTimeToDouble. rewrite Z.quot_quot by lia. reflexivity.
Qed.

(** The result is an integer below 2^53 in magnitude: the implicit
    conversion to [double] is exact. *)
Lemma chromeTimeToDouble_exact_double (time : Z) :
  Z.abs (chromeTimeToDouble time) < 2 ^ 53.
Proof.
  rewrite chromeTimeToDouble_single_quot.
  pose proof (wrap64_bounds (wrap64 (time * 10) - 0x19DB1DED53E8000)) as Hb.
  unfold in_int64, LLONG_MIN, LLONG_MAX in Hb.
  set (x := wrap64 _) in *.
  change (2 ^ 63) with 9223372036854775808 in Hb.
  change (2 ^ 53) with 9007199254740992.
  change (10 ^ 7) with 10000000.
  rewrite <- (Z.quot_abs x 10000000) by lia.
  change (Z.abs 10000000) with 10000000.
  rewrite Z.quot_div_nonneg by lia.
  apply Z.div_lt_upper_bound; lia.
Qed.

Lemma chromeTimeToDouble_no_overflow (time : Z) :
  no_overflow time ->
  chromeTimeToDouble time =
  Z.quot (Z.quot (time * 10 - 11644473600 * 10 ^ 7) 10000) 1000.
Proof.
  unfold no_overflow, LLONG_MIN, LLONG_MAX. intros Ht.
  change (2 ^ 63) with 9223372036854775808 in Ht.
  unfold chromeTimeToDouble. rewrite <- epoch_constant.
  rewrite (wrap64_in_range (time * 10)).
  - rewrite wrap64_in_range; [reflexivity|].
    unfold in_int64, LLONG_MIN, LLONG_MAX.
    change (2 ^ 63) with 9223372036854775808. lia.
  - unfold in_int64, LLONG_MIN, LLONG_MAX.
    change (2 ^ 63) with 9223372036854775808. lia.
Qed.

(** C3. For every source timestamp [t] the conversion returns
    ((t * 10 - 11644473600*10^7) / 10000) / 1000 in the integer arithmetic
    of the code: 64-bit with truncating division for every [t], which is
    the same expression over the integers whenever [t * 10] and the
    difference fit in 64 bits; the value is below 2^53 in magnitude, so
    returning it as a [double] changes nothing.  The fixture
    12879119098092474 maps to
    1234645498 s after the Unix epoch, that is 2009-02-14 21:04:58 UTC, and
    converting an encoded Unix time gives it back on that domain. *)
Theorem chromeTimeToDouble_formula (t : Z) :
  chromeTimeToDouble t =
    Z.quot (Z.quot (wrap64 (wrap64 (t * 10) - 11644473600 * 10 ^ 7)) 10000) 1000
  /\ (no_overflow t ->
      chromeTimeToDouble t =
        Z.quot (Z.quot (t * 10 - 11644473600 * 10 ^ 7) 10000) 1000)
  /\ (no_overflow (spec_encode t) -> chromeTimeToDouble (spec_encode t) = t)
  /\ Z.abs (chromeTimeToDouble t) < 2 ^ 53
  /\ chromeTimeToDouble 12879119098092474 = 1234645498
  /\ civil_from_days (1234645498 / 86400) = (2009, 2, 14)
  /\ 1234645498 mod 86400 = 21 * 3600 + 4 * 60 + 58.
Proof.
  split; [reflexivity|].
  split; [apply chromeTimeToDouble_no_overflow|].
  split; [|split; [apply chromeTimeToDouble_exact_double | repeat split; reflexivity]].
  intros Hd. rewrite chromeTimeToDouble_no_overflow by exact Hd.
  unfold spec_encode. rewrite Z.quot_quot by lia.
  replace ((t + 11644473600) * 1000000 * 10 - 11644473600 * 10 ^ 7)
    with (t * (10000 * 1000)) by (change (10 ^ 7) with 10000000; lia).
  apply Z.quot_mul. lia.
Qed.

Lemma chromeTimeToDouble_formula_witness :
  no_overflow 12879119098092474 /\
  chromeTimeToDouble 12879119098092474 =
    Z.quot (Z.quot (12879119098092474 * 10 - 11644473600 * 10 ^ 7) 10000) 1000 /\
  no_overflow (spec_encode 1234645498) /\
  chromeTimeToDouble (spec_encode 1234645498) = 1234645498.
Proof.
  assert (Hfixture : no_overflow 12879119098092474).
  { unfold no_overflow, LLONG_MIN, LLONG_MAX. split; vm_compute; discriminate. }
  assert (Hencoded : no_overflow (spec_encode 1234645498)).
  { unfold no_overflow, LLONG_MIN, LLONG_MAX. split; vm_compute; discriminate. }
  split; [exact Hfixture|].
  split; [exact (proj1 (proj2 (chromeTimeToDouble_formula 12879119098092474)) Hfixture)|].
  split; [exact Hencoded|].
  exact (proj1 (proj2 (proj2 (chromeTimeToDouble_formula 1234645498))) Hencoded).
Defined.

(** ** The importer monad and the row loop *)

Section RowLoop.
Context `{Chromium}.
Variable cancelled_at : nat -> bool.

Lemma fold_left_push {R A} (f : R -> A) (s : list R) (acc : list A) :
  fold_left (fun acc r => acc ++ [f r]) s acc = acc ++ (f <$> s).
Proof.
  revert acc. induction s as [|r s IH]; intros acc; simpl.
  - now rewrite app_nil_r.
  - rewrite IH, <- app_assoc. reflexivity.
Qed.

(** The polls before the stopping one saw the flag clear. *)
Lemma rows_consumed_clear (n len j : nat) :
  (j < rows_consumed cancelled_at n len)%nat -> cancelled_at (n + j) = false.
Proof.
  revert n j. induction len as [|len IH]; intros n j; simpl; [lia|].
  destruct (cancelled_at n) eqn:Hn; [lia|]. intros Hj.
  destruct j as [|j]; [now rewrite Nat.add_0_r|].
  replace (n + S j)%nat with (S n + j)%nat by lia. apply IH. lia.
Qed.

(** When the loop stops early, the stopping poll saw the flag set. *)
Lemma rows_consumed_stop (n len : nat) :
  (rows_consumed cancelled_at n len < len)%nat ->
  cancelled_at (n + rows_consumed cancelled_at n len) = true.
Proof.
  revert n. induction len as [|len IH]; intros n; simpl; [lia|].
  destruct (cancelled_at n) eqn:Hn; [now rewrite Nat.add_0_r|].
  intros Hk. replace (n + S (rows_consumed cancelled_at (S n) len))%nat
    with (S n + rows_consumed cancelled_at (S n) len)%nat by lia.
  apply IH. lia.
Qed.

(** A poll of the iteration that sees the flag set stops the loop there
    or earlier. *)
Lemma rows_consumed_upto (n len j : nat) :
  cancelled_at (n + j) = true -> (rows_consumed cancelled_at n len <= j)%nat.
Proof.
  intros Hj. destruct (Nat.le_gt_cases (rows_consumed cancelled_at n len) j) as [|Hlt];
    [assumption|].
  apply rows_consumed_clear in Hlt. congruence.
Qed.

Lemma rows_consumed_never (n len : nat) :
  never_cancelled cancelled_at -> rows_consumed cancelled_at n len = len.
Proof.
  intros Hnever. revert n. induction len as [|len IH]; intros n; simpl; [reflexivity|].
  rewrite Hnever, IH. reflexivity.
Qed.

(** What [while_Step] does: it folds the body over the rows consumed,
    makes no call on the bridge, and has polled once per consumed row plus
    once more when a poll stopped it. *)
Lemma while_Step_run {R A} (body : A -> R -> A) (s : list R) (acc : A) (n : nat) :
  let k := rows_consumed cancelled_at n (length s) in
  while_Step cancelled_at body s acc n =
  {| res := Ok (fold_left body (take k s) acc);
     clock := after_loop cancelled_at n (length s);
     out := [] |}.
Proof.
  unfold after_loop.
  revert acc n. induction s as [|r s IH]; intros acc n; simpl.
  - unfold ret. now rewrite Nat.add_0_r.
  - unfold bind, cancelled; simpl. destruct (cancelled_at n) eqn:Hn; simpl.
    + unfold ret. now rewrite Nat.add_0_r.
    + rewrite IH. simpl.
      change (S (rows_consumed cancelled_at (S n) (length s)) <? S (length s))%nat
        with (rows_consumed cancelled_at (S n) (length s) <? length s)%nat.
      rewrite <- !plus_n_Sm. reflexivity.
Qed.

End RowLoop.

(** ** The row-consuming imports: history and cookies *)

Section RowImports.
Context `{Chromium}.
Variable cancelled_at : nat -> bool.

Lemma ImportHistory_run (p : SourceProfile) (n : nat) (urls : list urls_row) :
  History p = Opened urls ->
  let s := history_query urls in
  let rows := history_row <$> take (rows_consumed cancelled_at n (length s)) s in
  res (ImportHistory cancelled_at p n) = Ok tt /\
  out (ImportHistory cancelled_at p n) =
    match rows with
    | [] => []
    | _ :: _ =>
        if cancelled_at (after_loop cancelled_at n (length s)) then []
        else [SetHistoryItems rows VISIT_SOURCE_CHROME_IMPORTED]
    end.
Proof.
  intros Hp. unfold ImportHistory, history_loop. rewrite Hp.
  unfold bind. rewrite while_Step_run. cbn [res clock out].
  rewrite fold_left_push. cbn [app].
  destruct (history_row <$> _) as [|e rows]; [split; reflexivity|].
  unfold cancelled; cbn [res clock out].
  destruct (cancelled_at _); split; reflexivity.
Qed.

Lemma ImportCookies_run (p : SourceProfile) (n : nat) (table : list cookies_row) :
  Cookies p = Opened table ->
  let s := cookies_query table in
  let cookies := cookie_entry <$> take (rows_consumed cancelled_at n (length s)) s in
  res (ImportCookies cancelled_at p n) = Ok tt /\
  out (ImportCookies cancelled_at p n) =
    match cookies with
    | [] => []
    | _ :: _ =>
        if cancelled_at (after_loop cancelled_at n (length s)) then [] else [SetCookies cookies]
    end.
Proof.
  intros Hp. unfold ImportCookies, cookies_loop. rewrite Hp.
  unfold bind. rewrite while_Step_run. cbn [res clock out].
  rewrite fold_left_push. cbn [app].
  destruct (cookie_entry <$> _) as [|e cookies]; [split; reflexivity|].
  unfold cancelled; cbn [res clock out].
  destruct (cancelled_at _); split; reflexivity.
Qed.

(** A loop stopped by the flag is followed by a poll that sees it set. *)
Lemma stopped_then_set (n len j : nat) :
  flag_stays_set cancelled_at ->
  (j < len)%nat -> cancelled_at (n + j) = true ->
  cancelled_at (after_loop cancelled_at n len) = true.
Proof.
  intros Hmono Hj Hset.
  pose proof (rows_consumed_upto cancelled_at n len j Hset) as Hk.
  assert (Hlt : (rows_consumed cancelled_at n len < len)%nat) by lia.
  unfold after_loop. apply Nat.ltb_lt in Hlt as Hb. rewrite Hb.
  apply (Hmono (n + rows_consumed cancelled_at n len)%nat); [lia|].
  now apply rows_consumed_stop.
Qed.

Lemma consumed_from_query {R A} (P : R -> Prop) `{!forall r, Decision (P r)}
    (f : R -> A) (table : list R) (k : nat) (e : A) :
  e ∈ f <$> take k (filter P table) ->
  exists r, r ∈ table /\ P r /\ e = f r.
Proof.
  intros He. apply list_elem_of_fmap in He as (r & -> & Hr).
  apply elem_of_take in Hr as (i & Hi & _).
  apply list_elem_of_lookup_2, list_elem_of_filter in Hi as [HP Hin].
  exists r. auto.
Qed.

Lemma query_idemp {R} (P : R -> Prop) `{!forall r, Decision (P r)} (table : list R) :
  filter P (filter P table) = filter P table.
Proof. now apply list_filter_filter_l. Qed.

(** What [ImportHistory] hands to the bridge is a prefix of the visible
    rows of the table, in order. *)
Lemma ImportHistory_delivers (p : SourceProfile) (n : nat)
    (rows : list ImporterURLRow) (src : VisitSource) :
  SetHistoryItems rows src ∈ out (ImportHistory cancelled_at p n) ->
  exists urls k,
    History p = Opened urls /\
    rows = history_row <$> take k (history_query urls).
Proof.
  intros Hin. destruct (History p) as [| |urls] eqn:Hp;
    try (unfold ImportHistory in Hin; rewrite Hp in Hin; now apply elem_of_nil in Hin).
  destruct (ImportHistory_run p n urls Hp) as [_ Hout]. rewrite Hout in Hin.
  exists urls, (rows_consumed cancelled_at n (length (history_query urls))).
  split; [reflexivity|].
  destruct (history_row <$> _) as [|e l]; [now apply elem_of_nil in Hin|].
  destruct (cancelled_at _); [now apply elem_of_nil in Hin|].
  apply list_elem_of_singleton in Hin. congruence.
Qed.

Lemma ImportCookies_delivers (p : SourceProfile) (n : nat)
    (cookies : list ImportedCookieEntry) :
  SetCookies cookies ∈ out (ImportCookies cancelled_at p n) ->
  exists table k,
    Cookies p = Opened table /\
    cookies = cookie_entry <$> take k (cookies_query table).
Proof.
  intros Hin. destruct (Cookies p) as [| |table] eqn:Hp;
    try (unfold ImportCookies in Hin; rewrite Hp in Hin; now apply elem_of_nil in Hin).
  destruct (ImportCookies_run p n table Hp) as [_ Hout]. rewrite Hout in Hin.
  exists table, (rows_consumed cancelled_at n (length (cookies_query table))).
  split; [reflexivity|].
  destruct (cookie_entry <$> _) as [|e l]; [now apply elem_of_nil in Hin|].
  destruct (cancelled_at _); [now apply elem_of_nil in Hin|].
  apply list_elem_of_singleton in Hin. congruence.
Qed.

(** C2, as amended.  When the flag is set during the iteration of a
    row-consuming import (history or cookies) and stays set, the loop stops,
    the remaining rows are not read and nothing is delivered to the bridge:
    the import hands over either every row of its query or none. *)
Theorem cancelled_rows_not_delivered (p : SourceProfile) (n : nat) :
  flag_stays_set cancelled_at ->
  (forall urls j,
      History p = Opened urls ->
      (j < length (history_query urls))%nat -> cancelled_at (n + j) = true ->
      out (ImportHistory cancelled_at p n) = [])
  /\ (forall table j,
      Cookies p = Opened table ->
      (j < length (cookies_query table))%nat -> cancelled_at (n + j) = true ->
      out (ImportCookies cancelled_at p n) = [])
  /\ (out (ImportHistory cancelled_at p n) = [] \/
      exists urls,
        History p = Opened urls /\
        out (ImportHistory cancelled_at p n) =
          [SetHistoryItems (history_row <$> history_query urls)
             VISIT_SOURCE_CHROME_IMPORTED])
  /\ (out (ImportCookies cancelled_at p n) = [] \/
      exists table,
        Cookies p = Opened table /\
        out (ImportCookies cancelled_at p n) =
          [SetCookies (cookie_entry <$> cookies_query table)]).
Proof.
  intros Hmono. split; [|split; [|split]].
  - intros urls j Hp Hj Hset.
    destruct (ImportHistory_run p n urls Hp) as [_ ->].
    rewrite (stopped_then_set n _ j Hmono Hj Hset).
    now destruct (history_row <$> _).
  - intros table j Hp Hj Hset.
    destruct (ImportCookies_run p n table Hp) as [_ ->].
    rewrite (stopped_then_set n _ j Hmono Hj Hset).
    now destruct (cookie_entry <$> _).
  - destruct (History p) as [| |urls] eqn:Hp;
      try (left; unfold ImportHistory; now rewrite Hp).
    destruct (ImportHistory_run p n urls Hp) as [_ ->].
    set (s := history_query urls).
    destruct (Nat.lt_ge_cases (rows_consumed cancelled_at n (length s)) (length s))
      as [Hlt|Hge].
    + left.
      rewrite (stopped_then_set n _ _ Hmono Hlt
                 (rows_consumed_stop cancelled_at n _ Hlt)).
      now destruct (history_row <$> _).
    + rewrite (take_ge s) by exact Hge.
      destruct (history_row <$> s) as [|e l] eqn:Hrows; [now left|].
      destruct (cancelled_at _); [now left|]. right. exists urls.
      split; [reflexivity | now rewrite <- Hrows].
  - destruct (Cookies p) as [| |table] eqn:Hp;
      try (left; unfold ImportCookies; now rewrite Hp).
    destruct (ImportCookies_run p n table Hp) as [_ ->].
    set (s := cookies_query table).
    destruct (Nat.lt_ge_cases (rows_consumed cancelled_at n (length s)) (length s))
      as [Hlt|Hge].
    + left.
      rewrite (stopped_then_set n _ _ Hmono Hlt
                 (rows_consumed_stop cancelled_at n _ Hlt)).
      now destruct (cookie_entry <$> _).
    + rewrite (take_ge s) by exact Hge.
      destruct (cookie_entry <$> s) as [|e l] eqn:Hrows; [now left|].
      destruct (cancelled_at _); [now left|]. right. exists table.
      split; [reflexivity | now rewrite <- Hrows].
Qed.

(** C9.  A history row whose hidden flag is set never reaches the bridge:
    the query leaves it out, so what is delivered is a prefix of the rows
    built from the source rows with hidden = 0, every delivered record has
    its hidden flag false, a table of hidden rows delivers nothing, and
    removing the hidden rows from the table changes nothing. *)
Theorem hidden_rows_not_imported (p : SourceProfile) (n : nat) :
  (forall rows src,
      SetHistoryItems rows src ∈ out (ImportHistory cancelled_at p n) ->
      exists urls,
        History p = Opened urls /\
        rows `prefix_of` (history_row <$> history_query urls) /\
        forall e, e ∈ rows ->
          row_hidden e = false /\
          exists r, r ∈ urls /\ urls_hidden r = 0 /\ e = history_row r)
  /\ (forall urls,
      History p = Opened urls ->
      (forall r, r ∈ urls -> urls_hidden r <> 0) ->
      out (ImportHistory cancelled_at p n) = [])
  /\ (forall p' urls,
      History p = Opened urls ->
      History p' = Opened (history_query urls) ->
      out (ImportHistory cancelled_at p' n) = out (ImportHistory cancelled_at p n)).
Proof.
  split; [|split].
  - intros rows src Hin.
    apply ImportHistory_delivers in Hin as (urls & k & Hp & ->).
    exists urls. split; [exact Hp|]. split.
    + rewrite fmap_take. apply prefix_take.
    + intros e He.
      apply (consumed_from_query (fun r => urls_hidden r = 0)) in He
        as (r & Hr & Hhidden & ->).
      split; [reflexivity|]. exists r. auto.
  - intros urls Hp Hall.
    destruct (ImportHistory_run p n urls Hp) as [_ ->].
    assert (Hnone : history_query urls = []).
    { apply elem_of_nil_inv. intros r Hr.
      apply list_elem_of_filter in Hr as [Hvisible Hr].
      exact (Hall r Hr Hvisible). }
    rewrite Hnone. reflexivity.
  - intros p' urls Hp Hp'.
    destruct (ImportHistory_run p n urls Hp) as [_ ->].
    destruct (ImportHistory_run p' n _ Hp') as [_ ->].
    unfold history_query. rewrite query_idemp. reflexivity.
Qed.

(** C6.  In the cookie import a row with a non-empty encrypted value never
    reaches the bridge and, when the run is not cancelled, every row with an
    empty one does; every delivered entry has host = "*" + domain, where
    the domain is the host_key of its source row. *)
Theorem plaintext_cookies_only (p : SourceProfile) (n : nat) :
  (forall cookies,
      SetCookies cookies ∈ out (ImportCookies cancelled_at p n) ->
      exists table,
        Cookies p = Opened table /\
        cookies `prefix_of` (cookie_entry <$> cookies_query table) /\
        forall e, e ∈ cookies ->
          cookie_host e = "*" +:+ cookie_domain e /\
          exists r,
            r ∈ table /\ encrypted_value r = [] /\
            e = cookie_entry r /\ cookie_domain e = host_key r)
  /\ (forall table,
      Cookies p = Opened table ->
      (forall r, r ∈ table -> encrypted_value r <> []) ->
      out (ImportCookies cancelled_at p n) = [])
  /\ (forall p' table,
      Cookies p = Opened table ->
      Cookies p' = Opened (cookies_query table) ->
      out (ImportCookies cancelled_at p' n) = out (ImportCookies cancelled_at p n))
  /\ (never_cancelled cancelled_at ->
      forall table r,
        Cookies p = Opened table ->
        r ∈ table -> encrypted_value r = [] ->
        out (ImportCookies cancelled_at p n) =
          [SetCookies (cookie_entry <$> cookies_query table)] /\
        cookie_entry r ∈ cookie_entry <$> cookies_query table).
Proof.
  split; [|split; [|split]].
  - intros cookies Hin.
    apply ImportCookies_delivers in Hin as (table & k & Hp & ->).
    exists table. split; [exact Hp|]. split.
    + rewrite fmap_take. apply prefix_take.
    + intros e He.
      apply (consumed_from_query (fun r => length (encrypted_value r) = 0%nat)) in He
        as (r & Hr & Hplain & ->).
      split; [reflexivity|]. exists r.
      apply nil_length_inv in Hplain. auto.
  - intros table Hp Hall.
    destruct (ImportCookies_run p n table Hp) as [_ ->].
    assert (Hnone : cookies_query table = []).
    { apply elem_of_nil_inv. intros r Hr.
      apply list_elem_of_filter in Hr as [Hplain Hr].
      apply nil_length_inv in Hplain. exact (Hall r Hr Hplain). }
    rewrite Hnone. reflexivity.
  - intros p' table Hp Hp'.
    destruct (ImportCookies_run p n table Hp) as [_ ->].
    destruct (ImportCookies_run p' n _ Hp') as [_ ->].
    unfold cookies_query. rewrite query_idemp. reflexivity.
  - intros Hnever table r Hp Hr Hplain.
    assert (Hin : cookie_entry r ∈ cookie_entry <$> cookies_query table).
    { apply list_elem_of_fmap_2, list_elem_of_filter. split; [|assumption].
      now rewrite Hplain. }
    split; [|exact Hin].
    destruct (ImportCookies_run p n table Hp) as [_ ->].
    rewrite (rows_consumed_never cancelled_at) by assumption.
    rewrite take_ge by lia.
    destruct (cookie_entry <$> cookies_query table) as [|e l];
      [now apply elem_of_nil in Hin|].
    now rewrite Hnever.
Qed.

End RowImports.

Lemma set_after_first_poll_stays_set : flag_stays_set Example.set_after_first_poll.
Proof.
  intros m n Hmn Hm. unfold Example.set_after_first_poll in *.
  apply Nat.leb_le. apply Nat.leb_le in Hm. lia.
Defined.

Lemma never_is_never_cancelled : never_cancelled Example.never.
Proof. intros n. reflexivity. Defined.

(** The claim C2 as the specification states it fails: the flag is clear at
    the first poll and set from the second on, so one row has been
    collected when the loop stops, and neither import delivers it. *)
Lemma partial_delivery_counterexample :
  Example.set_after_first_poll 0%nat = false /\
  Example.set_after_first_poll 1%nat = true /\
  (exists urls,
     History Example.profile = Opened urls /\
     res (@history_loop Example.chromium Example.set_after_first_poll
            (history_query urls) [] 0%nat)
     = Ok [@history_row Example.chromium (Example.visited "https://a.example/" 0)]) /\
  (exists table,
     Cookies Example.profile = Opened table /\
     res (@cookies_loop Example.chromium Example.set_after_first_poll
            (cookies_query table) [] 0%nat)
     = Ok [cookie_entry Example.plain_cookie]) /\
  out (@ImportHistory Example.chromium Example.set_after_first_poll Example.profile 0%nat) = [] /\
  out (@ImportCookies Example.chromium Example.set_after_first_poll Example.profile 0%nat) = [].
Proof.
  split; [reflexivity|]. split; [reflexivity|].
  split; [eexists; split; [reflexivity | vm_compute; reflexivity]|].
  split; [eexists; split; [reflexivity | vm_compute; reflexivity]|].
  split; vm_compute; reflexivity.
Qed.

Lemma cancelled_rows_not_delivered_witness :
  flag_stays_set Example.set_after_first_poll /\
  out (@ImportHistory Example.chromium Example.set_after_first_poll Example.profile 0%nat) = [] /\
  out (@ImportCookies Example.chromium Example.set_after_first_poll Example.profile 0%nat) = [].
Proof.
  split; [exact set_after_first_poll_stays_set|].
  destruct (@cancelled_rows_not_delivered Example.chromium
              Example.set_after_first_poll Example.profile 0%nat
              set_after_first_poll_stays_set) as (Hhistory & Hcookies & _).
  split.
  - eapply (Hhistory _ 1%nat); [reflexivity | vm_compute; lia | reflexivity].
  - eapply (Hcookies _ 1%nat); [reflexivity | vm_compute; lia | reflexivity].
Defined.

Lemma hidden_rows_not_imported_witness :
  SetHistoryItems
    (@history_row Example.chromium <$>
       [Example.visited "https://a.example/" 0; Example.visited "https://b.example/" 0;
        Example.visited "https://c.example/" 0])
    VISIT_SOURCE_CHROME_IMPORTED
    ∈ out (@ImportHistory Example.chromium Example.never Example.profile 0%nat) /\
  forall e,
    e ∈ @history_row Example.chromium <$>
          [Example.visited "https://a.example/" 0; Example.visited "https://b.example/" 0;
           Example.visited "https://c.example/" 0] ->
    row_hidden e = false.
Proof.
  assert (Hin : SetHistoryItems
    (@history_row Example.chromium <$>
       [Example.visited "https://a.example/" 0; Example.visited "https://b.example/" 0;
        Example.visited "https://c.example/" 0])
    VISIT_SOURCE_CHROME_IMPORTED
    ∈ out (@ImportHistory Example.chromium Example.never Example.profile 0%nat)).
  { vm_compute. apply list_elem_of_singleton. reflexivity. }
  split; [exact Hin|].
  destruct (@hidden_rows_not_imported Example.chromium Example.never Example.profile 0%nat)
    as (Hdelivered & _).
  destruct (Hdelivered _ _ Hin) as (urls & _ & _ & Hall).
  intros e He. exact (proj1 (Hall e He)).
Defined.

Lemma plaintext_cookies_only_witness :
  never_cancelled Example.never /\
  out (@ImportCookies Example.chromium Example.never Example.profile 0%nat) =
    [SetCookies (cookie_entry <$> [Example.plain_cookie; Example.theme_cookie])].
Proof.
  split; [exact never_is_never_cancelled|].
  destruct (@plaintext_cookies_only Example.chromium Example.never Example.profile 0%nat)
    as (_ & _ & _ & Hall).
  destruct (Hall never_is_never_cancelled
              [Example.plain_cookie; Example.encrypted_cookie; Example.theme_cookie]
              Example.plain_cookie eq_refl) as [Hout _].
  - apply list_elem_of_here.
  - reflexivity.
  - exact Hout.
Defined.

(** ** The bookmark tree walk *)

Section Walk.
Context `{Chromium}.

Lemma WithKey_FindKey {R} (key : string) (k : Value -> R) (d : R)
    (members : list (string * Value)) :
  WithKey key k d members =
  match FindKey key members with
  | Some v => k v
  | None => d
  end.
Proof.
  induction members as [|[k' v] members IH]; simpl; [reflexivity|].
  destruct (String.eqb k' key); [reflexivity | exact IH].
Qed.

(** The walk as the source writes it. *)
Lemma RecursiveReadBookmarksFolder_eq (folder : Value) (parent_path : list string)
    (is_in_toolbar : bool) (bookmarks : list ImportedBookmarkEntry) :
  RecursiveReadBookmarksFolder folder parent_path is_in_toolbar bookmarks =
  match GetList "children" folder with
  | Some children =>
      visit_children RecursiveReadBookmarksFolder parent_path is_in_toolbar
        children bookmarks
  | None => Ok bookmarks
  end.
Proof.
  destruct folder; try reflexivity. simpl.
  rewrite WithKey_FindKey.
  destruct (FindKey "children" members) as [[]|]; reflexivity.
Qed.

Lemma FindKey_size (key : string) (members : list (string * Value)) (v : Value) :
  FindKey key members = Some v ->
  (Value_size v <= list_sum (map (fun kv => Value_size (snd kv)) members))%nat.
Proof.
  induction members as [|[k x] members IH]; simpl; [discriminate|].
  destruct (String.eqb k key); [intros [= ->]; lia|].
  intros Hv. specialize (IH Hv). lia.
Qed.

Lemma child_size (children : list Value) (child : Value) :
  child ∈ children -> (Value_size child <= list_sum (map Value_size children))%nat.
Proof.
  induction 1 as [child children|child x children _ IH]; simpl; lia.
Qed.

Lemma GetList_size (key : string) (folder child : Value) (children : list Value) :
  GetList key folder = Some children -> child ∈ children ->
  (Value_size child < Value_size folder)%nat.
Proof.
  destruct folder as [| | | | | |members|]; try discriminate. simpl.
  destruct (FindKey key members) as [v|] eqn:Hv; [|discriminate].
  destruct v; try discriminate. intros [= <-] Hin.
  apply FindKey_size in Hv. apply child_size in Hin. simpl in Hv. lia.
Qed.

(** Children that are not dictionaries, or whose type is neither "folder"
    nor "url", are passed over: the walk is the walk of the other
    children. *)
Lemma visit_children_skips rec (parent_path : list string) (is_in_toolbar : bool)
    (children : list Value) (bookmarks : list ImportedBookmarkEntry) :
  visit_children rec parent_path is_in_toolbar
    (List.filter is_bookmark_node children) bookmarks =
  visit_children rec parent_path is_in_toolbar children bookmarks.
Proof.
  revert bookmarks.
  induction children as [|value rest IH]; intros bookmarks; [reflexivity|].
  cbn [List.filter]. unfold is_bookmark_node at 1.
  destruct (GetAsDictionary value) as [members|] eqn:Hd.
  - destruct (String.eqb (GetString "type" value) "folder") eqn:Hf.
    + cbn [orb visit_children]. rewrite Hd, Hf.
      destruct (stoll _); [|reflexivity]. cbn [rbind].
      destruct (rec _ _ _ _); [|reflexivity]. cbn [rbind]. apply IH.
    + destruct (String.eqb (GetString "type" value) "url") eqn:Hu.
      * cbn [orb visit_children]. rewrite Hd, Hf, Hu.
        destruct (stoll _); [|reflexivity]. cbn [rbind]. apply IH.
      * cbn [orb]. rewrite IH. cbn [visit_children]. now rewrite Hd, Hf, Hu.
  - rewrite IH. cbn [visit_children]. now rewrite Hd.
Qed.

(** A folder or url child whose date [std::stoll] rejects ends the walk:
    the exception leaves the loop, whatever follows the child. *)
Lemma visit_children_throws rec (parent_path : list string) (is_in_toolbar : bool)
    (before after : list Value) (node : Value) (e : Exception)
    (bookmarks bookmarks' : list ImportedBookmarkEntry) :
  visit_children rec parent_path is_in_toolbar before bookmarks = Ok bookmarks' ->
  is_bookmark_node node = true ->
  stoll (GetString "date_added" node) = Throw e ->
  visit_children rec parent_path is_in_toolbar (before ++ node :: after) bookmarks
  = Throw e.
Proof.
  intros Hbefore Hnode Hdate. revert bookmarks Hbefore.
  induction before as [|value rest IH]; intros bookmarks Hbefore.
  - cbn [app visit_children]. unfold is_bookmark_node in Hnode.
    destruct (GetAsDictionary node); [|discriminate].
    destruct (String.eqb (GetString "type" node) "folder").
    + now rewrite Hdate.
    + cbn [orb] in Hnode. rewrite Hnode. now rewrite Hdate.
  - cbn [app visit_children] in *.
    destruct (GetAsDictionary value); [|now apply IH].
    destruct (String.eqb (GetString "type" value) "folder").
    + destruct (stoll (GetString "date_added" value)); cbn [rbind] in *; [|discriminate].
      destruct (rec _ _ _ _); cbn [rbind] in *; [|discriminate]. now apply IH.
    + destruct (String.eqb (GetString "type" value) "url"); [|now apply IH].
      destruct (stoll (GetString "date_added" value)); cbn [rbind] in *;
        [|discriminate].
      now apply IH.
Qed.

Lemma pushed_below_deeper (parent_path : list string) (name : string)
    (is_in_toolbar : bool) (e : ImportedBookmarkEntry) :
  pushed_below (parent_path ++ [name]) false e ->
  pushed_below parent_path is_in_toolbar e.
Proof.
  intros [[Hpath Htb]|(more & Hmore & Hpath & Htb)]; right.
  - exists [name]. auto.
  - exists (name :: more). rewrite Hpath, <- app_assoc. auto.
Qed.

Lemma visit_children_pushes (children : list Value) (parent_path : list string)
    (is_in_toolbar : bool) :
  (forall child, child ∈ children ->
     forall path tb acc l,
       RecursiveReadBookmarksFolder child path tb acc = Ok l ->
       exists new, l = acc ++ new /\ Forall (pushed_below path tb) new) ->
  forall acc l,
    visit_children RecursiveReadBookmarksFolder parent_path is_in_toolbar
      children acc = Ok l ->
    exists new, l = acc ++ new /\ Forall (pushed_below parent_path is_in_toolbar) new.
Proof.
  induction children as [|value rest IH]; intros Hrec acc l Hwalk.
  - injection Hwalk as <-. exists []. now rewrite app_nil_r.
  - assert (Hrest : forall acc l,
               visit_children RecursiveReadBookmarksFolder parent_path
                 is_in_toolbar rest acc = Ok l ->
               exists new,
                 l = acc ++ new /\ Forall (pushed_below parent_path is_in_toolbar) new).
    { apply IH. intros child Hchild. apply Hrec. now apply list_elem_of_further. }
    cbn [visit_children] in Hwalk.
    destruct (GetAsDictionary value); [|now apply Hrest].
    destruct (String.eqb (GetString "type" value) "folder").
    + destruct (stoll _) as [t|]; cbn [rbind] in Hwalk; [|discriminate].
      destruct (RecursiveReadBookmarksFolder value _ _ _) as [below|] eqn:Hbelow;
        cbn [rbind] in Hwalk; [|discriminate].
      apply (Hrec value (list_elem_of_here _ _)) in Hbelow as (new1 & -> & Hnew1).
      apply Hrest in Hwalk as (new2 & -> & Hnew2).
      eexists (_ :: new1 ++ new2). split.
      * rewrite <- !app_assoc. reflexivity.
      * constructor; [left; split; reflexivity|].
        apply Forall_app. split; [|exact Hnew2].
        eapply Forall_impl; [exact Hnew1|]. intros e. apply pushed_below_deeper.
    + destruct (String.eqb (GetString "type" value) "url"); [|now apply Hrest].
      destruct (stoll _) as [t|]; cbn [rbind] in Hwalk; [|discriminate].
      apply Hrest in Hwalk as (new2 & -> & Hnew2).
      eexists (_ :: new2). split.
      * rewrite <- app_assoc. reflexivity.
      * constructor; [left; split; reflexivity | exact Hnew2].
Qed.

(** Every entry a walk pushes is for a child of the folder it started on,
    with the folder's path and flag, or for a deeper node, with a longer
    path and the flag false. *)
Lemma RecursiveReadBookmarksFolder_pushes (folder : Value) :
  forall path tb acc l,
    RecursiveReadBookmarksFolder folder path tb acc = Ok l ->
    exists new, l = acc ++ new /\ Forall (pushed_below path tb) new.
Proof.
  remember (Value_size folder) as size eqn:Hsize. revert folder Hsize.
  induction size as [size IH] using lt_wf_ind. intros folder -> path tb acc l.
  rewrite RecursiveReadBookmarksFolder_eq.
  destruct (GetList "children" folder) as [children|] eqn:Hchildren.
  - apply visit_children_pushes. intros child Hchild.
    apply (IH (Value_size child)); [|reflexivity].
    now apply (GetList_size "children" folder child children).
  - intros [= <-]. exists []. now rewrite app_nil_r.
Qed.

(** C1, as amended.  For a bookmark_bar root holding one sub-folder that
    holds one url leaf, the walk started by [ImportBookmarks] pushes
    exactly two entries, in pre-order: the sub-folder, with the root's name
    as its path and in_toolbar = true, and the leaf, with path
    [bookmark_bar name; sub-folder name] and in_toolbar = false; the root
    itself gets no entry.  In general the flag of a root walk goes to the
    root's children only: below bookmark_bar an entry has in_toolbar = true
    exactly when its path is the root's name alone, and below "other" every
    entry has in_toolbar = false. *)
Theorem bookmark_bar_walk (bookmark_bar sub_folder leaf : Value) (t_sub t_leaf : Z) :
  GetList "children" bookmark_bar = Some [sub_folder] ->
  GetString "type" sub_folder = "folder" ->
  GetList "children" sub_folder = Some [leaf] ->
  GetString "type" leaf = "url" ->
  stoll (GetString "date_added" sub_folder) = Ok t_sub ->
  stoll (GetString "date_added" leaf) = Ok t_leaf ->
  RecursiveReadBookmarksFolder bookmark_bar [GetString "name" bookmark_bar] true []
  = Ok [ {| in_toolbar := true;
            is_folder := true;
            entry_url := GURL_empty;
            entry_path := [GetString "name" bookmark_bar];
            entry_title := GetString "name" sub_folder;
            creation_time := FromDoubleT (chromeTimeToDouble t_sub) |};
         {| in_toolbar := false;
            is_folder := false;
            entry_url := GURL_of (GetString "url" leaf);
            entry_path := [GetString "name" bookmark_bar; GetString "name" sub_folder];
            entry_title := GetString "name" leaf;
            creation_time := FromDoubleT (chromeTimeToDouble t_leaf) |} ]
  /\ (forall root root_name l,
        RecursiveReadBookmarksFolder root [root_name] true [] = Ok l ->
        forall e, e ∈ l -> in_toolbar e = true <-> entry_path e = [root_name])
  /\ (forall other path acc l,
        RecursiveReadBookmarksFolder other path false acc = Ok l ->
        exists new, l = acc ++ new /\ forall e, e ∈ new -> in_toolbar e = false).
Proof.
  intros Hbar Hsub_type Hsub Hleaf_type Hsub_date Hleaf_date.
  split; [|split].
  - assert (Hsub_dict : exists m, GetAsDictionary sub_folder = Some m).
    { destruct sub_folder; try discriminate. eexists; reflexivity. }
    assert (Hleaf_dict : exists m, GetAsDictionary leaf = Some m).
    { destruct leaf; try discriminate. eexists; reflexivity. }
    destruct Hsub_dict as [ms Hms]. destruct Hleaf_dict as [ml Hml].
    rewrite RecursiveReadBookmarksFolder_eq, Hbar. cbn [visit_children].
    rewrite Hms, Hsub_type, Hsub_date. cbn [String.eqb Ascii.eqb Bool.eqb rbind].
    rewrite RecursiveReadBookmarksFolder_eq, Hsub. cbn [visit_children].
    rewrite Hml, Hleaf_type, Hleaf_date. reflexivity.
  - intros root root_name l Hwalk e He.
    apply RecursiveReadBookmarksFolder_pushes in Hwalk as (new & -> & Hnew).
    rewrite Forall_forall in Hnew.
    destruct (Hnew e He) as [[Hpath Htb]|(more & Hmore & Hpath & Htb)].
    + split; auto.
    + rewrite Hpath, Htb. split; [discriminate|].
      destruct more; [contradiction | discriminate].
  - intros other path acc l Hwalk.
    apply RecursiveReadBookmarksFolder_pushes in Hwalk as (new & -> & Hnew).
    exists new. split; [reflexivity|]. rewrite Forall_forall in Hnew.
    intros e He. destruct (Hnew e He) as [[_ Htb]|(_ & _ & _ & Htb)]; exact Htb.
Qed.

End Walk.

(** The claim C1 as the specification states it fails on the tree
    bookmark_bar > "Work" > "Rocq": the walk started by [ImportBookmarks]
    pushes two entries, not three; there is none for the bookmark_bar root,
    and the sub-folder "Work" has in_toolbar = true. *)
Lemma three_entries_counterexample :
  GetDictionary "roots" Example.nested_document
    = Some (DICTIONARY [("bookmark_bar", Example.bookmark_bar)]) /\
  GetList "children" Example.bookmark_bar = Some [Example.sub_folder] /\
  GetList "children" Example.sub_folder = Some [Example.leaf] /\
  exists l,
    @ReadBookmarkRoots Example.chromium Example.nested_document = Ok l /\
    @RecursiveReadBookmarksFolder Example.chromium Example.bookmark_bar
      [GetString "name" Example.bookmark_bar] true [] = Ok l /\
    length l = 2%nat /\
    length l <> 3%nat /\
    entry_title <$> l = ["Work"; "Rocq"] /\
    in_toolbar <$> l = [true; false] /\
    is_folder <$> l = [true; false] /\
    entry_path <$> l = [["Bookmarks bar"]; ["Bookmarks bar"; "Work"]].
Proof.
  repeat (split; [reflexivity|]).
  eexists. split; [vm_compute; reflexivity|].
  repeat (split; [reflexivity|]).
  split; [discriminate|]. repeat split.
Qed.

Lemma bookmark_bar_walk_witness :
  exists l,
    @RecursiveReadBookmarksFolder Example.chromium Example.bookmark_bar
      ["Bookmarks bar"] true [] = Ok l /\
    length l = 2%nat /\
    in_toolbar <$> l = [true; false].
Proof.
  destruct (@bookmark_bar_walk Example.chromium
              Example.bookmark_bar Example.sub_folder Example.leaf
              (13000000000000000) (13000000000000001)
              eq_refl eq_refl eq_refl eq_refl eq_refl eq_refl) as [Hwalk _].
  eexists. split; [exact Hwalk|]. split; reflexivity.
Defined.

(** C5 at the failing input.  The first child of the bookmark bar is a url
    node whose date_added is "yesterday", the second a well-formed url node.
    [std::stoll] throws on the first, nothing catches it, and the walk ends
    there: the well-formed node, which alone yields its entry, yields none,
    and [ImportBookmarks] delivers nothing. *)
Theorem misdated_node_aborts_walk :
  GetList "children" Example.misdated_bar = Some [Example.misdated; Example.leaf] /\
  is_bookmark_node Example.misdated = true /\
  stoll (GetString "date_added" Example.misdated) = Throw invalid_argument /\
  @RecursiveReadBookmarksFolder Example.chromium Example.misdated_bar
    ["Bookmarks bar"] true [] = Throw invalid_argument /\
  (exists e,
     @visit_children Example.chromium (@RecursiveReadBookmarksFolder Example.chromium)
       ["Bookmarks bar"] true [Example.leaf] [] = Ok [e] /\
     entry_title e = "Rocq") /\
  @ImportBookmarks Example.chromium Example.never
    (Example.with_bookmarks (Some "misdated.json") Example.profile) 0%nat
  = {| res := Throw invalid_argument; clock := 0%nat; out := [] |}.
Proof.
  repeat (split; [reflexivity|]).
  split; [eexists; split; reflexivity|].
  vm_compute. reflexivity.
Qed.

(** ** Favicon resolution *)

Section Favicons.
Context `{Chromium}.
Variable cancelled_at : nat -> bool.

(** An insertion changes the set at [icon_id] and no other. *)
Lemma FaviconMap_find_insert (icon_id id : Z) (url : GURL) (m : FaviconMap) :
  FaviconMap_find id (favicon_map_insert icon_id url m) =
  if decide (id = icon_id)
  then Some (default ∅ (FaviconMap_find id m) ∪ {[url]})
  else FaviconMap_find id m.
Proof.
  induction m as [|i m IH]; cbn [favicon_map_insert FaviconMap_find].
  - cbn [fst snd]. destruct (Z.eqb_spec icon_id id) as [->|Hne].
    + now rewrite decide_True by reflexivity.
    + rewrite decide_False by congruence. reflexivity.
  - destruct (Z.eqb_spec i.1 icon_id) as [Hi|Hi]; cbn [FaviconMap_find fst snd].
    + destruct (Z.eqb_spec i.1 id) as [Hid|Hid].
      * rewrite decide_True by congruence. reflexivity.
      * rewrite decide_False by congruence. reflexivity.
    + destruct (Z.eqb_spec i.1 id) as [Hid|Hid]; [|exact IH].
      rewrite decide_False by congruence. reflexivity.
Qed.

(** It keeps the ids in place and puts a new id last. *)
Lemma favicon_map_insert_keys (icon_id : Z) (url : GURL) (m : FaviconMap) :
  (favicon_map_insert icon_id url m).*1 =
  if decide (icon_id ∈ m.*1) then m.*1 else m.*1 ++ [icon_id].
Proof.
  induction m as [|i m IH]; cbn [favicon_map_insert].
  - rewrite decide_False by apply not_elem_of_nil. reflexivity.
  - destruct (Z.eqb_spec i.1 icon_id) as [Hi|Hi].
    + rewrite decide_True by (rewrite fmap_cons, <- Hi; left). reflexivity.
    + rewrite !fmap_cons, IH. destruct (decide (icon_id ∈ m.*1)) as [Hin|Hin].
      * rewrite decide_True by now right. reflexivity.
      * rewrite decide_False; [reflexivity|].
        rewrite elem_of_cons. intros [Heq|Hin']; [congruence | contradiction].
Qed.

Lemma favicon_map_insert_NoDup (icon_id : Z) (url : GURL) (m : FaviconMap) :
  NoDup m.*1 -> NoDup (favicon_map_insert icon_id url m).*1.
Proof.
  intros Hm. rewrite favicon_map_insert_keys.
  destruct (decide (icon_id ∈ m.*1)) as [Hin|Hin]; [exact Hm|].
  apply NoDup_app. split; [exact Hm|]. split; [|apply NoDup_singleton].
  intros id Hid Hid'. apply list_elem_of_singleton in Hid'. now subst id.
Qed.

Lemma icon_mapping_rows_NoDup (rows : list (Z * string)) (m : FaviconMap) :
  NoDup m.*1 -> NoDup (fold_left icon_mapping_row rows m).*1.
Proof.
  revert m. induction rows as [|r rows IH]; intros m Hm; [exact Hm|].
  cbn [fold_left]. apply IH. now apply favicon_map_insert_NoDup.
Qed.

(** A map with one entry per id lists what [FaviconMap_find] finds. *)
Lemma elem_of_FaviconMap (m : FaviconMap) (icon_id : Z) (urls : gset GURL) :
  NoDup m.*1 ->
  (icon_id, urls) ∈ m <-> FaviconMap_find icon_id m = Some urls.
Proof.
  induction m as [|i m IH]; intros Hm; cbn [FaviconMap_find].
  - split; [intros Hin; now apply elem_of_nil in Hin | discriminate].
  - rewrite fmap_cons in Hm. apply NoDup_cons in Hm as [Hi Hm].
    rewrite elem_of_cons. destruct (Z.eqb_spec i.1 icon_id) as [Heq|Hne].
    + split.
      * intros [<-|Hin]; [reflexivity|]. destruct Hi. rewrite Heq.
        apply list_elem_of_fmap. now exists (icon_id, urls).
      * intros [= <-]. left. rewrite <- Heq. now destruct i.
    + rewrite <- (IH Hm). split; [|now right].
      intros [Hentry|Hin]; [destruct Hne; now rewrite <- Hentry | exact Hin].
Qed.

(** Pass 1 stores at each icon id the set of the pages mapped to it, and
    has an entry exactly for the ids that occur. *)
Lemma icon_mapping_rows_lookup (rows : list (Z * string)) (m : FaviconMap)
    (icon_id : Z) :
  FaviconMap_find icon_id (fold_left icon_mapping_row rows m) =
  match filter (fun r => ColumnInt64 r.1 = icon_id) rows with
  | [] => FaviconMap_find icon_id m
  | _ :: _ => Some (default ∅ (FaviconMap_find icon_id m) ∪ pages_of rows icon_id)
  end.
Proof.
  revert m. induction rows as [|r rows IH]; intros m; [reflexivity|].
  cbn [fold_left]. rewrite IH. unfold pages_of, icon_mapping_row.
  rewrite FaviconMap_find_insert.
  destruct (decide (ColumnInt64 r.1 = icon_id)) as [Hid|Hid].
  - rewrite (filter_cons_True _ r rows) by exact Hid.
    rewrite decide_True by congruence.
    cbn [default]. rewrite fmap_cons, list_to_set_cons.
    destruct (filter _ rows) as [|r' rows'].
    + f_equal. cbn. set_solver.
    + f_equal. set_solver.
  - rewrite (filter_cons_False _ r rows) by exact Hid.
    rewrite decide_False by congruence. reflexivity.
Qed.

(** The entries of the map pass 1 builds from the empty map. *)
Lemma elem_of_icon_mapping_rows (rows : list (Z * string)) (icon_id : Z)
    (urls : gset GURL) :
  (icon_id, urls) ∈ fold_left icon_mapping_row rows [] <->
  (exists r, r ∈ rows /\ ColumnInt64 r.1 = icon_id) /\ urls = pages_of rows icon_id.
Proof.
  rewrite elem_of_FaviconMap by (apply icon_mapping_rows_NoDup, NoDup_nil_2).
  rewrite icon_mapping_rows_lookup. cbn [FaviconMap_find].
  destruct (filter _ rows) as [|r l] eqn:Hfilter.
  - split; [discriminate|]. intros [(r & Hr & Hid) _].
    assert (Hin : r ∈ filter (fun r => ColumnInt64 r.1 = icon_id) rows)
      by now apply list_elem_of_filter.
    rewrite Hfilter in Hin. now apply elem_of_nil in Hin.
  - cbn [default]. rewrite union_empty_l_L.
    assert (Hr : r ∈ filter (fun r => ColumnInt64 r.1 = icon_id) rows)
      by (rewrite Hfilter; left).
    apply list_elem_of_filter in Hr as [Hid Hr].
    split.
    + intros Hurls. apply (inj Some) in Hurls. split; [now exists r | now symmetry].
    + intros [_ ->]. reflexivity.
Qed.

Lemma ImportFaviconURLs_run (db : favicons_db) (m : FaviconMap) (n : nat) :
  ImportFaviconURLs cancelled_at db m n =
  {| res := Ok (fold_left icon_mapping_row
                  (take (rows_consumed cancelled_at n (length (icon_mapping db)))
                     (icon_mapping db)) m);
     clock := after_loop cancelled_at n (length (icon_mapping db));
     out := [] |}.
Proof. unfold ImportFaviconURLs. apply while_Step_run. Qed.

(** Pass 2 resolves each icon of the map on its own. *)
Lemma LoadFaviconData_omap (db : favicons_db) (favicon_map : FaviconMap)
    (favicons : list FaviconUsageData) :
  LoadFaviconData db favicon_map favicons =
  favicons ++ omap (fun i => load_favicon db i.1 i.2) favicon_map.
Proof.
  unfold LoadFaviconData. revert favicons.
  induction favicon_map as [|i entries IH]; intros favicons; simpl.
  - now rewrite app_nil_r.
  - destruct (load_favicon db i.1 i.2); rewrite IH; [|reflexivity].
    now rewrite <- app_assoc.
Qed.

Lemma omap_length_le {A B} (f : A -> option B) (l : list A) :
  (length (omap f l) <= length l)%nat.
Proof.
  induction l as [|a l IH]; [reflexivity|]. cbn.
  destruct (f a); cbn [length]; lia.
Qed.

Lemma load_favicon_urls (db : favicons_db) (icon_id : Z) (urls : gset GURL)
    (usage : FaviconUsageData) :
  load_favicon db icon_id urls = Some usage -> usage_urls usage = urls.
Proof.
  unfold load_favicon. destruct (favicon_row db icon_id) as [cell|]; [|discriminate].
  destruct (is_valid _); [|discriminate].
  destruct (SchemeIs_data _).
  - destruct (list_byte_of_string cell); [discriminate|].
    destruct (ReencodeFavicon _); [|discriminate]. now intros [= <-].
  - now intros [= <-].
Qed.

(** The point lookup steps to the first row of the table with the id. *)
Lemma find_first_row (rows : list (Z * string)) (icon_id : Z) (cell : string) :
  snd <$> List.find (fun r => fst r =? icon_id) rows = Some cell <->
  exists before after,
    rows = before ++ (icon_id, cell) :: after /\
    forall r, r ∈ before -> r.1 <> icon_id.
Proof.
  induction rows as [|r rows IH]; cbn [List.find].
  - split; [discriminate|]. intros (before & after & Hrows & _).
    now destruct before.
  - destruct (Z.eqb_spec r.1 icon_id) as [Heq|Hne].
    + cbn. split.
      * intros [= <-]. exists [], rows. split; [|intros r' Hr'; now apply elem_of_nil in Hr'].
        cbn [app]. rewrite <- Heq. now destruct r.
      * intros ([|r' before] & after & Hrows & Hbefore); cbn [app] in Hrows.
        -- now injection Hrows as ->.
        -- injection Hrows as -> _. destruct (Hbefore r'); [left | exact Heq].
    + rewrite IH. split.
      * intros (before & after & -> & Hbefore). exists (r :: before), after.
        split; [reflexivity|]. intros r' Hr'.
        apply elem_of_cons in Hr' as [->|Hr']; [exact Hne | now apply Hbefore].
      * intros ([|r' before] & after & Hrows & Hbefore); cbn [app] in Hrows.
        -- injection Hrows as ->. now destruct Hne.
        -- injection Hrows as -> ->. exists before, after. split; [reflexivity|].
           intros r'' Hr''. apply Hbefore. now right.
Qed.

Lemma favicon_row_stored (db : favicons_db) (icon_id : Z) (cell : string) :
  favicon_row db icon_id = Some cell <-> stored_at db icon_id cell.
Proof. apply find_first_row. Qed.

Lemma favicon_row_absent (db : favicons_db) (icon_id : Z) :
  (forall r, r ∈ favicons db -> r.1 <> icon_id) -> favicon_row db icon_id = None.
Proof.
  unfold favicon_row. induction (favicons db) as [|r rows IH]; intros Hrows;
    [reflexivity|].
  cbn [List.find]. destruct (Z.eqb_spec r.1 icon_id) as [Heq|Hne].
  - destruct (Hrows r); [left | exact Heq].
  - apply IH. intros r' Hr'. apply Hrows. now right.
Qed.

(** What one iteration of pass 2 pushes, read off the stored cell. *)
Lemma load_favicon_cases (db : favicons_db) (icon_id : Z) (urls : gset GURL)
    (usage : FaviconUsageData) :
  load_favicon db icon_id urls = Some usage ->
  exists cell,
    favicon_row db icon_id = Some cell /\
    is_valid (GURL_of cell) = true /\
    usage_urls usage = urls /\
    ((SchemeIs_data (GURL_of cell) = false /\
      favicon_url usage = GURL_of cell /\ png_data usage = []) \/
     (SchemeIs_data (GURL_of cell) = true /\
      favicon_url usage = GURL_empty /\
      ReencodeFavicon (list_byte_of_string cell) = Some (png_data usage))).
Proof.
  unfold load_favicon. destruct (favicon_row db icon_id) as [cell|]; [|discriminate].
  destruct (is_valid (GURL_of cell)) eqn:Hvalid; [|discriminate].
  destruct (SchemeIs_data (GURL_of cell)) eqn:Hdata.
  - destruct (list_byte_of_string cell) as [|b data] eqn:Hbytes; [discriminate|].
    destruct (ReencodeFavicon (b :: data)) as [png|] eqn:Hpng; [|discriminate].
    intros [= <-]. exists cell. cbn [usage_urls favicon_url png_data].
    split; [reflexivity|]. split; [exact Hvalid|]. split; [reflexivity|].
    right. rewrite Hbytes. auto.
  - intros [= <-]. exists cell. cbn [usage_urls favicon_url png_data].
    split; [reflexivity|]. split; [exact Hvalid|]. split; [reflexivity|].
    left. auto.
Qed.

(** The resolution policy of one iteration, by the cell the table stores
    for the icon. *)
Lemma load_favicon_policy (db : favicons_db) (icon_id : Z) (urls : gset GURL)
    (cell : string) :
  stored_at db icon_id cell ->
  (is_valid (GURL_of cell) = true ->
   SchemeIs_data (GURL_of cell) = false ->
   load_favicon db icon_id urls =
     Some {| favicon_url := GURL_of cell; png_data := []; usage_urls := urls |}) /\
  (forall png,
     is_valid (GURL_of cell) = true ->
     SchemeIs_data (GURL_of cell) = true ->
     list_byte_of_string cell <> [] ->
     ReencodeFavicon (list_byte_of_string cell) = Some png ->
     load_favicon db icon_id urls =
       Some {| favicon_url := GURL_empty; png_data := png; usage_urls := urls |}) /\
  (is_valid (GURL_of cell) = false -> load_favicon db icon_id urls = None) /\
  (SchemeIs_data (GURL_of cell) = true ->
   list_byte_of_string cell = [] \/
   ReencodeFavicon (list_byte_of_string cell) = None ->
   load_favicon db icon_id urls = None).
Proof.
  intros Hrow. apply favicon_row_stored in Hrow. unfold load_favicon. rewrite Hrow.
  split; [|split; [|split]].
  - intros -> ->. reflexivity.
  - intros png -> -> Hbytes Hcodec.
    destruct (list_byte_of_string cell); [contradiction|]. now rewrite Hcodec.
  - intros ->. reflexivity.
  - intros -> Hskip. destruct (is_valid _); [|reflexivity].
    destruct (list_byte_of_string cell) as [|b data]; [reflexivity|].
    destruct Hskip as [Hbytes|Hcodec]; [discriminate | now rewrite Hcodec].
Qed.

(** A data url whose cell has no bytes is never decoded. *)
Lemma load_favicon_bytes (db : favicons_db) (icon_id : Z) (urls : gset GURL)
    (usage : FaviconUsageData) (cell : string) :
  load_favicon db icon_id urls = Some usage ->
  favicon_row db icon_id = Some cell ->
  SchemeIs_data (GURL_of cell) = true ->
  list_byte_of_string cell <> [].
Proof.
  unfold load_favicon. intros Hload Hrow Hdata. rewrite Hrow in Hload.
  cbv zeta in Hload. rewrite Hdata in Hload.
  destruct (is_valid _); [|discriminate].
  now destruct (list_byte_of_string cell).
Qed.

(** When every row of the mapping names the same icon, pass 1 builds the
    map with that one entry. *)
Lemma single_icon_map (rows : list (Z * string)) (icon_id : Z) :
  rows <> [] ->
  (forall r, r ∈ rows -> ColumnInt64 r.1 = icon_id) ->
  fold_left icon_mapping_row rows [] = [(icon_id, pages_of rows icon_id)].
Proof.
  intros Hrows Hall.
  assert (Hfilter : forall l : list (Z * string),
            (forall r, r ∈ l -> ColumnInt64 r.1 = icon_id) ->
            filter (fun r => ColumnInt64 r.1 = icon_id) l = l).
  { induction l as [|r l IH]; intros Hl; [reflexivity|].
    rewrite filter_cons_True by (apply Hl; left).
    f_equal. apply IH. intros r' Hr'. apply Hl. now right. }
  assert (Hfold : forall (l : list (Z * string)) (urls : gset GURL),
            (forall r, r ∈ l -> ColumnInt64 r.1 = icon_id) ->
            fold_left icon_mapping_row l [(icon_id, urls)] =
            [(icon_id, urls ∪ list_to_set ((fun r => GURL_of r.2) <$> l))]).
  { induction l as [|r l IH]; intros urls Hl.
    - cbn. now rewrite union_empty_r_L.
    - cbn [fold_left]. unfold icon_mapping_row at 2. cbn [favicon_map_insert fst snd].
      rewrite (Hl r) by left. rewrite Z.eqb_refl.
      rewrite IH by (intros r' Hr'; apply Hl; now right).
      rewrite fmap_cons, list_to_set_cons. do 2 f_equal. set_solver. }
  destruct rows as [|r rows]; [contradiction|].
  unfold pages_of. rewrite (Hfilter _ Hall).
  cbn [fold_left]. unfold icon_mapping_row at 2. cbn [favicon_map_insert].
  rewrite (Hall r) by left.
  rewrite Hfold by (intros r' Hr'; apply Hall; now right).
  rewrite fmap_cons, list_to_set_cons. do 2 f_equal. set_solver.
Qed.

(** C7.  In favicon resolution pass 1 builds one entry per icon id of the
    mapping, holding the set of the pages mapped to it: two distinct pages
    mapped to the same icon give one entry whose set has two elements,
    however often the rows repeat, and one usage record, which carries
    that set.  Pass 2 looks each icon up in the favicons table: an icon
    whose stored url is remote is recorded with that url and no image
    bytes; an icon whose stored url is invalid, or is a data url with no
    bytes or that the codec rejects, or that has no row, is left out; and
    every other icon of the map still yields its record, whatever the
    table holds for the icons around it. *)
Theorem favicon_resolution (db : favicons_db) (n : nat) :
  never_cancelled cancelled_at ->
  exists favicon_map,
    res (ImportFaviconURLs cancelled_at db [] n) = Ok favicon_map /\
    NoDup favicon_map.*1 /\
    (forall icon_id urls,
       (icon_id, urls) ∈ favicon_map <->
       mapped db icon_id /\ urls = pages_of (icon_mapping db) icon_id) /\
    (length (LoadFaviconData db favicon_map []) <= length favicon_map)%nat /\
    (forall icon_id g1 g2,
       g1 <> g2 ->
       (forall r, r ∈ icon_mapping db -> ColumnInt64 r.1 = icon_id) ->
       pages_of (icon_mapping db) icon_id = {[g1; g2]} ->
       favicon_map = [(icon_id, {[g1; g2]})] /\
       size ({[g1; g2]} : gset GURL) = 2%nat /\
       forall cell,
         stored_at db icon_id cell ->
         is_valid (GURL_of cell) = true ->
         SchemeIs_data (GURL_of cell) = false ->
         LoadFaviconData db favicon_map [] =
           [{| favicon_url := GURL_of cell; png_data := [];
               usage_urls := {[g1; g2]} |}]) /\
    (forall icon_id cell,
       mapped db icon_id ->
       stored_at db icon_id cell ->
       is_valid (GURL_of cell) = true ->
       SchemeIs_data (GURL_of cell) = false ->
       {| favicon_url := GURL_of cell; png_data := [];
          usage_urls := pages_of (icon_mapping db) icon_id |}
         ∈ LoadFaviconData db favicon_map []) /\
    (forall icon_id cell png,
       mapped db icon_id ->
       stored_at db icon_id cell ->
       is_valid (GURL_of cell) = true ->
       SchemeIs_data (GURL_of cell) = true ->
       list_byte_of_string cell <> [] ->
       ReencodeFavicon (list_byte_of_string cell) = Some png ->
       {| favicon_url := GURL_empty; png_data := png;
          usage_urls := pages_of (icon_mapping db) icon_id |}
         ∈ LoadFaviconData db favicon_map []) /\
    (forall usage,
       usage ∈ LoadFaviconData db favicon_map [] ->
       exists icon_id cell,
         mapped db icon_id /\
         usage_urls usage = pages_of (icon_mapping db) icon_id /\
         stored_at db icon_id cell /\
         is_valid (GURL_of cell) = true /\
         ((SchemeIs_data (GURL_of cell) = false /\
           favicon_url usage = GURL_of cell /\ png_data usage = []) \/
          (SchemeIs_data (GURL_of cell) = true /\
           favicon_url usage = GURL_empty /\
           list_byte_of_string cell <> [] /\
           ReencodeFavicon (list_byte_of_string cell) = Some (png_data usage)))) /\
    (forall icon_id,
       (forall r, r ∈ icon_mapping db -> ColumnInt64 r.1 = icon_id) ->
       (forall r, r ∈ favicons db -> r.1 <> icon_id) \/
       (exists cell,
          stored_at db icon_id cell /\
          (is_valid (GURL_of cell) = false \/
           (SchemeIs_data (GURL_of cell) = true /\
            (list_byte_of_string cell = [] \/
             ReencodeFavicon (list_byte_of_string cell) = None)))) ->
       LoadFaviconData db favicon_map [] = []).
Proof.
  intros Hnever.
  exists (fold_left icon_mapping_row (icon_mapping db) []).
  assert (Hentries := elem_of_icon_mapping_rows (icon_mapping db)).
  set (favicon_map := fold_left icon_mapping_row (icon_mapping db) []) in *.
  assert (Hresolves : forall icon_id usage,
            mapped db icon_id ->
            load_favicon db icon_id (pages_of (icon_mapping db) icon_id) = Some usage ->
            usage ∈ LoadFaviconData db favicon_map []).
  { intros icon_id usage Hmapped Hload.
    rewrite LoadFaviconData_omap. cbn [app]. apply list_elem_of_omap.
    exists (icon_id, pages_of (icon_mapping db) icon_id).
    split; [now apply Hentries | exact Hload]. }
  split; [|split; [|split; [|split; [|split; [|split; [|split; [|split]]]]]]].
  - rewrite ImportFaviconURLs_run. cbn [res].
    rewrite rows_consumed_never by exact Hnever. now rewrite take_ge by lia.
  - apply icon_mapping_rows_NoDup, NoDup_nil_2.
  - exact Hentries.
  - rewrite LoadFaviconData_omap. cbn [app]. apply omap_length_le.
  - intros icon_id g1 g2 Hne Hall Hpages.
    assert (Hrows : icon_mapping db <> []).
    { intros Hnil. unfold pages_of in Hpages. rewrite Hnil in Hpages.
      cbn in Hpages. set_solver. }
    assert (Hmap : favicon_map = [(icon_id, {[g1; g2]})]).
    { unfold favicon_map. now rewrite (single_icon_map _ icon_id Hrows Hall), Hpages. }
    split; [exact Hmap|]. split.
    + rewrite size_union by set_solver. now rewrite !size_singleton.
    + intros cell Hrow Hvalid Hremote. rewrite Hmap, LoadFaviconData_omap.
      cbn [app omap list_omap fst snd].
      destruct (load_favicon_policy db icon_id {[g1; g2]} cell Hrow) as [Hload _].
      now rewrite (Hload Hvalid Hremote).
  - intros icon_id cell Hmapped Hrow Hvalid Hremote.
    apply (Hresolves icon_id _ Hmapped).
    now apply (load_favicon_policy db icon_id _ cell Hrow).
  - intros icon_id cell png Hmapped Hrow Hvalid Hdata Hbytes Hcodec.
    apply (Hresolves icon_id _ Hmapped).
    now apply (load_favicon_policy db icon_id _ cell Hrow).
  - intros usage Husage. rewrite LoadFaviconData_omap in Husage. cbn [app] in Husage.
    apply list_elem_of_omap in Husage as ([icon_id urls] & Hin & Hload).
    cbn [fst snd] in Hload. apply Hentries in Hin as [Hmapped ->].
    pose proof (fun cell => load_favicon_bytes db icon_id _ usage cell Hload)
      as Hbytes.
    apply load_favicon_cases in Hload as (cell & Hrow & Hvalid & Hurls & Hkind).
    exists icon_id, cell. split; [exact Hmapped|]. split; [exact Hurls|].
    split; [now apply favicon_row_stored|]. split; [exact Hvalid|].
    destruct Hkind as [Hremote|(Hdata & Hurl & Hcodec)]; [now left|].
    right. split; [exact Hdata|]. split; [exact Hurl|].
    split; [now apply (Hbytes cell) | exact Hcodec].
  - intros icon_id Hall Hrow.
    destruct (icon_mapping db) as [|r rows] eqn:Hrows; [reflexivity|].
    assert (Hmap : favicon_map = [(icon_id, pages_of (r :: rows) icon_id)]).
    { unfold favicon_map. now apply single_icon_map. }
    rewrite Hmap, LoadFaviconData_omap. cbn [app omap list_omap fst snd].
    assert (Hnone : load_favicon db icon_id (pages_of (r :: rows) icon_id) = None).
    { destruct Hrow as [Habsent|(cell & Hcell & [Hinvalid|[Hdata Hskip]])].
      - unfold load_favicon. now rewrite favicon_row_absent.
      - destruct (load_favicon_policy db icon_id (pages_of (r :: rows) icon_id)
                    cell Hcell) as (_ & _ & Hpolicy & _).
        now apply Hpolicy.
      - destruct (load_favicon_policy db icon_id (pages_of (r :: rows) icon_id)
                    cell Hcell) as (_ & _ & _ & Hpolicy).
        now apply Hpolicy. }
    now rewrite Hnone.
Qed.

End Favicons.

Lemma favicon_resolution_witness :
  never_cancelled Example.never /\
  exists favicon_map,
    res (@ImportFaviconURLs Example.chromium Example.never Example.mixed_icons [] 0%nat)
    = Ok favicon_map /\
    @Build_FaviconUsageData Example.chromium "https://example.org/two.ico" []
      {["https://example.org/a"; "https://example.org/b"]}
      ∈ @LoadFaviconData Example.chromium Example.mixed_icons favicon_map [] /\
    @Build_FaviconUsageData Example.chromium "https://example.org/three.ico" []
      {["https://example.org/c"]}
      ∈ @LoadFaviconData Example.chromium Example.mixed_icons favicon_map [] /\
    size ({["https://example.org/a"; "https://example.org/b"]} : gset string) = 2%nat.
Proof.
  split; [exact never_is_never_cancelled|].
  destruct (@favicon_resolution Example.chromium Example.never Example.mixed_icons 0%nat
              never_is_never_cancelled)
    as (favicon_map & Hrun & _ & _ & _ & _ & Hremote & _).
  exists favicon_map. split; [exact Hrun|].
  assert (Hpages2 : @pages_of Example.chromium (icon_mapping Example.mixed_icons) 2
                    = {["https://example.org/a"; "https://example.org/b"]})
    by (vm_compute; reflexivity).
  assert (Hpages3 : @pages_of Example.chromium (icon_mapping Example.mixed_icons) 3
                    = {["https://example.org/c"]})
    by (vm_compute; reflexivity).
  assert (Hstored : forall icon_id cell before after,
            favicons Example.mixed_icons = before ++ (icon_id, cell) :: after ->
            Forall (fun r => r.1 <> icon_id) before ->
            stored_at Example.mixed_icons icon_id cell).
  { intros icon_id cell before after Hrows Hbefore. exists before, after.
    split; [exact Hrows|]. now apply Forall_forall. }
  split; [|split].
  - assert (Hin := Hremote 2 "https://example.org/two.ico").
    rewrite Hpages2 in Hin. apply Hin; [| |reflexivity|reflexivity].
    + exists (2, "https://example.org/a"). split; [|reflexivity].
      apply (list_elem_of_lookup_2 _ 1%nat). reflexivity.
    + apply (Hstored 2 _ [(1, "")] [(3, "https://example.org/three.ico")]);
        [reflexivity|]. repeat constructor. discriminate.
  - assert (Hin := Hremote 3 "https://example.org/three.ico").
    rewrite Hpages3 in Hin. apply Hin; [| |reflexivity|reflexivity].
    + exists (3, "https://example.org/c"). split; [|reflexivity].
      apply (list_elem_of_lookup_2 _ 2%nat). reflexivity.
    + apply (Hstored 3 _ [(1, ""); (2, "https://example.org/two.ico")] []);
        [reflexivity|]. repeat constructor; discriminate.
  - vm_compute. reflexivity.
Defined.

(** ** [ImportBookmarks] *)

Section Favorites.
Context `{Chromium}.
Variable cancelled_at : nat -> bool.

(** The favicon phase reads the Favicons database and nothing else. *)
Lemma ImportFavicons_store (p p' : SourceProfile) (n : nat) :
  Favicons p' = Favicons p ->
  ImportFavicons cancelled_at p' n = ImportFavicons cancelled_at p n.
Proof. intros Hstore. unfold ImportFavicons. now rewrite Hstore. Qed.

(** With a file that parses to a dictionary without roots, the favicon
    phase is all that [ImportBookmarks] does. *)
Lemma ImportBookmarks_no_roots (p : SourceProfile) (text : string) (n : nat) :
  Bookmarks p = Some text ->
  JSONReader_Read text = Some (DICTIONARY []) ->
  ImportBookmarks cancelled_at p n = ImportFavicons cancelled_at p n.
Proof.
  intros Hfile Hparse. unfold ImportBookmarks. rewrite Hfile. cbv zeta; cbn [from_option id].
  rewrite Hparse. unfold bind, lift. cbn.
  destruct (ImportFavicons cancelled_at p n) as [r c o]. cbn.
  now destruct r.
Qed.

(** C10.  When the Bookmarks file is absent, or its content does not parse
    as a JSON dictionary, [ImportBookmarks] returns before the favicon
    phase: it polls nothing and delivers nothing, whatever the Favicons
    database holds, while the same database is read as soon as the file
    parses to a dictionary. *)
Theorem no_favicons_without_bookmarks (p : SourceProfile) (n : nat) :
  (Bookmarks p = None \/
   exists text,
     Bookmarks p = Some text /\
     forall members, JSONReader_Read text <> Some (DICTIONARY members)) ->
  ImportBookmarks cancelled_at p n = {| res := Ok tt; clock := n; out := [] |}
  /\ (forall favicons, SetFavicons favicons ∉ out (ImportBookmarks cancelled_at p n))
  /\ (forall p' text,
        Favicons p' = Favicons p ->
        Bookmarks p' = Some text ->
        JSONReader_Read text = Some (DICTIONARY []) ->
        out (ImportBookmarks cancelled_at p' n) = out (ImportFavicons cancelled_at p n)).
Proof.
  intros Hfile.
  assert (Hreturn : ImportBookmarks cancelled_at p n =
                    {| res := Ok tt; clock := n; out := [] |}).
  { unfold ImportBookmarks.
    destruct Hfile as [Habsent|(text & Htext & Hparse)].
    - rewrite Habsent. cbv zeta; cbn [from_option id]. now rewrite JSONReader_Read_empty.
    - rewrite Htext. cbv zeta; cbn [from_option id].
      destruct (JSONReader_Read text) as [v|]; [|reflexivity].
      destruct v; try reflexivity. now destruct (Hparse members). }
  split; [exact Hreturn|]. split.
  - intros favicons. rewrite Hreturn. apply not_elem_of_nil.
  - intros p' text Hstore Htext Hparse.
    rewrite (ImportBookmarks_no_roots p' text n Htext Hparse).
    now rewrite (ImportFavicons_store p p' n Hstore).
Qed.

End Favorites.

Lemma no_favicons_without_bookmarks_witness :
  out (@ImportBookmarks Example.chromium Example.never
         (Example.with_bookmarks None Example.profile) 0%nat) = [] /\
  out (@ImportBookmarks Example.chromium Example.never
         (Example.with_bookmarks (Some "array.json") Example.profile) 0%nat) = [] /\
  exists favicons,
    out (@ImportBookmarks Example.chromium Example.never
           (Example.with_bookmarks (Some "empty-object.json") Example.profile) 0%nat)
    = [SetFavicons favicons] /\
    length favicons = 1%nat.
Proof.
  destruct (@no_favicons_without_bookmarks Example.chromium Example.never
              (Example.with_bookmarks None Example.profile) 0%nat (or_introl eq_refl))
    as (Habsent & _ & Hcontrast).
  destruct (@no_favicons_without_bookmarks Example.chromium Example.never
              (Example.with_bookmarks (Some "array.json") Example.profile) 0%nat)
    as (Harray & _).
  { right. exists "array.json". split; [reflexivity|]. discriminate. }
  split; [now rewrite Habsent|]. split; [now rewrite Harray|].
  eexists. split.
  - rewrite (Hcontrast (Example.with_bookmarks (Some "empty-object.json") Example.profile)
               "empty-object.json" eq_refl eq_refl eq_refl).
    vm_compute. reflexivity.
  - reflexivity.
Defined.

(** ** [ImportPasswords] *)

Section Passwords.
Context `{Chromium}.

Lemma forward_forms_run (forms : list PasswordForm) (n : nat) :
  forward_forms forms n =
  {| res := Ok tt; clock := n; out := SetPasswordForm <$> forms |}.
Proof.
  induction forms as [|form rest IH]; [reflexivity|].
  cbn [forward_forms]. unfold bind, emit. cbn [res clock out].
  rewrite IH. reflexivity.
Qed.

Lemma forward_logins_run (backend : LoginStore) (n : nat) :
  forward_logins backend n =
  {| res := Ok tt; clock := n;
     out := (SetPasswordForm <$> default [] (GetAutofillableLogins backend)) ++
            (SetPasswordForm <$> default [] (GetBlacklistLogins backend)) |}.
Proof.
  unfold forward_logins, bind.
  destruct (GetAutofillableLogins backend) as [forms|];
    destruct (GetBlacklistLogins backend) as [blacklist|];
    rewrite ?forward_forms_run; cbn; rewrite ?forward_forms_run; cbn;
    rewrite ?app_nil_r; reflexivity.
Qed.

(** [ImportPasswords] either finds no initialised store and does nothing,
    or forwards the logins of one store. *)
Lemma ImportPasswords_cases (host : Host) (p : SourceProfile) (n : nat) :
  ImportPasswords host p n = {| res := Ok tt; clock := n; out := [] |} \/
  exists backend,
    Init backend = true /\ ImportPasswords host p n = forward_logins backend n.
Proof.
  unfold ImportPasswords. destruct (USE_X11 host); cbn [negb].
  - destruct (Preferences_read p); cbn [negb]; [|now left].
    destruct (Preferences_kLocalProfileId p) as [value|]; [|now left].
    destruct (GetAsInteger value) as [local_profile_id|]; [|now left].
    destruct (select_native_backend host local_profile_id) as [backend|];
      [|now left].
    destruct (Init backend) eqn:Hinit; [|now left]. right. now exists backend.
  - destruct (Init (Login_Data p)) eqn:Hinit; [|now left].
    right. now exists (Login_Data p).
Qed.

(** C8.  Every credential retrieved is forwarded by a call of its own, in
    retrieval order, the autofillable ones before the blacklisted ones; a
    retrieval that fails contributes no call and leaves the other retrieval
    as it is; and [ImportPasswords] always returns normally, so the session
    goes on. *)
Theorem credentials_forwarded_one_by_one (host : Host) (p : SourceProfile) (n : nat) :
  (forall backend,
      forward_logins backend n =
      {| res := Ok tt; clock := n;
         out := (SetPasswordForm <$> default [] (GetAutofillableLogins backend)) ++
                (SetPasswordForm <$> default [] (GetBlacklistLogins backend)) |})
  /\ (forall backend,
      length (out (forward_logins backend n)) =
      (length (default [] (GetAutofillableLogins backend)) +
       length (default [] (GetBlacklistLogins backend)))%nat)
  /\ (ImportPasswords host p n = {| res := Ok tt; clock := n; out := [] |} \/
      exists backend,
        Init backend = true /\ ImportPasswords host p n = forward_logins backend n)
  /\ (USE_X11 host = false ->
      Init (Login_Data p) = true ->
      ImportPasswords host p n = forward_logins (Login_Data p) n)
  /\ res (ImportPasswords host p n) = Ok tt.
Proof.
  split; [intros backend; apply forward_logins_run|].
  split.
  { intros backend. rewrite forward_logins_run. cbn [out].
    now rewrite length_app, !length_fmap. }
  split; [apply ImportPasswords_cases|]. split.
  - intros Hx11 Hinit. unfold ImportPasswords. now rewrite Hx11, Hinit.
  - destruct (ImportPasswords_cases host p n) as [->|(backend & _ & ->)];
      [reflexivity|].
    now rewrite forward_logins_run.
Qed.

End Passwords.

Lemma credentials_forwarded_one_by_one_witness :
  USE_X11 Example.host = false /\
  Init (Login_Data Example.profile) = true /\
  GetBlacklistLogins (Login_Data Example.profile) = None /\
  out (@ImportPasswords Example.chromium Example.host Example.profile 0%nat)
  = [@SetPasswordForm Example.chromium "alice"; @SetPasswordForm Example.chromium "bob"].
Proof.
  repeat (split; [reflexivity|]).
  destruct (@credentials_forwarded_one_by_one Example.chromium
              Example.host Example.profile 0%nat) as (Hrun & _ & _ & Hdb & _).
  rewrite (Hdb eq_refl eq_refl), Hrun. reflexivity.
Defined.

(** ** The session: [StartImport] *)

Section Session.
Context `{Chromium}.
Variable cancelled_at : nat -> bool.

Lemma bind_ok {A B} (m : M A) (f : A -> M B) (n : nat) (a : A) :
  res (m n) = Ok a ->
  bind m f n =
  {| res := res (f a (clock (m n)));
     clock := clock (f a (clock (m n)));
     out := out (m n) ++ out (f a (clock (m n))) |}.
Proof. intros Hm. unfold bind. now rewrite Hm. Qed.

Lemma bind_throw {A B} (m : M A) (f : A -> M B) (n : nat) (e : Exception) :
  res (m n) = Throw e ->
  bind m f n = {| res := Throw e; clock := clock (m n); out := out (m n) |}.
Proof. intros Hm. unfold bind. now rewrite Hm. Qed.

(** The four imports return normally, the bookmark import when the roots
    can be read, and call only the data methods of the bridge. *)
Lemma ImportHistory_data (p : SourceProfile) (n : nat) :
  res (ImportHistory cancelled_at p n) = Ok tt /\
  List.filter is_signal (out (ImportHistory cancelled_at p n)) = [].
Proof.
  destruct (History p) as [| |urls] eqn:Hp;
    try (unfold ImportHistory; rewrite Hp; split; reflexivity).
  destruct (ImportHistory_run cancelled_at p n urls Hp) as [-> ->].
  split; [reflexivity|].
  destruct (history_row <$> _); [reflexivity|]. now destruct (cancelled_at _).
Qed.

Lemma ImportCookies_data (p : SourceProfile) (n : nat) :
  res (ImportCookies cancelled_at p n) = Ok tt /\
  List.filter is_signal (out (ImportCookies cancelled_at p n)) = [].
Proof.
  destruct (Cookies p) as [| |table] eqn:Hp;
    try (unfold ImportCookies; rewrite Hp; split; reflexivity).
  destruct (ImportCookies_run cancelled_at p n table Hp) as [-> ->].
  split; [reflexivity|].
  destruct (cookie_entry <$> _); [reflexivity|]. now destruct (cancelled_at _).
Qed.

Lemma ImportPasswords_data (host : Host) (p : SourceProfile) (n : nat) :
  res (ImportPasswords host p n) = Ok tt /\
  List.filter is_signal (out (ImportPasswords host p n)) = [].
Proof.
  destruct (ImportPasswords_cases host p n) as [->|(backend & _ & ->)];
    [split; reflexivity|].
  rewrite forward_logins_run. cbn [res out]. split; [reflexivity|].
  rewrite List.filter_app.
  assert (Hforms : forall forms : list PasswordForm,
             List.filter is_signal (SetPasswordForm <$> forms) = []).
  { induction forms as [|form forms IH]; [reflexivity | exact IH]. }
  now rewrite !Hforms.
Qed.

Lemma ImportFavicons_data (p : SourceProfile) (n : nat) :
  res (ImportFavicons cancelled_at p n) = Ok tt /\
  List.filter is_signal (out (ImportFavicons cancelled_at p n)) = [].
Proof.
  unfold ImportFavicons. destruct (Favicons p) as [| |db]; try (split; reflexivity).
  unfold bind. rewrite ImportFaviconURLs_run. cbn [res clock out].
  destruct (decide _); [split; reflexivity|].
  unfold cancelled. cbn [res clock out].
  destruct (cancelled_at _); split; reflexivity.
Qed.

Lemma ImportBookmarks_data (p : SourceProfile) (n : nat) :
  List.filter is_signal (out (ImportBookmarks cancelled_at p n)) = [] /\
  (bookmarks_readable p -> res (ImportBookmarks cancelled_at p n) = Ok tt).
Proof.
  unfold bookmarks_readable, ImportBookmarks. cbv zeta.
  destruct (JSONReader_Read _) as [v|]; [|split; reflexivity].
  destruct v; try (split; reflexivity).
  destruct (ReadBookmarkRoots (DICTIONARY members)) as [bookmarks|e] eqn:Hroots.
  - rewrite (bind_ok _ _ n bookmarks) by reflexivity. cbn [lift res clock out app].
    assert (Hdeliver : forall m : M unit,
      (m = ret tt \/ m = emit (AddBookmarks bookmarks "Imported from Chrome")) ->
      res (m n) = Ok tt /\ clock (m n) = n /\ List.filter is_signal (out (m n)) = []).
    { intros m [->| ->]; repeat split. }
    set (deliver := match bookmarks with [] => _ | _ => _ end).
    assert (Hd : res (deliver n) = Ok tt /\
                 List.filter is_signal (out (deliver n)) = []).
    { subst deliver. destruct bookmarks; [split; reflexivity|].
      unfold bind, cancelled. cbn [res clock out].
      destruct (cancelled_at n); split; reflexivity. }
    destruct Hd as [Hres Hout].
    rewrite (bind_ok _ _ n tt Hres). cbn [res clock out].
    destruct (ImportFavicons_data p (clock (deliver n))) as [Hfres Hfout].
    rewrite List.filter_app, Hout, Hfout. split; [reflexivity|]. intros _. exact Hfres.
  - rewrite (bind_throw _ _ n e) by reflexivity. cbn [lift res clock out].
    split; [reflexivity|]. intros Hreadable. now destruct (Hreadable members e).
Qed.

(** One block of [StartImport]: skipped without a call when the item is not
    requested or the flag is seen set, and otherwise bracketed by its two
    notifications whatever the body delivers. *)
Lemma import_item_eq (items : Z) (item : ImportItem) (body : M unit) (n : nat) :
  import_item cancelled_at items item body n =
  if requested items item then
    if cancelled_at n then {| res := Ok tt; clock := S n; out := [] |}
    else
      match res (body (S n)) with
      | Ok _ =>
          {| res := Ok tt; clock := clock (body (S n));
             out := NotifyItemStarted item :: out (body (S n)) ++ [NotifyItemEnded item] |}
      | Throw e =>
          {| res := Throw e; clock := clock (body (S n));
             out := NotifyItemStarted item :: out (body (S n)) |}
      end
  else {| res := Ok tt; clock := n; out := [] |}.
Proof.
  unfold import_item. destruct (requested items item); [|reflexivity].
  unfold bind, cancelled, emit. cbn [res clock out].
  destruct (cancelled_at n); [reflexivity|].
  now destruct (res (body (S n))).
Qed.

Lemma import_item_run (items : Z) (item : ImportItem) (body : M unit) (n : nat) :
  let ran := requested items item && negb (cancelled_at n) in
  res (body (S n)) = Ok tt ->
  List.filter is_signal (out (body (S n))) = [] ->
  res (import_item cancelled_at items item body n) = Ok tt /\
  out (import_item cancelled_at items item body n) =
    (if ran then NotifyItemStarted item :: out (body (S n)) ++ [NotifyItemEnded item]
     else []) /\
  List.filter is_signal (out (import_item cancelled_at items item body n)) =
    item_signals ran item.
Proof.
  intros ran Hres Hout. subst ran. rewrite import_item_eq, Hres.
  destruct (requested items item); cbn [andb]; [|repeat split].
  destruct (cancelled_at n); cbn [negb res clock out]; [repeat split|].
  split; [reflexivity|]. split; [reflexivity|].
  cbn [List.filter is_signal]. rewrite List.filter_app, Hout. reflexivity.
Qed.

(** A block that finds the flag set is skipped, and so is every block
    after it when the flag stays set. *)
Lemma import_item_skipped (items : Z) (item : ImportItem) (body : M unit) (n : nat) :
  cancelled_at n = true ->
  res (import_item cancelled_at items item body n) = Ok tt /\
  out (import_item cancelled_at items item body n) = [] /\
  (clock (import_item cancelled_at items item body n) = n \/
   clock (import_item cancelled_at items item body n) = S n).
Proof.
  intros Hset. rewrite import_item_eq, Hset.
  destruct (requested items item); cbn [res clock out]; auto.
Qed.

(** The protocol of a session whose bookmark roots can be read: started
    first, the four items in their order, each bracketed when it ran and
    absent otherwise, ended last and once.  [ran] is decided by the item
    mask and by the poll at the head of the block. *)
Lemma StartImport_signals (host : Host) (p : SourceProfile) (items : Z) (n : nat) :
  bookmarks_readable p ->
  let o1 := import_item cancelled_at items HISTORY (ImportHistory cancelled_at p) n in
  let o2 := import_item cancelled_at items FAVORITES (ImportBookmarks cancelled_at p)
              (clock o1) in
  let o3 := import_item cancelled_at items COOKIES (ImportCookies cancelled_at p)
              (clock o2) in
  let o4 := import_item cancelled_at items PASSWORDS (ImportPasswords host p)
              (clock o3) in
  res (StartImport cancelled_at host p items n) = Ok tt /\
  out (StartImport cancelled_at host p items n) =
    NotifyStarted :: out o1 ++ out o2 ++ out o3 ++ out o4 ++ [NotifyEnded] /\
  List.filter is_signal (out (StartImport cancelled_at host p items n)) =
    NotifyStarted ::
    item_signals (requested items HISTORY && negb (cancelled_at n)) HISTORY ++
    item_signals (requested items FAVORITES && negb (cancelled_at (clock o1))) FAVORITES ++
    item_signals (requested items COOKIES && negb (cancelled_at (clock o2))) COOKIES ++
    item_signals (requested items PASSWORDS && negb (cancelled_at (clock o3))) PASSWORDS ++
    [NotifyEnded].
Proof.
  intros Hreadable o1 o2 o3 o4.
  destruct (import_item_run items HISTORY (ImportHistory cancelled_at p) n
              (proj1 (ImportHistory_data p (S n))) (proj2 (ImportHistory_data p (S n))))
    as (Hr1 & _ & Hs1).
  destruct (import_item_run items FAVORITES (ImportBookmarks cancelled_at p) (clock o1)
              (proj2 (ImportBookmarks_data p (S (clock o1))) Hreadable)
              (proj1 (ImportBookmarks_data p (S (clock o1)))))
    as (Hr2 & _ & Hs2).
  destruct (import_item_run items COOKIES (ImportCookies cancelled_at p) (clock o2)
              (proj1 (ImportCookies_data p (S (clock o2))))
              (proj2 (ImportCookies_data p (S (clock o2)))))
    as (Hr3 & _ & Hs3).
  destruct (import_item_run items PASSWORDS (ImportPasswords host p) (clock o3)
              (proj1 (ImportPasswords_data host p (S (clock o3))))
              (proj2 (ImportPasswords_data host p (S (clock o3)))))
    as (Hr4 & _ & Hs4).
  fold o1 in Hr1, Hs1. fold o2 in Hr2, Hs2. fold o3 in Hr3, Hs3. fold o4 in Hr4, Hs4.
  assert (Hrun : StartImport cancelled_at host p items n =
                 {| res := Ok tt; clock := clock o4;
                    out := NotifyStarted ::
                           out o1 ++ out o2 ++ out o3 ++ out o4 ++ [NotifyEnded] |}).
  { unfold StartImport.
    rewrite (bind_ok (emit NotifyStarted) _ n tt eq_refl). cbn [emit res clock out].
    rewrite (bind_ok (import_item cancelled_at items HISTORY _) _ n tt Hr1).
    fold o1.
    rewrite (bind_ok (import_item cancelled_at items FAVORITES _) _ (clock o1) tt Hr2).
    fold o2.
    rewrite (bind_ok (import_item cancelled_at items COOKIES _) _ (clock o2) tt Hr3).
    fold o3.
    rewrite (bind_ok (import_item cancelled_at items PASSWORDS _) _ (clock o3) tt Hr4).
    fold o4. cbn [res clock out app]. reflexivity. }
  rewrite Hrun. cbn [res out]. split; [reflexivity|]. split; [reflexivity|].
  cbn [List.filter is_signal].
  rewrite !List.filter_app, Hs1, Hs2, Hs3, Hs4. reflexivity.
Qed.

(** X18.  The flag is set after the History step and before Favorites
    begins, and stays set: no later item is started, whatever the profile
    holds, and the end is still notified, once. *)
Lemma cancelled_after_history (host : Host) (p : SourceProfile) (items : Z) (n : nat) :
  flag_stays_set cancelled_at ->
  requested items HISTORY = true ->
  cancelled_at n = false ->
  cancelled_at (clock (ImportHistory cancelled_at p (S n))) = true ->
  res (StartImport cancelled_at host p items n) = Ok tt /\
  out (StartImport cancelled_at host p items n) =
    NotifyStarted :: NotifyItemStarted HISTORY ::
    out (ImportHistory cancelled_at p (S n)) ++ [NotifyItemEnded HISTORY; NotifyEnded] /\
  List.filter is_signal (out (StartImport cancelled_at host p items n)) =
    [NotifyStarted; NotifyItemStarted HISTORY; NotifyItemEnded HISTORY; NotifyEnded].
Proof.
  intros Hmono Hrequested Hclear Hset.
  set (o1 := import_item cancelled_at items HISTORY (ImportHistory cancelled_at p) n).
  assert (Ho1 : o1 = {| res := Ok tt; clock := clock (ImportHistory cancelled_at p (S n));
                        out := NotifyItemStarted HISTORY ::
                               out (ImportHistory cancelled_at p (S n)) ++
                               [NotifyItemEnded HISTORY] |}).
  { subst o1. rewrite import_item_eq, Hrequested, Hclear.
    now rewrite (proj1 (ImportHistory_data p (S n))). }
  set (c1 := clock (ImportHistory cancelled_at p (S n))) in *.
  destruct (import_item_skipped items FAVORITES (ImportBookmarks cancelled_at p) c1 Hset)
    as (Hr2 & Ho2 & Hc2).
  set (o2 := import_item cancelled_at items FAVORITES _ c1) in *.
  assert (Hset2 : cancelled_at (clock o2) = true).
  { apply (Hmono c1); [lia | exact Hset]. }
  destruct (import_item_skipped items COOKIES (ImportCookies cancelled_at p) _ Hset2)
    as (Hr3 & Ho3 & Hc3).
  set (o3 := import_item cancelled_at items COOKIES _ (clock o2)) in *.
  assert (Hset3 : cancelled_at (clock o3) = true).
  { apply (Hmono c1); [lia | exact Hset]. }
  destruct (import_item_skipped items PASSWORDS (ImportPasswords host p) _ Hset3)
    as (Hr4 & Ho4 & _).
  set (o4 := import_item cancelled_at items PASSWORDS _ (clock o3)) in *.
  assert (Hrun : StartImport cancelled_at host p items n =
                 {| res := Ok tt; clock := clock o4;
                    out := NotifyStarted :: NotifyItemStarted HISTORY ::
                           out (ImportHistory cancelled_at p (S n)) ++
                           [NotifyItemEnded HISTORY; NotifyEnded] |}).
  { unfold StartImport.
    rewrite (bind_ok (emit NotifyStarted) _ n tt eq_refl). cbn [emit res clock out].
    assert (Hr1 : res o1 = Ok tt) by now rewrite Ho1.
    rewrite (bind_ok (import_item cancelled_at items HISTORY _) _ n tt Hr1).
    fold o1. rewrite Ho1. cbn [res clock out]. fold c1.
    rewrite (bind_ok (import_item cancelled_at items FAVORITES _) _ c1 tt Hr2).
    fold o2. fold o3.
    rewrite (bind_ok (import_item cancelled_at items COOKIES _) _ (clock o2) tt Hr3).
    fold o3. fold o4.
    rewrite (bind_ok (import_item cancelled_at items PASSWORDS _) _ (clock o3) tt Hr4).
    fold o4. rewrite Ho2, Ho3, Ho4. cbn [res clock out app].
    rewrite <- app_assoc. reflexivity. }
  rewrite Hrun. cbn [res out]. split; [reflexivity|]. split; [reflexivity|].
  cbn [List.filter is_signal]. rewrite List.filter_app.
  rewrite (proj2 (ImportHistory_data p (S n))). reflexivity.
Qed.

End Session.

#[local] Existing Instance Example.chromium.

(** C4 at the failing input.  All four items are requested and the flag is
    never set, but the Bookmarks file holds a url node whose date_added is
    "yesterday": [std::stoll] throws inside [ImportBookmarks] and nothing
    catches it, so the run ends after [NotifyItemStarted(FAVORITES)]; the
    item is never ended, the cookies and passwords are never started, and
    [NotifyEnded] is never called. *)
Theorem misdated_bookmark_ends_session :
  let session :=
    @StartImport Example.chromium Example.never Example.host
      (Example.with_bookmarks (Some "misdated.json") Example.profile) 15 0%nat in
  requested 15 HISTORY = true /\
  requested 15 FAVORITES = true /\
  requested 15 COOKIES = true /\
  requested 15 PASSWORDS = true /\
  res session = Throw invalid_argument /\
  List.filter is_signal (out session) =
    [NotifyStarted; NotifyItemStarted HISTORY; NotifyItemEnded HISTORY;
     NotifyItemStarted FAVORITES] /\
  last (out session) = Some (NotifyItemStarted FAVORITES).
Proof.
  intros session. subst session.
  do 4 (split; [reflexivity|]).
  split; [vm_compute; reflexivity|].
  split; vm_compute; reflexivity.
Qed.

(** * Further properties of the importer *)

#[local] Remove Hints Example.chromium : typeclass_instances.

(** ** The time conversion *)

Lemma chromeTimeToDouble_from_epoch (t : Z) :
  no_overflow t -> chromeTimeToDouble t = Z.quot (t - unix_epoch) 1000000.
Proof.
  intros Ht. rewrite chromeTimeToDouble_no_overflow by exact Ht.
  rewrite Z.quot_quot by lia. unfold unix_epoch.
  replace (t * 10 - 11644473600 * 10 ^ 7)
    with (10 * (t - 11644473600 * 1000000)) by (change (10 ^ 7) with 10000000; lia).
  change (10000 * 1000) with (10 * 1000000).
  apply Z.quot_mul_cancel_l; lia.
Qed.

(** X1.  On the timestamps that do not overflow the conversion keeps the
    order: a later source timestamp never converts to an earlier time. *)
Theorem chromeTimeToDouble_monotone (t1 t2 : Z) :
  no_overflow t1 -> no_overflow t2 -> t1 <= t2 ->
  chromeTimeToDouble t1 <= chromeTimeToDouble t2.
Proof.
  intros H1 H2 Hle.
  rewrite !chromeTimeToDouble_from_epoch by assumption.
  apply Z.quot_le_mono; lia.
Qed.

Lemma chromeTimeToDouble_monotone_witness :
  chromeTimeToDouble 12879119098092474 <= chromeTimeToDouble 13000000000000000.
Proof.
  apply chromeTimeToDouble_monotone.
  - unfold no_overflow, LLONG_MIN, LLONG_MAX. split; vm_compute; discriminate.
  - unfold no_overflow, LLONG_MIN, LLONG_MAX. split; vm_compute; discriminate.
  - vm_compute. discriminate.
Defined.

(** X2.  The conversion counts whole seconds from the Unix epoch and
    rounds towards the epoch: from the epoch on it is the floor of the
    microseconds elapsed over 10^6, before the epoch it is minus the floor
    of the microseconds remaining, so that the result is 0 exactly on the
    two seconds around the epoch. *)
Theorem chromeTimeToDouble_whole_seconds (t : Z) :
  no_overflow t ->
  (unix_epoch <= t -> chromeTimeToDouble t = (t - unix_epoch) / 1000000)
  /\ (t <= unix_epoch -> chromeTimeToDouble t = - ((unix_epoch - t) / 1000000))
  /\ (chromeTimeToDouble t = 0 <->
      unix_epoch - 1000000 < t < unix_epoch + 1000000).
Proof.
  intros Ht. rewrite chromeTimeToDouble_from_epoch by exact Ht.
  assert (Hafter : unix_epoch <= t ->
            Z.quot (t - unix_epoch) 1000000 = (t - unix_epoch) / 1000000).
  { intros Hle. apply Z.quot_div_nonneg; lia. }
  assert (Hbefore : t <= unix_epoch ->
            Z.quot (t - unix_epoch) 1000000 = - ((unix_epoch - t) / 1000000)).
  { intros Hle. replace (t - unix_epoch) with (- (unix_epoch - t)) by lia.
    rewrite Z.quot_opp_l by lia. f_equal. apply Z.quot_div_nonneg; lia. }
  split; [exact Hafter|]. split; [exact Hbefore|].
  destruct (Z.le_ge_cases unix_epoch t) as [Hle|Hge].
  - rewrite (Hafter Hle). rewrite Z.div_small_iff by lia. lia.
  - rewrite (Hbefore Hge).
    assert (Hiff : (unix_epoch - t) / 1000000 = 0 <->
                   0 <= unix_epoch - t < 1000000 \/ 1000000 < unix_epoch - t <= 0).
    { apply Z.div_small_iff. lia. }
    lia.
Qed.

Lemma chromeTimeToDouble_whole_seconds_witness :
  chromeTimeToDouble (unix_epoch - 999999) = 0 /\
  chromeTimeToDouble (unix_epoch + 999999) = 0 /\
  chromeTimeToDouble 12879119098092474 = (12879119098092474 - unix_epoch) / 1000000.
Proof.
  assert (Hdomain : forall t, unix_epoch - 1000000 < t < 13000000000000000 -> no_overflow t).
  { intros t. unfold unix_epoch, no_overflow, LLONG_MIN, LLONG_MAX.
    change (2 ^ 63) with 9223372036854775808. lia. }
  split; [|split].
  - apply (chromeTimeToDouble_whole_seconds (unix_epoch - 999999)).
    + apply Hdomain. unfold unix_epoch. lia.
    + lia.
  - apply (chromeTimeToDouble_whole_seconds (unix_epoch + 999999)).
    + apply Hdomain. unfold unix_epoch. lia.
    + lia.
  - apply (chromeTimeToDouble_whole_seconds 12879119098092474).
    + apply Hdomain. unfold unix_epoch. lia.
    + unfold unix_epoch. lia.
Defined.

(** ** The session *)

Section SessionProperties.
Context `{Chromium}.
Variable cancelled_at : nat -> bool.

Lemma elem_of_out_bind {A B} (m : M A) (f : A -> M B) (n : nat) (e : Event) :
  e ∈ out (bind m f n) ->
  e ∈ out (m n) \/ exists a, e ∈ out (f a (clock (m n))).
Proof.
  unfold bind. destruct (res (m n)) as [a|x]; cbn [out]; [|now left].
  intros He. apply elem_of_app in He as [He|He]; [now left|]. right. now exists a.
Qed.

(** The shape of what each import hands over: history and cookies as at
    most one batch, which is never empty; bookmarks as at most one batch,
    never empty, followed by at most one list of favicons. *)
Lemma ImportHistory_shape (p : SourceProfile) (n : nat) :
  out (ImportHistory cancelled_at p n) = [] \/
  exists row rows,
    out (ImportHistory cancelled_at p n) =
      [SetHistoryItems (row :: rows) VISIT_SOURCE_CHROME_IMPORTED].
Proof.
  destruct (History p) as [| |urls] eqn:Hp;
    try (left; unfold ImportHistory; now rewrite Hp).
  destruct (ImportHistory_run cancelled_at p n urls Hp) as [_ ->].
  destruct (history_row <$> _) as [|row rows]; [now left|].
  destruct (cancelled_at _); [now left|]. right. now exists row, rows.
Qed.

Lemma ImportCookies_shape (p : SourceProfile) (n : nat) :
  out (ImportCookies cancelled_at p n) = [] \/
  exists cookie cookies,
    out (ImportCookies cancelled_at p n) = [SetCookies (cookie :: cookies)].
Proof.
  destruct (Cookies p) as [| |table] eqn:Hp;
    try (left; unfold ImportCookies; now rewrite Hp).
  destruct (ImportCookies_run cancelled_at p n table Hp) as [_ ->].
  destruct (cookie_entry <$> _) as [|cookie cookies]; [now left|].
  destruct (cancelled_at _); [now left|]. right. now exists cookie, cookies.
Qed.

Lemma ImportFavicons_shape (p : SourceProfile) (n : nat) :
  out (ImportFavicons cancelled_at p n) = [] \/
  exists db favicon_map,
    Favicons p = Opened db /\ favicon_map <> [] /\
    res (ImportFaviconURLs cancelled_at db [] n) = Ok favicon_map /\
    out (ImportFavicons cancelled_at p n) =
      [SetFavicons (LoadFaviconData db favicon_map [])].
Proof.
  unfold ImportFavicons. destruct (Favicons p) as [| |db]; try now left.
  unfold bind. rewrite ImportFaviconURLs_run. cbn [res clock out].
  destruct (decide _) as [|Hne]; [now left|].
  unfold cancelled. cbn [res clock out].
  destruct (cancelled_at _); [now left|]. right.
  eexists db, _. split; [reflexivity|]. split; [exact Hne|].
  split; [now rewrite ImportFaviconURLs_run | reflexivity].
Qed.

Lemma ImportBookmarks_shape (p : SourceProfile) (n : nat) :
  exists delivered favicons,
    out (ImportBookmarks cancelled_at p n) = delivered ++ favicons /\
    (delivered = [] \/
     exists members entry entries,
       JSONReader_Read (default "" (Bookmarks p)) = Some (DICTIONARY members) /\
       ReadBookmarkRoots (DICTIONARY members) = Ok (entry :: entries) /\
       delivered = [AddBookmarks (entry :: entries) "Imported from Chrome"]) /\
    (favicons = [] \/ exists m, favicons = out (ImportFavicons cancelled_at p m)).
Proof.
  unfold ImportBookmarks. cbv zeta.
  destruct (JSONReader_Read _) as [v|] eqn:Hparse;
    [|exists [], []; split; [reflexivity | split; now left]].
  destruct v; try (exists [], []; split; [reflexivity | split; now left]).
  destruct (ReadBookmarkRoots (DICTIONARY members)) as [bookmarks|e] eqn:Hroots.
  - rewrite (bind_ok _ _ n bookmarks) by reflexivity. cbn [lift res clock out app].
    destruct bookmarks as [|entry entries].
    + rewrite (bind_ok _ _ n tt) by reflexivity. cbn [ret res clock out app].
      exists [], (out (ImportFavicons cancelled_at p n)).
      split; [reflexivity|]. split; [now left | right; now exists n].
    + unfold bind, cancelled. cbn [res clock out].
      destruct (cancelled_at n).
      * cbn [ret res clock out app].
        exists [], (out (ImportFavicons cancelled_at p (S n))).
        split; [reflexivity|]. split; [now left | right; now exists (S n)].
      * cbn [emit res clock out app].
        eexists [_], (out (ImportFavicons cancelled_at p (S n))).
        split; [reflexivity|]. split; [|right; now exists (S n)].
        right. exists members, entry, entries. auto.
  - rewrite (bind_throw _ _ n e) by reflexivity. cbn [lift res clock out].
    exists [], []. split; [reflexivity | split; now left].
Qed.

Lemma import_item_event (items : Z) (item : ImportItem) (body : M unit)
    (n : nat) (e : Event) :
  e ∈ out (import_item cancelled_at items item body n) ->
  requested items item = true /\
  (e = NotifyItemStarted item \/ e = NotifyItemEnded item \/ e ∈ out (body (S n))).
Proof.
  intros He. rewrite import_item_eq in He.
  destruct (requested items item); [|now apply elem_of_nil in He].
  destruct (cancelled_at n); [now apply elem_of_nil in He|].
  split; [reflexivity|].
  destruct (res (body (S n))); cbn [out] in He.
  - apply elem_of_cons in He as [->|He]; [now left|].
    apply elem_of_app in He as [He|He]; [now right; right|].
    apply list_elem_of_singleton in He. now right; left.
  - apply elem_of_cons in He as [->|He]; [now left | now right; right].
Qed.

(** Every call a session makes on the bridge, also in a run that an
    exception ends, is one of the two session notifications, a bracket of a
    requested item, or a call made by the import of a requested item. *)
Lemma StartImport_event (host : Host) (p : SourceProfile) (items : Z) (n : nat)
    (e : Event) :
  e ∈ out (StartImport cancelled_at host p items n) ->
  e = NotifyStarted \/ e = NotifyEnded \/
  exists item m,
    requested items item = true /\
    (e = NotifyItemStarted item \/ e = NotifyItemEnded item \/
     e ∈ out (match item with
              | HISTORY => ImportHistory cancelled_at p
              | FAVORITES => ImportBookmarks cancelled_at p
              | COOKIES => ImportCookies cancelled_at p
              | PASSWORDS => ImportPasswords host p
              end m)).
Proof.
  unfold StartImport. intros He.
  apply elem_of_out_bind in He as [He|[_ He]].
  { apply list_elem_of_singleton in He. now left. }
  apply elem_of_out_bind in He as [He|[_ He]].
  { apply import_item_event in He as [Hreq He]. right; right.
    exists HISTORY. eexists. split; [exact Hreq | exact He]. }
  apply elem_of_out_bind in He as [He|[_ He]].
  { apply import_item_event in He as [Hreq He]. right; right.
    exists FAVORITES. eexists. split; [exact Hreq | exact He]. }
  apply elem_of_out_bind in He as [He|[_ He]].
  { apply import_item_event in He as [Hreq He]. right; right.
    exists COOKIES. eexists. split; [exact Hreq | exact He]. }
  apply elem_of_out_bind in He as [He|[_ He]].
  { apply import_item_event in He as [Hreq He]. right; right.
    exists PASSWORDS. eexists. split; [exact Hreq | exact He]. }
  apply list_elem_of_singleton in He. now right; left.
Qed.

(** The calls of each import belong to its own category. *)
Lemma import_event_item (host : Host) (p : SourceProfile) (item : ImportItem)
    (m : nat) (e : Event) :
  e ∈ out (match item with
           | HISTORY => ImportHistory cancelled_at p
           | FAVORITES => ImportBookmarks cancelled_at p
           | COOKIES => ImportCookies cancelled_at p
           | PASSWORDS => ImportPasswords host p
           end m) ->
  event_item e = Some item /\ is_signal e = false.
Proof.
  destruct item.
  - destruct (ImportHistory_shape p m) as [->|(row & rows & ->)];
      intros He; [now apply elem_of_nil in He|].
    apply list_elem_of_singleton in He as ->. split; reflexivity.
  - destruct (ImportBookmarks_shape p m) as (delivered & favicons & -> & Hd & Hf).
    intros He. apply elem_of_app in He as [He|He].
    + destruct Hd as [->|(members & entry & entries & _ & _ & ->)];
        [now apply elem_of_nil in He|].
      apply list_elem_of_singleton in He as ->. split; reflexivity.
    + destruct Hf as [->|(m' & ->)]; [now apply elem_of_nil in He|].
      destruct (ImportFavicons_shape p m') as [Hout|(db & fm & _ & _ & _ & Hout)];
        rewrite Hout in He; [now apply elem_of_nil in He|].
      apply list_elem_of_singleton in He as ->. split; reflexivity.
  - destruct (ImportCookies_shape p m) as [->|(cookie & cookies & ->)];
      intros He; [now apply elem_of_nil in He|].
    apply list_elem_of_singleton in He as ->. split; reflexivity.
  - destruct (ImportPasswords_cases host p m) as [->|(backend & _ & ->)];
      intros He; [now apply elem_of_nil in He|].
    rewrite forward_logins_run in He. cbn [out] in He.
    apply elem_of_app in He as [He|He];
      apply list_elem_of_fmap in He as (form & -> & _); split; reflexivity.
Qed.

(** X3.  In every run, also one that an exception ends, the bridge is
    called for a category only if the item mask requests it: no
    notification and no data of an unrequested category is ever sent. *)
Theorem unrequested_items_untouched (host : Host) (p : SourceProfile) (items : Z)
    (n : nat) (e : Event) (item : ImportItem) :
  e ∈ out (StartImport cancelled_at host p items n) ->
  event_item e = Some item ->
  requested items item = true.
Proof.
  intros He Hitem.
  apply StartImport_event in He
    as [->|[->|(item' & m & Hreq & [->|[->|He]])]]; try discriminate.
  - now injection Hitem as <-.
  - now injection Hitem as <-.
  - apply import_event_item in He as [He _]. congruence.
Qed.

(** X4.  No batch is ever empty: in every run the history, bookmark and
    cookie calls carry at least one record, and the bookmarks are filed
    under "Imported from Chrome". *)
Theorem batches_are_not_empty (host : Host) (p : SourceProfile) (items : Z)
    (n : nat) :
  (forall rows src,
      SetHistoryItems rows src ∈ out (StartImport cancelled_at host p items n) ->
      rows <> [] /\ src = VISIT_SOURCE_CHROME_IMPORTED)
  /\ (forall bookmarks folder,
      AddBookmarks bookmarks folder ∈ out (StartImport cancelled_at host p items n) ->
      bookmarks <> [] /\ folder = "Imported from Chrome")
  /\ (forall cookies,
      SetCookies cookies ∈ out (StartImport cancelled_at host p items n) ->
      cookies <> []).
Proof.
  split; [|split].
  - intros rows src He.
    apply StartImport_event in He
      as [He|[He|(item & m & _ & [He|[He|He]])]]; try discriminate.
    destruct item;
      try (apply (import_event_item host p FAVORITES) in He as [He _]; discriminate);
      try (apply (import_event_item host p COOKIES) in He as [He _]; discriminate);
      try (apply (import_event_item host p PASSWORDS) in He as [He _]; discriminate).
    destruct (ImportHistory_shape p m) as [Hout|(row & l & Hout)];
      rewrite Hout in He; [now apply elem_of_nil in He|].
    apply list_elem_of_singleton in He. destruct src.
    injection He as ->. now split.
  - intros bookmarks folder He.
    apply StartImport_event in He
      as [He|[He|(item & m & _ & [He|[He|He]])]]; try discriminate.
    destruct item;
      try (apply (import_event_item host p HISTORY) in He as [He _]; discriminate);
      try (apply (import_event_item host p COOKIES) in He as [He _]; discriminate);
      try (apply (import_event_item host p PASSWORDS) in He as [He _]; discriminate).
    destruct (ImportBookmarks_shape p m) as (delivered & favicons & Hout & Hd & Hf).
    rewrite Hout in He. apply elem_of_app in He as [He|He].
    + destruct Hd as [->|(members & entry & entries & _ & _ & ->)];
        [now apply elem_of_nil in He|].
      apply list_elem_of_singleton in He. injection He as -> ->. now split.
    + destruct Hf as [->|(m' & ->)]; [now apply elem_of_nil in He|].
      destruct (ImportFavicons_shape p m') as [Hf|(db & fm & _ & _ & _ & Hf)];
        rewrite Hf in He; [now apply elem_of_nil in He|].
      apply list_elem_of_singleton in He. discriminate.
  - intros cookies He.
    apply StartImport_event in He
      as [He|[He|(item & m & _ & [He|[He|He]])]]; try discriminate.
    destruct item;
      try (apply (import_event_item host p HISTORY) in He as [He _]; discriminate);
      try (apply (import_event_item host p FAVORITES) in He as [He _]; discriminate);
      try (apply (import_event_item host p PASSWORDS) in He as [He _]; discriminate).
    destruct (ImportCookies_shape p m) as [Hout|(cookie & l & Hout)];
      rewrite Hout in He; [now apply elem_of_nil in He|].
    apply list_elem_of_singleton in He. injection He as ->. discriminate.
Qed.

(** X5.  A session whose bookmark roots can be read returns normally and
    its notifications are: started; then for History, Favorites, Cookies
    and Passwords in this order the pair item started, item ended when the
    item ran, and nothing when it did not; then ended, once.  An item runs
    only if it is requested, and when the flag is never set the items that
    run are exactly the requested ones, whether or not they find data. *)
Theorem session_protocol (host : Host) (p : SourceProfile) (items : Z) (n : nat) :
  bookmarks_readable p ->
  exists ran : ImportItem -> bool,
    res (StartImport cancelled_at host p items n) = Ok tt /\
    List.filter is_signal (out (StartImport cancelled_at host p items n)) =
      NotifyStarted ::
      item_signals (ran HISTORY) HISTORY ++ item_signals (ran FAVORITES) FAVORITES ++
      item_signals (ran COOKIES) COOKIES ++ item_signals (ran PASSWORDS) PASSWORDS ++
      [NotifyEnded] /\
    (forall item, ran item = true -> requested items item = true) /\
    (never_cancelled cancelled_at -> forall item, ran item = requested items item).
Proof.
  intros Hreadable.
  destruct (StartImport_signals cancelled_at host p items n Hreadable)
    as (Hres & _ & Hsignals).
  cbv zeta in Hsignals.
  set (c1 := clock (import_item cancelled_at items HISTORY
                      (ImportHistory cancelled_at p) n)) in *.
  set (c2 := clock (import_item cancelled_at items FAVORITES
                      (ImportBookmarks cancelled_at p) c1)) in *.
  set (c3 := clock (import_item cancelled_at items COOKIES
                      (ImportCookies cancelled_at p) c2)) in *.
  exists (fun item =>
            requested items item &&
            negb (cancelled_at match item with
                               | HISTORY => n
                               | FAVORITES => c1
                               | COOKIES => c2
                               | PASSWORDS => c3
                               end)).
  split; [exact Hres|]. split; [exact Hsignals|]. split.
  - intros item Hran. now apply andb_prop in Hran as [Hreq _].
  - intros Hnever item. rewrite Hnever. apply andb_true_r.
Qed.

(** X6.  A session that starts with the flag already set, the flag staying
    set, notifies started and ended and does nothing in between, whatever
    the item mask and the profile. *)
Theorem cancelled_session_does_nothing (host : Host) (p : SourceProfile)
    (items : Z) (n : nat) :
  flag_stays_set cancelled_at ->
  cancelled_at n = true ->
  res (StartImport cancelled_at host p items n) = Ok tt /\
  out (StartImport cancelled_at host p items n) = [NotifyStarted; NotifyEnded].
Proof.
  intros Hmono Hset.
  assert (Hlater : forall m, (n <= m)%nat -> cancelled_at m = true).
  { intros m Hm. now apply (Hmono n). }
  destruct (import_item_skipped cancelled_at items HISTORY
              (ImportHistory cancelled_at p) n Hset) as (Hr1 & Ho1 & Hc1).
  set (o1 := import_item cancelled_at items HISTORY _ n) in *.
  assert (Hn1 : (n <= clock o1)%nat) by lia.
  destruct (import_item_skipped cancelled_at items FAVORITES
              (ImportBookmarks cancelled_at p) (clock o1) (Hlater _ Hn1))
    as (Hr2 & Ho2 & Hc2).
  set (o2 := import_item cancelled_at items FAVORITES _ (clock o1)) in *.
  assert (Hn2 : (n <= clock o2)%nat) by lia.
  destruct (import_item_skipped cancelled_at items COOKIES
              (ImportCookies cancelled_at p) (clock o2) (Hlater _ Hn2))
    as (Hr3 & Ho3 & Hc3).
  set (o3 := import_item cancelled_at items COOKIES _ (clock o2)) in *.
  assert (Hn3 : (n <= clock o3)%nat) by lia.
  destruct (import_item_skipped cancelled_at items PASSWORDS
              (ImportPasswords host p) (clock o3) (Hlater _ Hn3))
    as (Hr4 & Ho4 & _).
  set (o4 := import_item cancelled_at items PASSWORDS _ (clock o3)) in *.
  unfold StartImport.
  rewrite (bind_ok (emit NotifyStarted) _ n tt eq_refl). cbn [emit res clock out].
  rewrite (bind_ok (import_item cancelled_at items HISTORY _) _ n tt Hr1). fold o1.
  rewrite (bind_ok (import_item cancelled_at items FAVORITES _) _ (clock o1) tt Hr2).
  fold o2.
  rewrite (bind_ok (import_item cancelled_at items COOKIES _) _ (clock o2) tt Hr3).
  fold o3.
  rewrite (bind_ok (import_item cancelled_at items PASSWORDS _) _ (clock o3) tt Hr4).
  fold o4. rewrite Ho1, Ho2, Ho3, Ho4. cbn [res out app]. split; reflexivity.
Qed.

(** X7.  Missing files are not errors.  When the History and Cookies
    databases are missing or cannot be opened, there is no Bookmarks file
    and the login database does not initialise, a session that is not
    cancelled still brackets every requested item and delivers no data. *)
Theorem missing_files_are_not_errors (host : Host) (p : SourceProfile)
    (items : Z) (n : nat) :
  never_cancelled cancelled_at ->
  (forall urls, History p <> Opened urls) ->
  Bookmarks p = None ->
  (forall table, Cookies p <> Opened table) ->
  USE_X11 host = false ->
  Init (Login_Data p) = false ->
  res (StartImport cancelled_at host p items n) = Ok tt /\
  out (StartImport cancelled_at host p items n) =
    NotifyStarted ::
    item_signals (requested items HISTORY) HISTORY ++
    item_signals (requested items FAVORITES) FAVORITES ++
    item_signals (requested items COOKIES) COOKIES ++
    item_signals (requested items PASSWORDS) PASSWORDS ++ [NotifyEnded].
Proof.
  intros Hnever Hhistory Hbookmarks Hcookies Hx11 Hinit.
  assert (Hreadable : bookmarks_readable p).
  { intros members e Hparse. rewrite Hbookmarks in Hparse. cbn in Hparse.
    rewrite JSONReader_Read_empty in Hparse. discriminate. }
  assert (Hh : forall m, ImportHistory cancelled_at p m =
                         {| res := Ok tt; clock := m; out := [] |}).
  { intros m. unfold ImportHistory. destruct (History p) as [| |urls] eqn:Hp;
      try reflexivity. now destruct (Hhistory urls). }
  assert (Hb : forall m, ImportBookmarks cancelled_at p m =
                         {| res := Ok tt; clock := m; out := [] |}).
  { intros m. unfold ImportBookmarks. rewrite Hbookmarks. cbv zeta.
    cbn [from_option id]. now rewrite JSONReader_Read_empty. }
  assert (Hc : forall m, ImportCookies cancelled_at p m =
                         {| res := Ok tt; clock := m; out := [] |}).
  { intros m. unfold ImportCookies. destruct (Cookies p) as [| |table] eqn:Hp;
      try reflexivity. now destruct (Hcookies table). }
  assert (Hp : forall m, ImportPasswords host p m =
                         {| res := Ok tt; clock := m; out := [] |}).
  { intros m. unfold ImportPasswords. now rewrite Hx11, Hinit. }
  assert (Hitem : forall item body m,
             (forall k, body k = {| res := Ok tt; clock := k; out := [] |}) ->
             out (import_item cancelled_at items item body m) =
             item_signals (requested items item) item).
  { intros item body m Hbody. rewrite import_item_eq, Hnever, Hbody.
    now destruct (requested items item). }
  destruct (StartImport_signals cancelled_at host p items n Hreadable)
    as (Hres & Hout & _).
  split; [exact Hres|]. cbv zeta in Hout. rewrite Hout.
  now rewrite !Hitem by assumption.
Qed.

End SessionProperties.

Lemma set_from_stays_set (k : nat) : flag_stays_set (Example.set_from k).
Proof.
  intros m n Hmn Hm. unfold Example.set_from in *.
  apply Nat.leb_le. apply Nat.leb_le in Hm. lia.
Defined.

Lemma example_profile_readable : @bookmarks_readable Example.chromium Example.profile.
Proof.
  intros members e Hparse Hthrow. vm_compute in Hparse.
  injection Hparse as <-. vm_compute in Hthrow. discriminate.
Defined.

Lemma unrequested_items_untouched_witness :
  @NotifyItemStarted Example.chromium COOKIES
    ∈ out (@StartImport Example.chromium Example.never Example.host Example.profile
             15 0%nat) /\
  @requested Example.chromium 15 COOKIES = true.
Proof.
  assert (Hin : @NotifyItemStarted Example.chromium COOKIES
                  ∈ out (@StartImport Example.chromium Example.never Example.host
                           Example.profile 15 0%nat)).
  { apply (list_elem_of_lookup_2 _ 8%nat). vm_compute. reflexivity. }
  split; [exact Hin|].
  exact (@unrequested_items_untouched Example.chromium Example.never Example.host
           Example.profile 15 0%nat _ COOKIES Hin eq_refl).
Defined.

Lemma batches_are_not_empty_witness :
  SetCookies (cookie_entry <$> [Example.plain_cookie; Example.theme_cookie])
    ∈ out (@StartImport Example.chromium Example.never Example.host Example.profile
             15 0%nat) /\
  cookie_entry <$> [Example.plain_cookie; Example.theme_cookie] <> [].
Proof.
  assert (Hin : SetCookies (cookie_entry <$> [Example.plain_cookie; Example.theme_cookie])
                  ∈ out (@StartImport Example.chromium Example.never Example.host
                           Example.profile 15 0%nat)).
  { apply (list_elem_of_lookup_2 _ 9%nat). vm_compute. reflexivity. }
  split; [exact Hin|].
  destruct (@batches_are_not_empty Example.chromium Example.never Example.host
              Example.profile 15 0%nat) as (_ & _ & Hcookies).
  exact (Hcookies _ Hin).
Defined.

Lemma session_protocol_witness :
  @bookmarks_readable Example.chromium Example.profile /\
  never_cancelled Example.never /\
  List.filter (@is_signal Example.chromium)
    (out (@StartImport Example.chromium Example.never Example.host Example.profile
            15 0%nat)) =
  [NotifyStarted;
   NotifyItemStarted HISTORY; NotifyItemEnded HISTORY;
   NotifyItemStarted FAVORITES; NotifyItemEnded FAVORITES;
   NotifyItemStarted COOKIES; NotifyItemEnded COOKIES;
   NotifyItemStarted PASSWORDS; NotifyItemEnded PASSWORDS;
   NotifyEnded].
Proof.
  split; [exact example_profile_readable|]. split; [exact never_is_never_cancelled|].
  destruct (@session_protocol Example.chromium Example.never Example.host
              Example.profile 15 0%nat example_profile_readable)
    as (ran & _ & Hsignals & _ & Hall).
  rewrite Hsignals, !(Hall never_is_never_cancelled). reflexivity.
Defined.

Lemma cancelled_session_does_nothing_witness :
  flag_stays_set (Example.set_from 0) /\
  Example.set_from 0 0%nat = true /\
  out (@StartImport Example.chromium (Example.set_from 0) Example.host Example.profile
         15 0%nat) = [NotifyStarted; NotifyEnded].
Proof.
  split; [exact (set_from_stays_set 0)|]. split; [reflexivity|].
  exact (proj2 (@cancelled_session_does_nothing Example.chromium (Example.set_from 0)
                  Example.host Example.profile 15 0%nat
                  (set_from_stays_set 0) eq_refl)).
Defined.

Lemma missing_files_are_not_errors_witness :
  out (@StartImport Example.chromium Example.never Example.host Example.empty_profile
         15 0%nat) =
  [NotifyStarted;
   NotifyItemStarted HISTORY; NotifyItemEnded HISTORY;
   NotifyItemStarted FAVORITES; NotifyItemEnded FAVORITES;
   NotifyItemStarted COOKIES; NotifyItemEnded COOKIES;
   NotifyItemStarted PASSWORDS; NotifyItemEnded PASSWORDS;
   NotifyEnded].
Proof.
  refine (proj2 (@missing_files_are_not_errors Example.chromium Example.never
                   Example.host Example.empty_profile 15 0%nat
                   never_is_never_cancelled _ eq_refl _ eq_refl eq_refl));
    intros content; discriminate.
Defined.

Lemma cancelled_after_history_witness :
  flag_stays_set (Example.set_from 5) /\
  Example.set_from 5 4%nat = false /\
  List.filter (@is_signal Example.chromium)
    (out (@StartImport Example.chromium (Example.set_from 5) Example.host Example.profile
            15 0%nat)) =
  [NotifyStarted; NotifyItemStarted HISTORY; NotifyItemEnded HISTORY; NotifyEnded].
Proof.
  split; [exact (set_from_stays_set 5)|]. split; [reflexivity|].
  destruct (@cancelled_after_history Example.chromium (Example.set_from 5) Example.host
              Example.profile 15 0%nat (set_from_stays_set 5) eq_refl eq_refl eq_refl)
    as (_ & _ & Hsignals).
  exact Hsignals.
Defined.

(** ** The bookmark walk and the bookmark roots *)

Section WalkProperties.
Context `{Chromium}.

Lemma rmap_app_assoc (acc more : list ImportedBookmarkEntry)
    (r : Result (list ImportedBookmarkEntry)) :
  rmap (app acc) (rmap (app more) r) = rmap (app (acc ++ more)) r.
Proof. destruct r; cbn [rmap]; [now rewrite app_assoc | reflexivity]. Qed.

Lemma visit_children_appends (children : list Value) (parent_path : list string)
    (is_in_toolbar : bool) :
  (forall child, child ∈ children ->
     forall path tb acc,
       RecursiveReadBookmarksFolder child path tb acc =
       rmap (app acc) (RecursiveReadBookmarksFolder child path tb [])) ->
  forall acc,
    visit_children RecursiveReadBookmarksFolder parent_path is_in_toolbar children acc =
    rmap (app acc)
      (visit_children RecursiveReadBookmarksFolder parent_path is_in_toolbar children []).
Proof.
  induction children as [|value rest IH]; intros Hrec acc.
  - cbn [visit_children rmap]. now rewrite app_nil_r.
  - assert (Hrest : forall acc,
               visit_children RecursiveReadBookmarksFolder parent_path is_in_toolbar
                 rest acc =
               rmap (app acc)
                 (visit_children RecursiveReadBookmarksFolder parent_path
                    is_in_toolbar rest [])).
    { apply IH. intros child Hchild. apply Hrec. now apply list_elem_of_further. }
    cbn [visit_children].
    destruct (GetAsDictionary value); [|apply Hrest].
    destruct (String.eqb (GetString "type" value) "folder").
    + destruct (stoll _) as [t|e]; cbn [rbind rmap]; [|reflexivity].
      rewrite (Hrec value (list_elem_of_here _ _) _ _ (acc ++ _)).
      rewrite (Hrec value (list_elem_of_here _ _) _ _ ([] ++ _)).
      destruct (RecursiveReadBookmarksFolder value _ false []) as [below|e];
        cbn [rbind rmap]; [|reflexivity].
      rewrite (Hrest ((acc ++ _) ++ below)), (Hrest (([] ++ _) ++ below)).
      rewrite rmap_app_assoc. cbn [app]. now rewrite <- !app_assoc.
    + destruct (String.eqb (GetString "type" value) "url"); [|apply Hrest].
      destruct (stoll _) as [t|e]; cbn [rbind rmap]; [|reflexivity].
      rewrite (Hrest (acc ++ _)), (Hrest ([] ++ _)).
      rewrite rmap_app_assoc. reflexivity.
Qed.

(** The walk from a vector is the walk from the empty vector, appended. *)
Lemma RecursiveReadBookmarksFolder_app (folder : Value) (parent_path : list string)
    (is_in_toolbar : bool) (bookmarks : list ImportedBookmarkEntry) :
  RecursiveReadBookmarksFolder folder parent_path is_in_toolbar bookmarks =
  rmap (app bookmarks)
    (RecursiveReadBookmarksFolder folder parent_path is_in_toolbar []).
Proof.
  revert parent_path is_in_toolbar bookmarks.
  remember (Value_size folder) as size eqn:Hsize. revert folder Hsize.
  induction size as [size IH] using lt_wf_ind.
  intros folder -> parent_path is_in_toolbar bookmarks.
  rewrite !RecursiveReadBookmarksFolder_eq.
  destruct (GetList "children" folder) as [children|] eqn:Hchildren.
  - apply visit_children_appends. intros child Hchild path tb acc.
    apply (IH (Value_size child)); [|reflexivity].
    now apply (GetList_size "children" folder child children).
  - cbn [rmap]. now rewrite app_nil_r.
Qed.

(** X8.  The walk only appends: whatever vector it is given, it returns
    that vector followed by the entries of the folder, or throws the same
    exception; the entries and the exception do not depend on what the
    vector held. *)
Theorem walk_appends (folder : Value) (parent_path : list string)
    (is_in_toolbar : bool) :
  match RecursiveReadBookmarksFolder folder parent_path is_in_toolbar [] with
  | Ok entries =>
      forall bookmarks,
        RecursiveReadBookmarksFolder folder parent_path is_in_toolbar bookmarks =
        Ok (bookmarks ++ entries)
  | Throw e =>
      forall bookmarks,
        RecursiveReadBookmarksFolder folder parent_path is_in_toolbar bookmarks =
        Throw e
  end.
Proof.
  destruct (RecursiveReadBookmarksFolder folder parent_path is_in_toolbar [])
    as [entries|e] eqn:Hwalk; intros bookmarks;
    now rewrite RecursiveReadBookmarksFolder_app, Hwalk.
Qed.

(** X9.  The entries read from the roots are those of the bookmark bar
    followed by those of "other", each root walked on its own; a root that
    is absent contributes nothing, and an exception in either walk leaves
    no entries at all, those of the bookmark bar included. *)
Theorem bookmark_roots_compose (bookmark_dict : Value) :
  let root_entries roots key is_in_toolbar :=
    match GetDictionary key roots with
    | Some root =>
        RecursiveReadBookmarksFolder root [GetString "name" root] is_in_toolbar []
    | None => Ok []
    end in
  ReadBookmarkRoots bookmark_dict =
  match GetDictionary "roots" bookmark_dict with
  | Some roots =>
      rbind (root_entries roots "bookmark_bar" true)
        (fun bar => rmap (app bar) (root_entries roots "other" false))
  | None => Ok []
  end.
Proof.
  intros root_entries. unfold ReadBookmarkRoots, root_entries.
  destruct (GetDictionary "roots" bookmark_dict) as [roots|]; [|reflexivity].
  destruct (GetDictionary "bookmark_bar" roots) as [bookmark_bar|].
  - destruct (RecursiveReadBookmarksFolder bookmark_bar _ true []) as [bar|e];
      cbn [rbind]; [|reflexivity].
    destruct (GetDictionary "other" roots) as [other|].
    + apply RecursiveReadBookmarksFolder_app.
    + cbn [rmap]. now rewrite app_nil_r.
  - cbn [rbind]. destruct (GetDictionary "other" roots) as [other|]; [|reflexivity].
    now destruct (RecursiveReadBookmarksFolder other _ false []).
Qed.

(** X10.  Children that are not dictionaries, or whose type is missing or
    is neither "folder" nor "url", leave no trace: a folder is walked as
    if it held its other children only, and a folder holding only such
    children adds nothing to the vector. *)
Theorem malformed_children_are_skipped (folder folder' : Value)
    (children : list Value) (parent_path : list string) (is_in_toolbar : bool)
    (bookmarks : list ImportedBookmarkEntry) :
  GetList "children" folder = Some children ->
  (GetList "children" folder' = Some (List.filter is_bookmark_node children) ->
   RecursiveReadBookmarksFolder folder parent_path is_in_toolbar bookmarks =
   RecursiveReadBookmarksFolder folder' parent_path is_in_toolbar bookmarks)
  /\ ((forall child, child ∈ children -> is_bookmark_node child = false) ->
      RecursiveReadBookmarksFolder folder parent_path is_in_toolbar bookmarks =
      Ok bookmarks).
Proof.
  intros Hchildren. split.
  - intros Hfiltered. rewrite !RecursiveReadBookmarksFolder_eq, Hchildren, Hfiltered.
    symmetry. apply visit_children_skips.
  - intros Hall. rewrite RecursiveReadBookmarksFolder_eq, Hchildren.
    rewrite <- visit_children_skips.
    assert (Hnone : List.filter is_bookmark_node children = []).
    { clear Hchildren. induction children as [|child rest IH]; [reflexivity|].
      cbn [List.filter]. rewrite (Hall child) by apply list_elem_of_here.
      apply IH. intros c Hc. apply Hall. now apply list_elem_of_further. }
    now rewrite Hnone.
Qed.

(** A folder child whose own walk throws ends the walk of its parent with
    the same exception. *)
Lemma visit_children_propagates (parent_path : list string) (is_in_toolbar : bool)
    (before after : list Value) (sub : Value) (t : Z) (e : Exception)
    (bookmarks bookmarks' : list ImportedBookmarkEntry) :
  visit_children RecursiveReadBookmarksFolder parent_path is_in_toolbar before bookmarks
    = Ok bookmarks' ->
  GetString "type" sub = "folder" ->
  stoll (GetString "date_added" sub) = Ok t ->
  RecursiveReadBookmarksFolder sub (parent_path ++ [GetString "name" sub]) false []
    = Throw e ->
  visit_children RecursiveReadBookmarksFolder parent_path is_in_toolbar
    (before ++ sub :: after) bookmarks = Throw e.
Proof.
  intros Hbefore Htype Hdate Hsub. revert bookmarks Hbefore.
  induction before as [|value rest IH]; intros bookmarks Hbefore.
  - cbn [app visit_children].
    assert (Hdict : exists m, GetAsDictionary sub = Some m).
    { destruct sub; try discriminate. eexists; reflexivity. }
    destruct Hdict as [m ->]. rewrite Htype, Hdate.
    cbn [String.eqb Ascii.eqb Bool.eqb rbind].
    now rewrite RecursiveReadBookmarksFolder_app, Hsub.
  - cbn [app visit_children] in *.
    destruct (GetAsDictionary value); [|now apply IH].
    destruct (String.eqb (GetString "type" value) "folder").
    + destruct (stoll (GetString "date_added" value)); cbn [rbind] in *;
        [|discriminate].
      destruct (RecursiveReadBookmarksFolder value _ _ _); cbn [rbind] in *;
        [|discriminate].
      now apply IH.
    + destruct (String.eqb (GetString "type" value) "url"); [|now apply IH].
      destruct (stoll (GetString "date_added" value)); cbn [rbind] in *;
        [|discriminate].
      now apply IH.
Qed.

(** X11.  A date that [std::stoll] rejects ends the walk with its
    exception, whatever follows the node, and the exception of a
    sub-folder ends the walk of its parent: a folder or url node with such
    a date at any depth makes the whole walk throw. *)
Theorem rejected_date_ends_walk (folder : Value) (before after : list Value)
    (node : Value) (e : Exception) (parent_path : list string)
    (is_in_toolbar : bool) (bookmarks bookmarks' : list ImportedBookmarkEntry) :
  GetList "children" folder = Some (before ++ node :: after) ->
  visit_children RecursiveReadBookmarksFolder parent_path is_in_toolbar before bookmarks
    = Ok bookmarks' ->
  (is_bookmark_node node = true ->
   stoll (GetString "date_added" node) = Throw e ->
   RecursiveReadBookmarksFolder folder parent_path is_in_toolbar bookmarks = Throw e)
  /\ (forall t,
        GetString "type" node = "folder" ->
        stoll (GetString "date_added" node) = Ok t ->
        RecursiveReadBookmarksFolder node (parent_path ++ [GetString "name" node])
          false [] = Throw e ->
        RecursiveReadBookmarksFolder folder parent_path is_in_toolbar bookmarks
        = Throw e).
Proof.
  intros Hchildren Hbefore. split.
  - intros Hnode Hdate. rewrite RecursiveReadBookmarksFolder_eq, Hchildren.
    now apply (visit_children_throws _ _ _ _ _ _ _ _ bookmarks').
  - intros t Htype Hdate Hsub. rewrite RecursiveReadBookmarksFolder_eq, Hchildren.
    now apply (visit_children_propagates _ _ _ _ _ t _ _ bookmarks').
Qed.

End WalkProperties.

Lemma malformed_children_are_skipped_witness :
  @RecursiveReadBookmarksFolder Example.chromium
    (DICTIONARY [("children",
                  LIST [INTEGER 3; DICTIONARY [("type", STRING "separator")];
                        Example.leaf; DICTIONARY [("name", STRING "typeless")]])])
    ["Bookmarks bar"] true []
  = @RecursiveReadBookmarksFolder Example.chromium
      (DICTIONARY [("children", LIST [Example.leaf])]) ["Bookmarks bar"] true [].
Proof.
  eapply (@malformed_children_are_skipped Example.chromium); reflexivity.
Defined.

Lemma rejected_date_ends_walk_witness :
  @RecursiveReadBookmarksFolder Example.chromium Example.misdated_bar
    ["Bookmarks bar"] true [] = Throw invalid_argument /\
  @RecursiveReadBookmarksFolder Example.chromium
    (DICTIONARY [("children",
                  LIST [Example.leaf;
                        DICTIONARY [("children", LIST [Example.misdated]);
                                    ("date_added", STRING "13000000000000000");
                                    ("name", STRING "Deep");
                                    ("type", STRING "folder")]])])
    ["Other"] false [] = Throw invalid_argument.
Proof.
  split.
  - exact (proj1 (@rejected_date_ends_walk Example.chromium Example.misdated_bar
                    [] [Example.leaf] Example.misdated invalid_argument
                    ["Bookmarks bar"] true [] [] eq_refl eq_refl)
             eq_refl eq_refl).
  - assert (Hbefore : exists bookmarks',
              visit_children (@RecursiveReadBookmarksFolder Example.chromium)
                ["Other"] false [Example.leaf] [] = Ok bookmarks')
      by (vm_compute; eauto).
    destruct Hbefore as [bookmarks' Hbefore].
    exact (proj2 (@rejected_date_ends_walk Example.chromium
                    (DICTIONARY
                       [("children",
                         LIST [Example.leaf;
                               DICTIONARY [("children", LIST [Example.misdated]);
                                           ("date_added", STRING "13000000000000000");
                                           ("name", STRING "Deep");
                                           ("type", STRING "folder")]])])
                    [Example.leaf] []
                    (DICTIONARY [("children", LIST [Example.misdated]);
                                 ("date_added", STRING "13000000000000000");
                                 ("name", STRING "Deep");
                                 ("type", STRING "folder")])
                    invalid_argument ["Other"] false [] bookmarks' eq_refl Hbefore)
             13000000000000000 eq_refl eq_refl eq_refl).
Defined.

(** ** Favicons *)

Section FaviconProperties.
Context `{Chromium}.
Variable cancelled_at : nat -> bool.

(** An entry of the map built by pass 1 comes from a row of the mapping:
    its set holds the page of that row and so is not empty, and holds only
    pages of rows with that icon id. *)
Lemma favicon_map_entry (rows : list (Z * string)) (icon_id : Z) (urls : gset GURL) :
  (icon_id, urls) ∈ fold_left icon_mapping_row rows [] ->
  urls <> ∅ /\
  forall page, page ∈ urls ->
    exists r, r ∈ rows /\ ColumnInt64 r.1 = icon_id /\ page = GURL_of r.2.
Proof.
  intros Hin. apply elem_of_icon_mapping_rows in Hin as [(r & Hr & Hid) ->].
  unfold pages_of. split.
  - assert (Hpage : GURL_of r.2 ∈ (list_to_set
              ((fun r => GURL_of r.2) <$>
               filter (fun r => ColumnInt64 r.1 = icon_id) rows) : gset GURL)).
    { apply elem_of_list_to_set, list_elem_of_fmap. exists r.
      split; [reflexivity|]. now apply list_elem_of_filter. }
    set_solver.
  - intros page Hpage.
    apply elem_of_list_to_set, list_elem_of_fmap in Hpage as (r' & -> & Hr').
    apply list_elem_of_filter in Hr' as [Hid' Hr']. exists r'. auto.
Qed.

Lemma fold_icon_mapping_nonempty (rows : list (Z * string)) :
  rows <> [] -> fold_left icon_mapping_row rows [] <> [].
Proof.
  destruct rows as [|r rows]; [contradiction|]. intros _ Hempty.
  assert (Hin : (ColumnInt64 r.1, pages_of (r :: rows) (ColumnInt64 r.1))
                  ∈ fold_left icon_mapping_row (r :: rows) []).
  { apply elem_of_icon_mapping_rows. split; [|reflexivity].
    exists r. split; [left | reflexivity]. }
  rewrite Hempty in Hin. now apply elem_of_nil in Hin.
Qed.

(** X12.  Every usage handed to [SetFavicons] joins one icon with the
    pages mapped to it: its page set is not empty and holds only pages of
    mapping rows with that icon id, the icon has a row whose url is valid,
    and the usage carries either that url and no image bytes, or, for a
    data url, the bytes the codec returned and no url. *)
Theorem delivered_favicons_are_joined (p : SourceProfile) (n : nat)
    (favicons : list FaviconUsageData) :
  SetFavicons favicons ∈ out (ImportFavicons cancelled_at p n) ->
  exists db,
    Favicons p = Opened db /\
    forall usage, usage ∈ favicons ->
      usage_urls usage <> ∅ /\
      exists icon_id cell,
        favicon_row db icon_id = Some cell /\
        is_valid (GURL_of cell) = true /\
        (forall page, page ∈ usage_urls usage ->
           exists r,
             r ∈ icon_mapping db /\ ColumnInt64 r.1 = icon_id /\ page = GURL_of r.2) /\
        ((SchemeIs_data (GURL_of cell) = false /\
          favicon_url usage = GURL_of cell /\ png_data usage = []) \/
         (SchemeIs_data (GURL_of cell) = true /\
          favicon_url usage = GURL_empty /\
          ReencodeFavicon (list_byte_of_string cell) = Some (png_data usage))).
Proof.
  intros Hin.
  destruct (ImportFavicons_shape cancelled_at p n)
    as [Hout|(db & favicon_map & Hdb & _ & Hmap & Hout)];
    rewrite Hout in Hin; [now apply elem_of_nil in Hin|].
  apply list_elem_of_singleton in Hin. injection Hin as ->.
  exists db. split; [exact Hdb|]. intros usage Husage.
  rewrite LoadFaviconData_omap in Husage. cbn [app] in Husage.
  apply list_elem_of_omap in Husage as ([icon_id urls] & Hentry & Hload).
  cbn [fst snd] in Hload.
  rewrite ImportFaviconURLs_run in Hmap. cbn [res] in Hmap. injection Hmap as <-.
  apply favicon_map_entry in Hentry as [Hne Hpages].
  apply load_favicon_cases in Hload as (cell & Hrow & Hvalid & Hurls & Hkind).
  rewrite Hurls. split; [exact Hne|].
  exists icon_id, cell. split; [exact Hrow|]. split; [exact Hvalid|].
  split; [|exact Hkind].
  intros page Hpage. destruct (Hpages page Hpage) as (r & Hr & Hid & ->).
  exists r. split; [|auto].
  apply elem_of_take in Hr as (i & Hi & _). now apply list_elem_of_lookup_2 in Hi.
Qed.

Lemma ImportFavicons_uncancelled (p : SourceProfile) (db : favicons_db) (n : nat) :
  never_cancelled cancelled_at ->
  Favicons p = Opened db ->
  out (ImportFavicons cancelled_at p n) =
  if decide (fold_left icon_mapping_row (icon_mapping db) [] = []) then []
  else [SetFavicons
          (LoadFaviconData db (fold_left icon_mapping_row (icon_mapping db) []) [])].
Proof.
  intros Hnever Hdb. unfold ImportFavicons. rewrite Hdb.
  unfold bind. rewrite ImportFaviconURLs_run. cbn [res clock out].
  rewrite rows_consumed_never by exact Hnever. rewrite take_ge by lia.
  destruct (decide _); [reflexivity|].
  unfold cancelled. cbn [res clock out]. now rewrite Hnever.
Qed.

(** X13.  When the run is not cancelled, [SetFavicons] is called exactly
    when the icon mapping has a row, also when no icon resolves: a mapping
    with rows and no usable favicon row delivers the empty list, and an
    empty mapping delivers nothing. *)
Theorem favicons_follow_the_mapping (p : SourceProfile) (db : favicons_db) (n : nat) :
  never_cancelled cancelled_at ->
  Favicons p = Opened db ->
  (icon_mapping db = [] -> out (ImportFavicons cancelled_at p n) = [])
  /\ (icon_mapping db <> [] ->
      out (ImportFavicons cancelled_at p n) =
      [SetFavicons
         (LoadFaviconData db (fold_left icon_mapping_row (icon_mapping db) []) [])])
  /\ (icon_mapping db <> [] ->
      (forall icon_id urls, load_favicon db icon_id urls = None) ->
      out (ImportFavicons cancelled_at p n) = [SetFavicons []]).
Proof.
  intros Hnever Hdb.
  pose proof (ImportFavicons_uncancelled p db n Hnever Hdb) as Hout.
  assert (Hrows : icon_mapping db <> [] ->
            out (ImportFavicons cancelled_at p n) =
            [SetFavicons
               (LoadFaviconData db (fold_left icon_mapping_row (icon_mapping db) []) [])]).
  { intros Hne. rewrite Hout. destruct (decide _) as [Hempty|]; [|reflexivity].
    now destruct (fold_icon_mapping_nonempty _ Hne). }
  split; [|split].
  - intros Hnil. rewrite Hout, Hnil. reflexivity.
  - exact Hrows.
  - intros Hne Hnone. rewrite (Hrows Hne), LoadFaviconData_omap. cbn [app].
    do 2 f_equal. generalize (fold_left icon_mapping_row (icon_mapping db) []).
    intros entries. induction entries as [|i entries IH]; [reflexivity|].
    cbn. now rewrite Hnone.
Qed.

(** Pass 1 sees the mapping as a set of rows, up to the order of the
    entries. *)
Lemma icon_mapping_rows_as_set (rows rows' : list (Z * string)) :
  (forall r, r ∈ rows <-> r ∈ rows') ->
  fold_left icon_mapping_row rows [] ≡ₚ fold_left icon_mapping_row rows' [].
Proof.
  intros Hsame.
  assert (Hpages : forall icon_id, pages_of rows icon_id = pages_of rows' icon_id).
  { intros icon_id. unfold pages_of. apply set_eq. intros page.
    rewrite !elem_of_list_to_set, !list_elem_of_fmap.
    split; intros (r & -> & Hr); exists r; (split; [reflexivity|]);
      apply list_elem_of_filter in Hr as [Hid Hr]; apply list_elem_of_filter;
      (split; [exact Hid | now apply Hsame]). }
  apply NoDup_Permutation.
  - apply (NoDup_fmap_1 fst), icon_mapping_rows_NoDup, NoDup_nil_2.
  - apply (NoDup_fmap_1 fst), icon_mapping_rows_NoDup, NoDup_nil_2.
  - intros [icon_id urls]. rewrite !elem_of_icon_mapping_rows, Hpages.
    split; intros [(r & Hr & Hid) Hurls]; (split; [|exact Hurls]);
      exists r; (split; [now apply Hsame | exact Hid]).
Qed.

(** X14.  The icon mapping counts as a set of rows: when the run is not
    cancelled, two Favicons databases with the same favicons table whose
    mappings hold the same rows, in any order and with any repetition,
    either both deliver no favicons or deliver the same usage records, up
    to the order of the records in the list. *)
Theorem favicons_up_to_mapping_order (p p' : SourceProfile) (db db' : favicons_db)
    (n n' : nat) :
  never_cancelled cancelled_at ->
  Favicons p = Opened db ->
  Favicons p' = Opened db' ->
  favicons db' = favicons db ->
  (forall r, r ∈ icon_mapping db <-> r ∈ icon_mapping db') ->
  (out (ImportFavicons cancelled_at p n) = [] /\
   out (ImportFavicons cancelled_at p' n') = []) \/
  (exists favicons favicons',
     out (ImportFavicons cancelled_at p n) = [SetFavicons favicons] /\
     out (ImportFavicons cancelled_at p' n') = [SetFavicons favicons'] /\
     favicons ≡ₚ favicons').
Proof.
  intros Hnever Hdb Hdb' Htable Hsame.
  rewrite (ImportFavicons_uncancelled p db n Hnever Hdb).
  rewrite (ImportFavicons_uncancelled p' db' n' Hnever Hdb').
  pose proof (icon_mapping_rows_as_set _ _ Hsame) as Hperm.
  destruct (decide (fold_left icon_mapping_row (icon_mapping db) [] = []))
    as [Hempty|Hne].
  - left. split; [reflexivity|]. rewrite Hempty in Hperm.
    apply Permutation_nil_l in Hperm. rewrite <- Hperm.
    now rewrite decide_True by reflexivity.
  - right. rewrite decide_False.
    + eexists _, _. split; [reflexivity|]. split; [reflexivity|].
      rewrite !LoadFaviconData_omap. cbn [app].
      assert (Hload : forall l : FaviconMap,
                omap (fun i => load_favicon db' i.1 i.2) l =
                omap (fun i => load_favicon db i.1 i.2) l).
      { intros l. apply list_omap_ext, Forall_Forall2_diag, Forall_forall.
        intros i _. unfold load_favicon, favicon_row. now rewrite Htable. }
      now rewrite Hload, Hperm.
    + intros Hempty. rewrite Hempty in Hperm. now apply Permutation_nil_r in Hperm.
Qed.

End FaviconProperties.

Lemma delivered_favicons_are_joined_witness :
  exists favicons,
    SetFavicons favicons
      ∈ out (@ImportFavicons Example.chromium Example.never Example.profile 0%nat) /\
    forall usage, usage ∈ favicons -> usage_urls usage <> ∅.
Proof.
  pose proof (@ImportFavicons_uncancelled Example.chromium Example.never
                Example.profile Example.icons 0%nat never_is_never_cancelled eq_refl)
    as Hout.
  destruct (decide _) as [Hempty|_] in Hout;
    [destruct (@fold_icon_mapping_nonempty Example.chromium _ ltac:(discriminate)
                 Hempty)|].
  match type of Hout with _ = [SetFavicons ?f] => set (favicons := f) in * end.
  assert (Hin : SetFavicons favicons
                  ∈ out (@ImportFavicons Example.chromium Example.never
                           Example.profile 0%nat))
    by (rewrite Hout; apply list_elem_of_here).
  exists favicons. split; [exact Hin|].
  destruct (@delivered_favicons_are_joined Example.chromium Example.never
              Example.profile 0%nat favicons Hin) as (db & _ & Hall).
  intros usage Husage. exact (proj1 (Hall usage Husage)).
Defined.

Lemma favicons_follow_the_mapping_witness :
  out (@ImportFavicons Example.chromium Example.never
         (Example.with_favicons (Opened Example.unresolved_icons) Example.profile) 0%nat)
  = [SetFavicons []].
Proof.
  destruct (@favicons_follow_the_mapping Example.chromium Example.never
              (Example.with_favicons (Opened Example.unresolved_icons) Example.profile)
              Example.unresolved_icons 0%nat never_is_never_cancelled eq_refl)
    as (_ & _ & Hempty).
  apply Hempty; [discriminate|].
  intros icon_id urls. unfold load_favicon, favicon_row. cbn [favicons Example.unresolved_icons List.find fst snd].
  destruct (9 =? icon_id); reflexivity.
Defined.

Lemma favicons_up_to_mapping_order_witness :
  (@fold_left (@FaviconMap Example.chromium) _ icon_mapping_row
     (icon_mapping Example.mixed_icons) []).*1 = [1; 2; 3] /\
  (@fold_left (@FaviconMap Example.chromium) _ icon_mapping_row
     (icon_mapping Example.mixed_icons_reordered) []).*1 = [3; 2; 1] /\
  ((out (@ImportFavicons Example.chromium Example.never
           (Example.with_favicons (Opened Example.mixed_icons) Example.profile) 0%nat)
    = [] /\
    out (@ImportFavicons Example.chromium Example.never
           (Example.with_favicons (Opened Example.mixed_icons_reordered)
              Example.profile) 0%nat)
    = []) \/
   (exists favicons favicons',
      out (@ImportFavicons Example.chromium Example.never
             (Example.with_favicons (Opened Example.mixed_icons) Example.profile) 0%nat)
      = [SetFavicons favicons] /\
      out (@ImportFavicons Example.chromium Example.never
             (Example.with_favicons (Opened Example.mixed_icons_reordered)
                Example.profile) 0%nat)
      = [SetFavicons favicons'] /\
      favicons ≡ₚ favicons')).
Proof.
  split; [vm_compute; reflexivity|]. split; [vm_compute; reflexivity|].
  apply (@favicons_up_to_mapping_order Example.chromium Example.never
           (Example.with_favicons (Opened Example.mixed_icons) Example.profile)
           (Example.with_favicons (Opened Example.mixed_icons_reordered)
              Example.profile)
           Example.mixed_icons Example.mixed_icons_reordered 0%nat 0%nat
           never_is_never_cancelled eq_refl eq_refl eq_refl).
  intros r. cbn [icon_mapping Example.mixed_icons Example.mixed_icons_reordered].
  rewrite !elem_of_cons, !elem_of_nil. tauto.
Defined.

(** ** The imports under cancellation *)

Section ImportProperties.
Context `{Chromium}.
Variable cancelled_at : nat -> bool.

Lemma rows_consumed_set (n len : nat) :
  cancelled_at n = true -> rows_consumed cancelled_at n len = 0%nat.
Proof. intros Hset. destruct len; cbn; [reflexivity | now rewrite Hset]. Qed.

Lemma after_loop_ge (n len : nat) : (n <= after_loop cancelled_at n len)%nat.
Proof. unfold after_loop. destruct (_ <? _)%nat; lia. Qed.

Lemma ImportFavicons_cancelled (p : SourceProfile) (n : nat) :
  cancelled_at n = true -> out (ImportFavicons cancelled_at p n) = [].
Proof.
  intros Hset. unfold ImportFavicons. destruct (Favicons p) as [| |db]; try reflexivity.
  unfold bind. rewrite ImportFaviconURLs_run. cbn [res clock out].
  rewrite rows_consumed_set by exact Hset. cbn [take fold_left].
  destruct (decide _) as [|Hne]; [reflexivity | now destruct Hne].
Qed.

(** X15.  Once the flag is set and stays set, the history, cookie and
    bookmark imports deliver nothing, favicons included, whatever the
    profile holds; the password import never polls the flag. *)
Theorem cancelled_imports_deliver_nothing (host : Host) (p : SourceProfile) (n : nat) :
  flag_stays_set cancelled_at ->
  cancelled_at n = true ->
  out (ImportHistory cancelled_at p n) = []
  /\ out (ImportCookies cancelled_at p n) = []
  /\ out (ImportBookmarks cancelled_at p n) = []
  /\ clock (ImportPasswords host p n) = n.
Proof.
  intros Hmono Hset.
  assert (Hlater : forall m, (n <= m)%nat -> cancelled_at m = true).
  { intros m Hm. now apply (Hmono n). }
  split; [|split; [|split]].
  - destruct (History p) as [| |urls] eqn:Hp;
      try (unfold ImportHistory; now rewrite Hp).
    destruct (ImportHistory_run cancelled_at p n urls Hp) as [_ ->].
    rewrite (Hlater _ (after_loop_ge n _)). now destruct (history_row <$> _).
  - destruct (Cookies p) as [| |table] eqn:Hp;
      try (unfold ImportCookies; now rewrite Hp).
    destruct (ImportCookies_run cancelled_at p n table Hp) as [_ ->].
    rewrite (Hlater _ (after_loop_ge n _)). now destruct (cookie_entry <$> _).
  - unfold ImportBookmarks. cbv zeta.
    destruct (JSONReader_Read _) as [v|]; [|reflexivity].
    destruct v; try reflexivity.
    destruct (ReadBookmarkRoots (DICTIONARY members)) as [bookmarks|e].
    + rewrite (bind_ok _ _ n bookmarks) by reflexivity. cbn [lift res clock out app].
      destruct bookmarks as [|entry entries].
      * rewrite (bind_ok _ _ n tt) by reflexivity. cbn [ret res clock out app].
        now apply ImportFavicons_cancelled.
      * unfold bind, cancelled. cbn [res clock out]. rewrite Hset.
        cbn [ret res clock out app]. apply ImportFavicons_cancelled.
        apply Hlater. lia.
    + now rewrite (bind_throw _ _ n e).
  - destruct (ImportPasswords_cases host p n) as [->|(backend & _ & ->)];
      [reflexivity|].
    now rewrite forward_logins_run.
Qed.

(** X16.  When the run is not cancelled, the history import hands over
    one record for every row whose hidden flag is clear, in table order
    and in a single call, and makes no call when there is no such row; it
    has polled the flag once per such row and once more before the call. *)
Theorem history_is_imported_whole (p : SourceProfile) (urls : list urls_row)
    (n : nat) :
  never_cancelled cancelled_at ->
  History p = Opened urls ->
  out (ImportHistory cancelled_at p n) =
    match history_query urls with
    | [] => []
    | _ :: _ =>
        [SetHistoryItems (history_row <$> history_query urls)
           VISIT_SOURCE_CHROME_IMPORTED]
    end
  /\ clock (ImportHistory cancelled_at p n) =
     match history_query urls with
     | [] => n
     | _ :: _ => S (n + length (history_query urls))
     end.
Proof.
  intros Hnever Hp. unfold ImportHistory, history_loop. rewrite Hp.
  unfold bind. rewrite while_Step_run. cbn [res clock out].
  rewrite rows_consumed_never by exact Hnever. rewrite take_ge by lia.
  rewrite fold_left_push. cbn [app]. unfold after_loop.
  rewrite rows_consumed_never by exact Hnever. rewrite Nat.ltb_irrefl.
  destruct (history_query urls) as [|r rows]; cbn [fmap list_fmap length];
    [split; [reflexivity | cbn [ret clock]; lia]|].
  unfold cancelled. cbn [res clock out]. rewrite Hnever.
  split; reflexivity.
Qed.

End ImportProperties.

Section PasswordProperties.
Context `{Chromium}.

(** X17.  On an X11 build the credentials come from the KWallet backend
    or, when built with libsecret, from the libsecret backend, and from
    nowhere else: with the GNOME keyring, a deferred or a plain-text
    backend selected, or a GNOME backend selected in a build without
    libsecret, nothing is forwarded; and the Login Data database of the
    profile is not consulted. *)
Theorem x11_credentials_need_a_native_backend (host : Host) (p : SourceProfile)
    (n : nat) :
  USE_X11 host = true ->
  ((SelectBackend host = GNOME_KEYRING \/ SelectBackend host = DEFER \/
    SelectBackend host = BASIC_TEXT \/
    (USE_LIBSECRET host = false /\
     (SelectBackend host = GNOME_ANY \/ SelectBackend host = GNOME_LIBSECRET))) ->
   ImportPasswords host p n = {| res := Ok tt; clock := n; out := [] |})
  /\ (forall p',
        Preferences_read p' = Preferences_read p ->
        Preferences_kLocalProfileId p' = Preferences_kLocalProfileId p ->
        ImportPasswords host p' n = ImportPasswords host p n).
Proof.
  intros Hx11. split.
  - intros Hbackend. unfold ImportPasswords. rewrite Hx11. cbn [negb].
    destruct (Preferences_read p); cbn [negb]; [|reflexivity].
    destruct (Preferences_kLocalProfileId p) as [value|]; [|reflexivity].
    destruct (GetAsInteger value) as [local_profile_id|]; [|reflexivity].
    unfold select_native_backend.
    destruct Hbackend as [->|[->|[->|[Hlib [->| ->]]]]];
      try reflexivity; now rewrite Hlib.
  - intros p' Hread Hid. unfold ImportPasswords. now rewrite Hx11, Hread, Hid.
Qed.

End PasswordProperties.

Lemma cancelled_imports_deliver_nothing_witness :
  out (@ImportHistory Example.chromium (Example.set_from 0) Example.profile 0%nat) = [] /\
  out (@ImportBookmarks Example.chromium (Example.set_from 0) Example.profile 0%nat) = [].
Proof.
  destruct (@cancelled_imports_deliver_nothing Example.chromium (Example.set_from 0)
              Example.host Example.profile 0%nat (set_from_stays_set 0) eq_refl)
    as (Hhistory & _ & Hbookmarks & _).
  split; assumption.
Defined.

Lemma history_is_imported_whole_witness :
  out (@ImportHistory Example.chromium Example.never Example.profile 0%nat) =
  [SetHistoryItems
     (@history_row Example.chromium <$>
        [Example.visited "https://a.example/" 0; Example.visited "https://b.example/" 0;
         Example.visited "https://c.example/" 0])
     VISIT_SOURCE_CHROME_IMPORTED] /\
  clock (@ImportHistory Example.chromium Example.never Example.profile 0%nat) = 4%nat.
Proof.
  destruct (@history_is_imported_whole Example.chromium Example.never Example.profile
              _ 0%nat never_is_never_cancelled eq_refl) as [Hout Hclock].
  split; [exact Hout | exact Hclock].
Defined.

Lemma x11_credentials_need_a_native_backend_witness :
  @ImportPasswords Example.chromium Example.keyring_host Example.x11_profile 0%nat =
  {| res := Ok tt; clock := 0%nat; out := [] |}.
Proof.
  exact (proj1 (@x11_credentials_need_a_native_backend Example.chromium
                  Example.keyring_host Example.x11_profile 0%nat eq_refl)
           (or_introl eq_refl)).
Defined.

(** ** What [ImportBookmarks] delivers *)

Section BookmarkProperties.
Context `{Chromium}.
Variable cancelled_at : nat -> bool.

Lemma ImportFavicons_any_poll (p : SourceProfile) (n m : nat) :
  never_cancelled cancelled_at ->
  out (ImportFavicons cancelled_at p m) = out (ImportFavicons cancelled_at p n).
Proof.
  intros Hnever. destruct (Favicons p) as [| |db] eqn:Hdb;
    try (unfold ImportFavicons; now rewrite Hdb).
  now rewrite !(ImportFavicons_uncancelled cancelled_at p db _ Hnever Hdb).
Qed.

(** X19.  When the run is not cancelled and the roots are read without an
    exception, [ImportBookmarks] hands over the entries exactly as read, in
    one call under the folder name "Imported from Chrome" and before the
    favicons; with no entry it makes no bookmark call and still runs the
    favicon phase. *)
Theorem bookmarks_delivered_as_read (p : SourceProfile)
    (members : list (string * Value)) (bookmarks : list ImportedBookmarkEntry)
    (n : nat) :
  never_cancelled cancelled_at ->
  JSONReader_Read (default "" (Bookmarks p)) = Some (DICTIONARY members) ->
  ReadBookmarkRoots (DICTIONARY members) = Ok bookmarks ->
  res (ImportBookmarks cancelled_at p n) = Ok tt /\
  out (ImportBookmarks cancelled_at p n) =
    match bookmarks with
    | [] => []
    | _ :: _ => [AddBookmarks bookmarks "Imported from Chrome"]
    end ++ out (ImportFavicons cancelled_at p n).
Proof.
  intros Hnever Hparse Hroots. unfold ImportBookmarks. cbv zeta.
  rewrite Hparse, (bind_ok _ _ n bookmarks) by (cbn [lift res]; now rewrite Hroots).
  cbn [lift res clock out app].
  destruct bookmarks as [|entry entries].
  - rewrite (bind_ok _ _ n tt) by reflexivity. cbn [ret res clock out app].
    split; [apply (ImportFavicons_data cancelled_at p n) | reflexivity].
  - unfold bind, cancelled. cbn [res clock out]. rewrite Hnever.
    cbn [emit res clock out app].
    destruct (ImportFavicons_data cancelled_at p (S n)) as [-> _].
    split; [reflexivity|]. cbn [res clock out].
    now rewrite (ImportFavicons_any_poll p n (S n) Hnever).
Qed.

(** X20.  Every entry read from the roots lies under the name of its
    root: its path is not empty and begins with the name of the
    bookmark_bar root or of the "other" root, and an entry with
    in_toolbar = true has the name of the bookmark_bar root as its whole
    path. *)
Theorem entries_lie_under_a_root (bookmark_dict : Value)
    (bookmarks : list ImportedBookmarkEntry) (e : ImportedBookmarkEntry) :
  ReadBookmarkRoots bookmark_dict = Ok bookmarks ->
  e ∈ bookmarks ->
  exists roots key root,
    GetDictionary "roots" bookmark_dict = Some roots /\
    (key = "bookmark_bar" \/ key = "other") /\
    GetDictionary key roots = Some root /\
    [GetString "name" root] `prefix_of` entry_path e /\
    (in_toolbar e = true ->
     key = "bookmark_bar" /\ entry_path e = [GetString "name" root]).
Proof.
  intros Hread He. unfold ReadBookmarkRoots in Hread.
  destruct (GetDictionary "roots" bookmark_dict) as [roots|];
    [|injection Hread as <-; now apply elem_of_nil in He].
  assert (Hunder : forall root path tb l,
            RecursiveReadBookmarksFolder root [path] tb [] = Ok l -> e ∈ l ->
            [path] `prefix_of` entry_path e /\
            (in_toolbar e = true -> tb = true /\ entry_path e = [path])).
  { intros root path tb l Hwalk Hin.
    apply RecursiveReadBookmarksFolder_pushes in Hwalk as (new & -> & Hnew).
    rewrite Forall_forall in Hnew.
    destruct (Hnew e Hin) as [[Hpath Htb]|(more & _ & Hpath & Htb)].
    - rewrite Hpath. split; [reflexivity|]. intros Htrue. split; congruence.
    - rewrite Hpath. split; [now exists more|]. congruence. }
  assert (Hbar : forall bar_root l,
            GetDictionary "bookmark_bar" roots = Some bar_root ->
            RecursiveReadBookmarksFolder bar_root [GetString "name" bar_root] true []
              = Ok l ->
            e ∈ l ->
            exists key root,
              (key = "bookmark_bar" \/ key = "other") /\
              GetDictionary key roots = Some root /\
              [GetString "name" root] `prefix_of` entry_path e /\
              (in_toolbar e = true ->
               key = "bookmark_bar" /\ entry_path e = [GetString "name" root])).
  { intros bar_root l Hroot Hwalk Hin.
    destruct (Hunder _ _ _ _ Hwalk Hin) as [Hprefix Htb].
    exists "bookmark_bar", bar_root. split; [now left|].
    split; [exact Hroot|]. split; [exact Hprefix|].
    intros Htrue. split; [reflexivity | now apply Htb]. }
  assert (Hother : forall other_root l,
            GetDictionary "other" roots = Some other_root ->
            RecursiveReadBookmarksFolder other_root [GetString "name" other_root]
              false [] = Ok l ->
            e ∈ l ->
            exists key root,
              (key = "bookmark_bar" \/ key = "other") /\
              GetDictionary key roots = Some root /\
              [GetString "name" root] `prefix_of` entry_path e /\
              (in_toolbar e = true ->
               key = "bookmark_bar" /\ entry_path e = [GetString "name" root])).
  { intros other_root l Hroot Hwalk Hin.
    destruct (Hunder _ _ _ _ Hwalk Hin) as [Hprefix Htb].
    exists "other", other_root. split; [now right|].
    split; [exact Hroot|]. split; [exact Hprefix|].
    intros Htrue. now destruct (Htb Htrue). }
  exists roots.
  enough (exists key root,
            (key = "bookmark_bar" \/ key = "other") /\
            GetDictionary key roots = Some root /\
            [GetString "name" root] `prefix_of` entry_path e /\
            (in_toolbar e = true ->
             key = "bookmark_bar" /\ entry_path e = [GetString "name" root]))
    as (key & root & Hfound) by (exists key, root; now split).
  destruct (GetDictionary "bookmark_bar" roots) as [bar_root|] eqn:Hbar_root;
    cbn [rbind] in Hread.
  - destruct (RecursiveReadBookmarksFolder bar_root _ true []) as [bar|x] eqn:Hwalk;
      cbn [rbind] in Hread; [|discriminate].
    destruct (GetDictionary "other" roots) as [other_root|] eqn:Hother_root.
    + rewrite RecursiveReadBookmarksFolder_app in Hread.
      destruct (RecursiveReadBookmarksFolder other_root _ false []) as [other|x]
        eqn:Hwalk'; cbn [rmap] in Hread; [|discriminate].
      injection Hread as <-. apply elem_of_app in He as [He|He].
      * now apply (Hbar bar_root bar).
      * now apply (Hother other_root other).
    + injection Hread as <-. now apply (Hbar bar_root bar).
  - destruct (GetDictionary "other" roots) as [other_root|] eqn:Hother_root;
      [|injection Hread as <-; now apply elem_of_nil in He].
    now apply (Hother other_root bookmarks).
Qed.

End BookmarkProperties.

Lemma bookmarks_delivered_as_read_witness :
  exists bookmarks,
    ReadBookmarkRoots Example.nested_document = Ok bookmarks /\
    bookmarks <> [] /\
    out (@ImportBookmarks Example.chromium Example.never Example.profile 0%nat) =
      AddBookmarks bookmarks "Imported from Chrome"
        :: out (@ImportFavicons Example.chromium Example.never Example.profile 0%nat).
Proof.
  assert (Hread : exists e l,
            @ReadBookmarkRoots Example.chromium Example.nested_document = Ok (e :: l))
    by (vm_compute; eauto).
  destruct Hread as (e & l & Hread). exists (e :: l).
  split; [exact Hread|]. split; [discriminate|].
  exact (proj2 (@bookmarks_delivered_as_read Example.chromium Example.never
                  Example.profile _ (e :: l) 0%nat never_is_never_cancelled
                  eq_refl Hread)).
Defined.

Lemma entries_lie_under_a_root_witness :
  exists bookmarks e,
    @ReadBookmarkRoots Example.chromium Example.nested_document = Ok bookmarks /\
    e ∈ bookmarks /\
    [ "Bookmarks bar" ] `prefix_of` entry_path e.
Proof.
  assert (Hread : exists e l,
            @ReadBookmarkRoots Example.chromium Example.nested_document = Ok (e :: l))
    by (vm_compute; eauto).
  destruct Hread as (e & l & Hread). exists (e :: l), e.
  split; [exact Hread|]. split; [apply list_elem_of_here|].
  destruct (@entries_lie_under_a_root Example.chromium Example.nested_document
              (e :: l) e Hread (list_elem_of_here e l))
    as (roots & key & root & Hroots & Hkey & Hroot & Hprefix & _).
  vm_compute in Hroots. injection Hroots as <-.
  destruct Hkey as [-> | ->]; vm_compute in Hroot; [|discriminate].
  injection Hroot as <-. exact Hprefix.
Defined.
